(** * tcp_multi: the multi-flow TCP measurement harness

    A shallow embedding of [ns3/scratch/tcp_multi.cc]: the token splitter,
    the congestion-algorithm resolver, the per-flow context set-up of
    [main], the trace callbacks and the periodic sampler [DoSample],
    together with the properties of the harness that its specification
    states.

    Conventions.
    - [uint32_t] and [uint64_t] values are integers in [Z]; every
      operation that can leave the range is followed by [wrap32] or
      [wrap64].
    - [double] is IEEE-754 binary64, as given by the standard library's
      [SpecFloat] ([prec = 53], [emax = 1024], round to nearest even).
    - The simulation engine (ns-3) is not part of the program.  What the
      harness asks of it is either a parameter of a section (type-id
      lookup, opening a file, the conversion of seconds to clock ticks)
      or part of the explicit engine state (the event queue, the trace
      subscriptions, the queue lengths). *)

From Stdlib Require Import ZArith Lia Bool List String Ascii SpecFloat Sorted.
From stdpp Require Import base option list gmap strings pretty.

Import ListNotations.
Local Open Scope string_scope.
Local Open Scope list_scope.
Local Open Scope Z_scope.

(** ** Fixed-width unsigned integers *)

Module UInt.

Definition wrap32 (z : Z) : Z := z mod 2 ^ 32.
Definition wrap64 (z : Z) : Z := z mod 2 ^ 64.

Definition is_uint32 (z : Z) : Prop := 0 <= z < 2 ^ 32.
Definition is_uint64 (z : Z) : Prop := 0 <= z < 2 ^ 64.

End UInt.

(** ** IEEE-754 binary64 *)

Module Double.

Definition prec : Z := 53.
Definition emax : Z := 1024.

Definition double : Type := spec_float.

(** Conversion of an integer to [double] (round to nearest even); exact
    below [2^53], hence for every [uint32_t]. *)
Definition of_Z (z : Z) : double := binary_normalize prec emax z 0 false.

Definition mul : double -> double -> double := SFmul prec emax.
Definition div : double -> double -> double := SFdiv prec emax.
Definition ltb : double -> double -> bool := SFltb.
Definition leb : double -> double -> bool := SFleb.
Definition eqb : double -> double -> bool := SFeqb.

(** A [double] variable holds a representable value. *)
Definition valid (x : double) : bool := valid_binary prec emax x.

(** The literals of the program. *)
Definition zero : double := S754_zero false.
Definition d1 : double := Eval vm_compute in of_Z 1.
Definition d8 : double := Eval vm_compute in of_Z 8.
Definition d1500 : double := Eval vm_compute in of_Z 1500.
Definition d1e6 : double := Eval vm_compute in of_Z 1000000.

Definition is_nan (x : double) : bool :=
  match x with S754_nan => true | _ => false end.

(** [std::max(a, b)] is [(a < b) ? b : a]. *)
Definition max (a b : double) : double := if ltb a b then b else a.

End Double.

Import UInt.
Import Double(double).

(** ** Process outcomes and diagnostics *)

(** How a piece of the program ends: it returns, it aborts through
    [NS_FATAL_ERROR], or it runs into undefined behaviour of C++. *)
Inductive outcome (A : Type) : Type :=
| Returns (a : A)
| Fatal (msg : string)
| Undefined.
Arguments Returns {A} a.
Arguments Fatal {A} msg.
Arguments Undefined {A}.

(** Lines sent to the logging component. *)
Inductive diag : Type :=
| LogWarn (msg : string).

(** ** The congestion-algorithm resolver *)

Section Resolver.

(** The engine's implementation handles and its registry of type names:
    [LookupByNameFailSafe name] is the handle stored through the out
    parameter when the call returns [true], and [None] when it returns
    [false]. *)
Variable TypeId : Type.
Variable LookupByNameFailSafe : string -> option TypeId.

Definition ns3NameOf (algo : string) : string :=
  if String.eqb algo "Reno" then "ns3::TcpNewReno"
  else if String.eqb algo "Cubic" then "ns3::TcpCubic"
  else if String.eqb algo "BBR" then "ns3::TcpBbr"
  else "ns3::TcpNewReno".

Definition fatal_msg (ns3Name : string) : string :=
  "Could not resolve TCP TypeId for " +:+ ns3Name +:+ " or fallback TcpNewReno".

Definition warn_msg (ns3Name : string) : string :=
  ns3Name +:+ " not available; falling back to ns3::TcpNewReno.".

(** [ResolveTcpTypeId algo log] is the log after the call and the way
    the call ends. *)
Definition ResolveTcpTypeId (algo : string) (log : list diag)
  : list diag * outcome TypeId :=
  let ns3Name := ns3NameOf algo in
  match LookupByNameFailSafe ns3Name with
  | Some tid => (log, Returns tid)
  | None =>
      if negb (String.eqb ns3Name "ns3::TcpNewReno") then
        let log := log ++ [LogWarn (warn_msg ns3Name)] in
        match LookupByNameFailSafe "ns3::TcpNewReno" with
        | Some tid => (log, Returns tid)
        | None => (log, Fatal (fatal_msg ns3Name))
        end
      else (log, Fatal (fatal_msg ns3Name))
  end.

(** The names the resolver tells apart. *)
Definition recognized (algo : string) : bool :=
  String.eqb algo "Reno" || String.eqb algo "Cubic" || String.eqb algo "BBR".

End Resolver.
Arguments ResolveTcpTypeId {TypeId} LookupByNameFailSafe algo log.

(** ** Splitting the flow list *)

(** [std::getline(ss, x, d)] on a stream with the characters [ss] left:
    the token read and the characters left after it.  The delimiter is
    consumed and not stored.  The call fails exactly when nothing is
    left, which [Split_loop] tests before calling. *)
Fixpoint getline (ss : string) (d : ascii) : string * string :=
  match ss with
  | EmptyString => (EmptyString, EmptyString)
  | String c rest =>
      if Ascii.eqb c d then (EmptyString, rest)
      else let '(x, rest') := getline rest d in (String c x, rest')
  end.

Definition empty (x : string) : bool :=
  match x with EmptyString => true | String _ _ => false end.

Definition nonempty (x : string) : bool := negb (empty x).

(** The [while] loop of [Split]; every successful [getline] consumes a
    character, so [S (length s)] rounds are enough. *)
Fixpoint Split_loop (fuel : nat) (ss : string) (d : ascii) (out : list string)
  : list string :=
  match fuel with
  | O => out
  | S fuel' =>
      match ss with
      | EmptyString => out
      | String _ _ =>
          let '(x, rest) := getline ss d in
          Split_loop fuel' rest d (if empty x then out else out ++ [x])
      end
  end.

Definition Split (s : string) (d : ascii) : list string :=
  Split_loop (S (String.length s)) s d [].

(** The tokens of [s] between delimiters, empty ones included: what
    the words "comma-separated list" denote. *)
Fixpoint fields (s : string) (d : ascii) : list string :=
  match s with
  | EmptyString => [EmptyString]
  | String c rest =>
      if Ascii.eqb c d then EmptyString :: fields rest d
      else match fields rest d with
           | x :: xs => String c x :: xs
           | [] => [String c EmptyString]
           end
  end.

(** ** Flow contexts and output sinks *)

(** One sampled row; the stream receives the decimal rendering of the
    five values, comma-separated.  [r_time] holds the clock reading
    [Simulator::Now()] in ticks; the value that the stream receives for
    it is [time_value] below, its conversion to seconds. *)
Record row : Type := {
  r_time : Z;
  r_cwndPkts : double;
  r_thrMbps : double;
  r_routerPkts : Z;
  r_inflPkts : double
}.

Inductive csv_line : Type :=
| Text (s : string)
| Sample (r : row).

(** A [std::ofstream]: the file it is attached to and what has been
    written since it was opened ([std::ios::out] truncates). *)
Record ofstream : Type := {
  path : string;
  is_open : bool;
  written : list csv_line
}.

Definition closed_stream : ofstream :=
  {| path := EmptyString; is_open := false; written := [] |}.

(** [s << line]; a stream that is not open drops what it is sent. *)
Definition put (s : ofstream) (l : csv_line) : ofstream :=
  if is_open s
  then {| path := path s; is_open := true; written := written s ++ [l] |}
  else s.

Record FlowCtx : Type := {
  algo : string;
  mssBytes : double;
  lastCwndBytes : double;
  inflightBytes : double;
  csv : ofstream
}.

(** The default member initialisers of [struct FlowCtx]. *)
Definition FlowCtx_default : FlowCtx :=
  {| algo := EmptyString;
     mssBytes := Double.d1500;
     lastCwndBytes := Double.d1500;
     inflightBytes := Double.zero;
     csv := closed_stream |}.

Definition header : string :=
  "time,cwnd_pkts,throughput_mbps,buffer_pkts,inflight_pkts".

Definition set_algo (a : string) (c : FlowCtx) : FlowCtx :=
  {| algo := a; mssBytes := mssBytes c; lastCwndBytes := lastCwndBytes c;
     inflightBytes := inflightBytes c; csv := csv c |}.
Definition set_mssBytes (m : double) (c : FlowCtx) : FlowCtx :=
  {| algo := algo c; mssBytes := m; lastCwndBytes := lastCwndBytes c;
     inflightBytes := inflightBytes c; csv := csv c |}.
Definition set_lastCwndBytes (v : double) (c : FlowCtx) : FlowCtx :=
  {| algo := algo c; mssBytes := mssBytes c; lastCwndBytes := v;
     inflightBytes := inflightBytes c; csv := csv c |}.
Definition set_inflightBytes (v : double) (c : FlowCtx) : FlowCtx :=
  {| algo := algo c; mssBytes := mssBytes c; lastCwndBytes := lastCwndBytes c;
     inflightBytes := v; csv := csv c |}.
Definition set_csv (s : ofstream) (c : FlowCtx) : FlowCtx :=
  {| algo := algo c; mssBytes := mssBytes c; lastCwndBytes := lastCwndBytes c;
     inflightBytes := inflightBytes c; csv := s |}.

(** ** The engine state the harness is run against *)

(** What the engine does on its own account while it runs: a socket
    appears on a node, a trace source of a socket fires, the packet sink
    of a flow receives a packet, a queue disc changes length. *)
Inductive engine_event : Type :=
| SocketCreated (node sock : nat)
| CongestionWindow (sock : nat) (oldCwnd newCwnd : Z)
| BytesInFlight (sock : nat) (oldVal newVal : Z)
| PacketReceived (idx : nat) (size : Z)
| QueueLength (q : nat) (n : Z).

(** What the event queue holds: engine activity, and the bound calls the
    harness hands to [Simulator::Schedule] and [Simulator::Stop].  A
    [FlowCtx*] is the index of the context in the vector [ctx], which is
    never resized. *)
Inductive event : Type :=
| Engine (e : engine_event)
| CallHookSenderTraces (senderId : nat) (c : nat)
| CallDoSample (sampleDt : double)
| CallStop.

Record World : Type := {
  (* the program's own state *)
  ctx : list FlowCtx;
  gRxBytes : gmap nat Z;
  gRxBytesPrev : gmap nat Z;
  gQdiscs : list (option nat);
  (* the engine's *)
  now : Z;
  queue : list (Z * event);
  stopped : bool;
  sockets : list (nat * nat);
  cwndSinks : list (nat * nat);
  inflightSinks : list (nat * nat);
  nPackets : gmap nat Z
}.

Definition with_ctx (v : list FlowCtx) (w : World) : World :=
  {| ctx := v; gRxBytes := gRxBytes w; gRxBytesPrev := gRxBytesPrev w;
     gQdiscs := gQdiscs w; now := now w; queue := queue w;
     stopped := stopped w; sockets := sockets w; cwndSinks := cwndSinks w;
     inflightSinks := inflightSinks w; nPackets := nPackets w |}.
Definition with_gRxBytes (v : gmap nat Z) (w : World) : World :=
  {| ctx := ctx w; gRxBytes := v; gRxBytesPrev := gRxBytesPrev w;
     gQdiscs := gQdiscs w; now := now w; queue := queue w;
     stopped := stopped w; sockets := sockets w; cwndSinks := cwndSinks w;
     inflightSinks := inflightSinks w; nPackets := nPackets w |}.
Definition with_gRxBytesPrev (v : gmap nat Z) (w : World) : World :=
  {| ctx := ctx w; gRxBytes := gRxBytes w; gRxBytesPrev := v;
     gQdiscs := gQdiscs w; now := now w; queue := queue w;
     stopped := stopped w; sockets := sockets w; cwndSinks := cwndSinks w;
     inflightSinks := inflightSinks w; nPackets := nPackets w |}.
Definition with_now (v : Z) (w : World) : World :=
  {| ctx := ctx w; gRxBytes := gRxBytes w; gRxBytesPrev := gRxBytesPrev w;
     gQdiscs := gQdiscs w; now := v; queue := queue w;
     stopped := stopped w; sockets := sockets w; cwndSinks := cwndSinks w;
     inflightSinks := inflightSinks w; nPackets := nPackets w |}.
Definition with_queue (v : list (Z * event)) (w : World) : World :=
  {| ctx := ctx w; gRxBytes := gRxBytes w; gRxBytesPrev := gRxBytesPrev w;
     gQdiscs := gQdiscs w; now := now w; queue := v;
     stopped := stopped w; sockets := sockets w; cwndSinks := cwndSinks w;
     inflightSinks := inflightSinks w; nPackets := nPackets w |}.
Definition with_stopped (v : bool) (w : World) : World :=
  {| ctx := ctx w; gRxBytes := gRxBytes w; gRxBytesPrev := gRxBytesPrev w;
     gQdiscs := gQdiscs w; now := now w; queue := queue w;
     stopped := v; sockets := sockets w; cwndSinks := cwndSinks w;
     inflightSinks := inflightSinks w; nPackets := nPackets w |}.
Definition with_sockets (v : list (nat * nat)) (w : World) : World :=
  {| ctx := ctx w; gRxBytes := gRxBytes w; gRxBytesPrev := gRxBytesPrev w;
     gQdiscs := gQdiscs w; now := now w; queue := queue w;
     stopped := stopped w; sockets := v; cwndSinks := cwndSinks w;
     inflightSinks := inflightSinks w; nPackets := nPackets w |}.
Definition with_cwndSinks (v : list (nat * nat)) (w : World) : World :=
  {| ctx := ctx w; gRxBytes := gRxBytes w; gRxBytesPrev := gRxBytesPrev w;
     gQdiscs := gQdiscs w; now := now w; queue := queue w;
     stopped := stopped w; sockets := sockets w; cwndSinks := v;
     inflightSinks := inflightSinks w; nPackets := nPackets w |}.
Definition with_inflightSinks (v : list (nat * nat)) (w : World) : World :=
  {| ctx := ctx w; gRxBytes := gRxBytes w; gRxBytesPrev := gRxBytesPrev w;
     gQdiscs := gQdiscs w; now := now w; queue := queue w;
     stopped := stopped w; sockets := sockets w; cwndSinks := cwndSinks w;
     inflightSinks := v; nPackets := nPackets w |}.
Definition with_nPackets (v : gmap nat Z) (w : World) : World :=
  {| ctx := ctx w; gRxBytes := gRxBytes w; gRxBytesPrev := gRxBytesPrev w;
     gQdiscs := gQdiscs w; now := now w; queue := queue w;
     stopped := stopped w; sockets := sockets w; cwndSinks := cwndSinks w;
     inflightSinks := inflightSinks w; nPackets := v |}.

(** [m[i]] on a [std::map] with integer values: a missing key reads as
    0 (and is inserted by the read). *)
Definition map_at (m : gmap nat Z) (i : nat) : Z := default 0 (m !! i).

(** [qd->GetNPackets()], a [uint32_t]. *)
Definition GetNPackets (w : World) (q : nat) : Z :=
  wrap32 (default 0 (nPackets w !! q)).

(** [Simulator::Schedule(delay, call)]: the call is queued for
    [Now() + delay], behind what is already queued. *)
Definition Schedule (delay : Z) (call : event) (w : World) : World :=
  with_queue (queue w ++ [(now w + delay, call)]) w.

(** ** The trace callbacks *)

Definition CwndTrace (c : nat) (oldCwnd newCwnd : Z) (w : World) : World :=
  with_ctx (alter (set_lastCwndBytes (Double.of_Z newCwnd)) c (ctx w)) w.

Definition InflightTrace (c : nat) (oldVal newVal : Z) (w : World) : World :=
  with_ctx (alter (set_inflightBytes (Double.of_Z newVal)) c (ctx w)) w.

(** [gRxBytes[idx] += p->GetSize()]. *)
Definition RxTrace (idx : nat) (size : Z) (w : World) : World :=
  with_gRxBytes (<[idx := wrap64 (map_at (gRxBytes w) idx + size)]> (gRxBytes w)) w.

(** [Config::ConnectWithoutContext] on [/NodeList/senderId/.../SocketList/*]:
    the bound callback is attached to every socket the node has at that
    moment. *)
Definition sockets_of (senderId : nat) (w : World) : list nat :=
  omap (fun ns => if Nat.eqb (fst ns) senderId then Some (snd ns) else None)
       (sockets w).

Definition HookSenderTraces (senderId : nat) (c : nat) (w : World) : World :=
  let socks := sockets_of senderId w in
  let w := with_cwndSinks (cwndSinks w ++ map (fun s => (s, c)) socks) w in
  with_inflightSinks (inflightSinks w ++ map (fun s => (s, c)) socks) w.

(** ** The periodic sampler *)

(** [(cur >= prev) ? (cur - prev) : 0] on [uint64_t]. *)
Definition rx_delta (cur prev : Z) : Z :=
  if Z.geb cur prev then cur - prev else 0.

(** [(delta * 8.0) / (sampleDt * 1e6)]. *)
Definition throughput_mbps (delta : Z) (sampleDt : double) : double :=
  Double.div (Double.mul (Double.of_Z delta) Double.d8)
             (Double.mul sampleDt Double.d1e6).

(** [bytes / std::max(1.0, mssBytes)]. *)
Definition mss_divisor (mss : double) : double := Double.max Double.d1 mss.
Definition to_packets (bytes mss : double) : double :=
  Double.div bytes (mss_divisor mss).

(** The first loop of [DoSample]: [routerPkts], a [uint32_t]. *)
Definition router_packets (w : World) : Z :=
  fold_left (fun routerPkts qd =>
               match qd with
               | Some q => wrap32 (routerPkts + GetNPackets w q)
               | None => routerPkts
               end)
            (gQdiscs w) 0.

(** The row that the second loop builds for flow [i]. *)
Definition sample_row (sampleDt : double) (routerPkts : Z) (i : nat)
    (c : FlowCtx) (w : World) : row :=
  let cur := map_at (gRxBytes w) i in
  let prev := map_at (gRxBytesPrev w) i in
  {| r_time := now w;
     r_cwndPkts := to_packets (lastCwndBytes c) (mssBytes c);
     r_thrMbps := throughput_mbps (rx_delta cur prev) sampleDt;
     r_routerPkts := routerPkts;
     r_inflPkts := to_packets (inflightBytes c) (mssBytes c) |}.

(** One round of the second loop. *)
Definition sample_flow (sampleDt : double) (routerPkts : Z) (i : nat)
    (w : World) : World :=
  let cur := map_at (gRxBytes w) i in
  let w1 := with_gRxBytesPrev (<[i := cur]> (gRxBytesPrev w))
              (with_gRxBytes (<[i := cur]> (gRxBytes w)) w) in
  match ctx w !! i with
  | Some c =>
      let r := sample_row sampleDt routerPkts i c w in
      with_ctx (<[i := set_csv (put (csv c) (Sample r)) c]> (ctx w)) w1
  | None => w1
  end.

(** [for (i = i0; i < i0 + k; ++i)]. *)
Fixpoint sample_loop (k : nat) (sampleDt : double) (routerPkts : Z) (i : nat)
    (w : World) : World :=
  match k with
  | O => w
  | S k' => sample_loop k' sampleDt routerPkts (S i)
              (sample_flow sampleDt routerPkts i w)
  end.

Section Simulation.

(** [Seconds(x)]: the engine's conversion of a duration in seconds to
    clock ticks. *)
Variable Seconds : double -> Z.

Definition DoSample (sampleDt : double) (w : World) : World :=
  let routerPkts := router_packets w in
  let w := sample_loop (length (ctx w)) sampleDt routerPkts 0 w in
  Schedule (Seconds sampleDt) (CallDoSample sampleDt) w.

(** ** The event loop *)

(** Modelled from the spec: the engine's scheduler is not part of the
    program.  Section 5 of the specification gives its order: an event
    with an earlier time runs first, and events with the same time run
    in the order they were queued.  As in ns-3, [Simulator::Stop(delay)]
    queues the stop as one more event, and once it has run nothing more
    is run. *)
Fixpoint earliest (q : list (Z * event)) : option Z :=
  match q with
  | [] => None
  | (t, _) :: q' =>
      match earliest q' with
      | None => Some t
      | Some t' => Some (Z.min t t')
      end
  end.

Fixpoint take_first_at (t : Z) (q : list (Z * event))
  : option (event * list (Z * event)) :=
  match q with
  | [] => None
  | (t', e) :: q' =>
      if Z.eqb t' t then Some (e, q')
      else match take_first_at t q' with
           | Some (e', r) => Some (e', (t', e) :: r)
           | None => None
           end
  end.

Definition next_event (q : list (Z * event))
  : option (Z * event * list (Z * event)) :=
  match earliest q with
  | None => None
  | Some t =>
      match take_first_at t q with
      | Some (e, r) => Some (t, e, r)
      | None => None
      end
  end.

(** The engine passes [uint32_t] values to the callbacks. *)
Definition engine_step (e : engine_event) (w : World) : World :=
  match e with
  | SocketCreated node sock => with_sockets (sockets w ++ [(node, sock)]) w
  | CongestionWindow sock oldCwnd newCwnd =>
      fold_left (fun w sc =>
                   if Nat.eqb (fst sc) sock
                   then CwndTrace (snd sc) (wrap32 oldCwnd) (wrap32 newCwnd) w
                   else w)
                (cwndSinks w) w
  | BytesInFlight sock oldVal newVal =>
      fold_left (fun w sc =>
                   if Nat.eqb (fst sc) sock
                   then InflightTrace (snd sc) (wrap32 oldVal) (wrap32 newVal) w
                   else w)
                (inflightSinks w) w
  | PacketReceived idx size => RxTrace idx (wrap32 size) w
  | QueueLength q n => with_nPackets (<[q := n]> (nPackets w)) w
  end.

Definition dispatch (ev : event) (w : World) : World :=
  match ev with
  | Engine e => engine_step e w
  | CallHookSenderTraces senderId c => HookSenderTraces senderId c w
  | CallDoSample sampleDt => DoSample sampleDt w
  | CallStop => with_stopped true w
  end.

(** [Simulator::Run()]: events are taken off the queue until it is empty
    or the stop has been run.  [None]: [fuel] events were not enough. *)
Fixpoint run (fuel : nat) (w : World) : option World :=
  if stopped w then Some w
  else match next_event (queue w) with
       | None => Some w
       | Some (t, ev, rest) =>
           match fuel with
           | O => None
           | S fuel' => run fuel' (dispatch ev (with_now t (with_queue rest w)))
           end
       end.

End Simulation.

(** A conversion to evaluate concrete runs with: the clock counts
    nanoseconds, the default resolution of ns-3, and [SecondsNs x] is
    [x * 10^9] rounded to the nearest tick.  The properties below hold
    for every conversion [Seconds]. *)
Definition SecondsNs (x : double) : Z :=
  match x with
  | S754_finite s m e =>
      let v := if Z.leb 0 e then Zpos m * 2 ^ e * 10 ^ 9
               else (2 * (Zpos m * 10 ^ 9) + 2 ^ (- e)) / (2 * 2 ^ (- e)) in
      if s then - v else v
  | _ => 0
  end.

(** ** Set-up of the flow contexts in [main] *)

(** [0.11], the delay of the hook past the start of the run. *)
Definition d0_11 : double :=
  Eval vm_compute in Double.div (Double.of_Z 11) (Double.of_Z 100).

(** [std::max<uint32_t>(algos.size(), 1)]. *)
Definition flow_count (algos : list string) : Z :=
  Z.max (wrap32 (Z.of_nat (length algos))) 1.

(** [(i < algos.size()) ? algos[i] : algos.back()]; [back()] of an empty
    vector is undefined. *)
Definition algo_for (algos : list string) (i : nat) : outcome string :=
  if Z.ltb (Z.of_nat i) (Z.of_nat (length algos)) then
    match algos !! i with
    | Some a => Returns a
    | None => Undefined
    end
  else
    match last algos with
    | Some a => Returns a
    | None => Undefined
    end.

(** [fn << "trace_flow" << i << ".csv"]. *)
Definition csv_name (i : nat) : string :=
  "trace_flow" +:+ pretty i +:+ ".csv".

Definition open_failed_msg (i : nat) : string :=
  "Failed to open CSV for flow " +:+ pretty i.

(** [senders.Get(i)->GetId()]: nodes are numbered in the order of their
    creation, and the senders are created first. *)
Definition senderId (i : nat) : nat := i.

(** What the set-up loop has produced so far: the contexts, the socket
    type configured on each sender, the calls it has scheduled, and the
    log. *)
Record Setup (TypeId : Type) : Type := {
  s_ctx : list FlowCtx;
  s_socketType : list (nat * TypeId);
  s_scheduled : list (Z * event);
  s_log : list diag
}.
Arguments s_ctx {TypeId} _.
Arguments s_socketType {TypeId} _.
Arguments s_scheduled {TypeId} _.
Arguments s_log {TypeId} _.

Section Main.

Variable TypeId : Type.
Variable LookupByNameFailSafe : string -> option TypeId.

(** Whether [std::ofstream::open] succeeds on a file name. *)
Variable open_ok : string -> bool.

Variable Seconds : double -> Z.

Definition setup_init (n : nat) : Setup TypeId :=
  {| s_ctx := replicate n FlowCtx_default;
     s_socketType := [];
     s_scheduled := [];
     s_log := [] |}.

(** The context of a flow once its round of the loop has gone through:
    only [algo], [mssBytes] and [csv] have been assigned. *)
Definition configured (a : string) (mss : Z) (i : nat) (c : FlowCtx) : FlowCtx :=
  set_csv (put {| path := csv_name i; is_open := true; written := [] |}
               (Text header))
          (set_mssBytes (Double.of_Z mss) (set_algo a c)).

(** The body of the set-up loop for flow [i]. *)
Definition setup_flow (algos : list string) (mss : Z) (i : nat)
    (st : Setup TypeId) : Setup TypeId * outcome unit :=
  match algo_for algos i with
  | Undefined => (st, Undefined)
  | Fatal msg => (st, Fatal msg)
  | Returns a =>
      let cs := alter (fun c => set_mssBytes (Double.of_Z mss) (set_algo a c))
                      i (s_ctx st) in
      let '(log, r) := ResolveTcpTypeId LookupByNameFailSafe a (s_log st) in
      match r with
      | Undefined =>
          ({| s_ctx := cs; s_socketType := s_socketType st;
              s_scheduled := s_scheduled st; s_log := log |}, Undefined)
      | Fatal msg =>
          ({| s_ctx := cs; s_socketType := s_socketType st;
              s_scheduled := s_scheduled st; s_log := log |}, Fatal msg)
      | Returns tid =>
          let types := s_socketType st ++ [(senderId i, tid)] in
          if open_ok (csv_name i) then
            let f := {| path := csv_name i; is_open := true; written := [] |} in
            let cs := alter (set_csv (put f (Text header))) i cs in
            ({| s_ctx := cs; s_socketType := types;
                s_scheduled := s_scheduled st ++
                  [(Seconds d0_11, CallHookSenderTraces (senderId i) i)];
                s_log := log |}, Returns tt)
          else
            ({| s_ctx := cs; s_socketType := types;
                s_scheduled := s_scheduled st; s_log := log |},
             Fatal (open_failed_msg i))
      end
  end.

(** [for (i = i0; i < i0 + k; i++)] over [setup_flow]; the first flow
    that does not return ends the process. *)
Fixpoint setup_loop (k : nat) (algos : list string) (mss : Z) (i : nat)
    (st : Setup TypeId) : Setup TypeId * outcome unit :=
  match k with
  | O => (st, Returns tt)
  | S k' =>
      match setup_flow algos mss i st with
      | (st', Returns _) => setup_loop k' algos mss (S i) st'
      | (st', Fatal msg) => (st', Fatal msg)
      | (st', Undefined) => (st', Undefined)
      end
  end.

Definition main_setup (flows : string) (mss : Z)
  : Setup TypeId * outcome unit :=
  let algos := Split flows "," in
  let n := Z.to_nat (flow_count algos) in
  setup_loop n algos mss 0 (setup_init n).

(** The world when [Simulator::Run()] is entered: the hooks, the first
    sample and the stop are queued in the order [main] makes the calls;
    [traffic] is the engine's own activity during the run. *)
Definition world_at_run (st : Setup TypeId) (sampleDt : double)
    (duration : Z) (traffic : list (Z * engine_event)) : World :=
  {| ctx := s_ctx st;
     gRxBytes := ∅;
     gRxBytesPrev := ∅;
     gQdiscs := map Some (seq 0 (length (s_ctx st)));
     now := 0;
     queue := s_scheduled st
              ++ [(Seconds sampleDt, CallDoSample sampleDt);
                  (Seconds (Double.of_Z duration), CallStop)]
              ++ map (fun te => (fst te, Engine (snd te))) traffic;
     stopped := false;
     sockets := [];
     cwndSinks := [];
     inflightSinks := [];
     nPackets := ∅ |}.

(** [c.csv.close()] for every open stream. *)
Definition close_all (w : World) : World :=
  with_ctx (map (fun c => set_csv {| path := path (csv c); is_open := false;
                                     written := written (csv c) |} c)
                (ctx w)) w.

(** [main]: the log and the way the process ends; when it returns, the
    world it leaves behind ([None] when [fuel] was too small for the
    run).  The construction of the nodes, links, addresses, routes and
    applications is the engine's business and leaves nothing in the
    state kept here besides the queue-disc handles [gQdiscs]. *)
Definition main (flows : string) (mss duration : Z) (sampleDt : double)
    (traffic : list (Z * engine_event)) (fuel : nat)
  : list diag * outcome (option World) :=
  match main_setup flows mss with
  | (st, Returns _) =>
      (s_log st,
       Returns (close_all <$> run Seconds fuel
                  (world_at_run st sampleDt duration traffic)))
  | (st, Fatal msg) => (s_log st, Fatal msg)
  | (st, Undefined) => (s_log st, Undefined)
  end.

End Main.
Arguments world_at_run {TypeId} Seconds st sampleDt duration traffic.

(** ** Concrete engines and inputs used by the examples *)

(** An engine in which every type name is registered; the handle of a
    name is the name. *)
Definition full_registry (name : string) : option string := Some name.

(** [0.1], the default sampling period. *)
Definition d0_1 : double :=
  Eval vm_compute in Double.div (Double.of_Z 1) (Double.of_Z 10).

(** An engine that lacks the named types. *)
Definition registry_without (missing : list string) (name : string)
  : option string :=
  if existsb (String.eqb name) missing then None else Some name.

(** ** Notions used in the statements *)

(** The clock readings of the rows of a sink, in the order written. *)
Definition line_time (l : csv_line) : option Z :=
  match l with
  | Sample r => Some (r_time r)
  | Text _ => None
  end.

Definition sample_times (c : FlowCtx) : list Z :=
  omap line_time (written (csv c)).

(** The time value of a row as the stream receives it,
    [Simulator::Now().GetSeconds()]: the engine's conversion
    [GetSeconds] of the clock reading to seconds, a [double].  The
    stream renders it with its default precision of six digits, so two
    clock readings, and even two values, can read the same in the
    file. *)
Definition time_value (GetSeconds : Z -> double) (r : row) : double :=
  GetSeconds (r_time r).

Definition line_time_value (GetSeconds : Z -> double) (l : csv_line)
    : option double :=
  match l with
  | Sample r => Some (time_value GetSeconds r)
  | Text _ => None
  end.

(** The time values of the rows of a sink, in the order written. *)
Definition time_column (GetSeconds : Z -> double) (c : FlowCtx) : list double :=
  omap (line_time_value GetSeconds) (written (csv c)).

Definition is_row (l : csv_line) : bool :=
  match l with Sample _ => true | Text _ => false end.

(** Flow [j] after a firing of the sampler in world [w]: the same
    context with one row more in its sink. *)
Definition sampled (sampleDt : double) (routerPkts : Z) (w : World)
    (j : nat) (c : FlowCtx) : FlowCtx :=
  set_csv (put (csv c) (Sample (sample_row sampleDt routerPkts j c w))) c.

(** Events that neither schedule nor stop: the engine's own and the
    attachment of the trace hooks. *)
Definition passive (ev : event) : bool :=
  match ev with
  | Engine _ | CallHookSenderTraces _ _ => true
  | CallDoSample _ | CallStop => false
  end.

Definition is_cwnd_change (ev : event) : bool :=
  match ev with
  | Engine (CongestionWindow _ _ _) => true
  | _ => false
  end.

(** The sum of a list of integers. *)
Definition sum_list (l : list Z) : Z := fold_right Z.add 0 l.

(** The packet counts of the queue discs that [DoSample] reads. *)
Definition queue_counts (w : World) : list Z :=
  omap (fun qd => match qd with
                  | Some q => Some (GetNPackets w q)
                  | None => None
                  end) (gQdiscs w).

(** [w'] differs from [w] by engine activity only: the queue, the clock
    and the stop flag are the same, and so are the sink and the MSS of
    every flow. *)
Definition quiet (w w' : World) : Prop :=
  queue w' = queue w /\ now w' = now w /\ stopped w' = stopped w
  /\ map csv (ctx w') = map csv (ctx w)
  /\ map mssBytes (ctx w') = map mssBytes (ctx w).

(** The entries of the queue that are not passive, in queue order. *)
Definition active_events (q : list (Z * event)) : list (Z * event) :=
  List.filter (fun te => negb (passive (snd te))) q.

(** [P, 2P, ..., kP]. *)
Definition firing_times (P : Z) (k : nat) : list Z :=
  map (fun j => Z.of_nat j * P) (seq 1 k).

(** When [k] firings can have taken place before a stop at [T]: the
    first is queued ahead of the stop and wins a tie, the later ones are
    queued behind it and lose. *)
Definition fired_ok (P T : Z) (k : nat) : Prop :=
  k = 0%nat \/ (k = 1%nat /\ P <= T) \/ ((2 <= k)%nat /\ Z.of_nat k * P < T).

(** The number of firings of a sampler of period [P] in a run stopped at
    [T]: one for each multiple of [P] below [T], and one when [P] is [T]
    itself. *)
Definition firings (P T : Z) : nat :=
  if Z.eqb P T then 1%nat else Z.to_nat ((T - 1) / P).

(** The state of the run after [k] firings of a sampler of period [P]
    (argument [dt]) that is stopped at [T]. *)
Definition sampler_inv (P T : Z) (dt : double) (k : nat) (w : World) : Prop :=
  stopped w = false
  /\ active_events (queue w) =
       match k with
       | O => [(P, CallDoSample dt); (T, CallStop)]
       | S _ => [(T, CallStop); (Z.of_nat (S k) * P, CallDoSample dt)]
       end
  /\ (forall i c, ctx w !! i = Some c ->
        is_open (csv c) = true /\ sample_times c = firing_times P k)
  /\ fired_ok P T k.

(** The state once the stop has been run. *)
Definition sampler_done (P T : Z) (k : nat) (w : World) : Prop :=
  stopped w = true
  /\ (forall i c, ctx w !! i = Some c ->
        is_open (csv c) = true /\ sample_times c = firing_times P k)
  /\ fired_ok P T k
  /\ match k with
     | O => T < P
     | S _ => T <= Z.of_nat (S k) * P
     end.

(** The call that [main] schedules for flow [j] at [Seconds(0.11)]. *)
Definition hook_call (Seconds : double -> Z) (j : nat) : Z * event :=
  (Seconds d0_11, CallHookSenderTraces (senderId j) j).

(** The sink of flow [i] holds the header line and, after it, rows only. *)
Definition sink_shape (i : nat) (c : FlowCtx) : Prop :=
  path (csv c) = csv_name i
  /\ exists rows, written (csv c) = Text header :: map Sample rows.

Definition sinks_ok (n : nat) (cs : list FlowCtx) : Prop :=
  forall i, (i < n)%nat -> exists c, cs !! i = Some c /\ sink_shape i c.

(** Whether dispatching [ev] in [w] runs [CwndTrace] on the context of
    flow [i]: a congestion-window change of a socket to which the hook
    of flow [i] is attached. *)
Definition observes_cwnd (i : nat) (ev : event) (w : World) : bool :=
  match ev with
  | Engine (CongestionWindow sock _ _) =>
      existsb (fun sc => Nat.eqb (fst sc) sock && Nat.eqb (snd sc) i)
              (cwndSinks w)
  | _ => false
  end.

(** Flow contexts that no congestion-window observation has reached:
    [lastCwndBytes] is the 1500.0 of the member initialiser, [mssBytes]
    is the MSS parameter, and every row written so far reports their
    quotient. *)
Definition unobserved (mss : Z) (c : FlowCtx) : Prop :=
  lastCwndBytes c = Double.d1500
  /\ mssBytes c = Double.of_Z mss
  /\ forall r, In (Sample r) (written (csv c)) ->
       r_cwndPkts r = to_packets Double.d1500 (Double.of_Z mss).

(** Classes of [double] values: finite and not negative; greater than
    zero (infinity included); not negative and not a NaN. *)
Definition finite_nonneg (x : double) : bool :=
  match x with
  | S754_zero _ | S754_finite false _ _ => true
  | _ => false
  end.

Definition positive_double (x : double) : bool :=
  match x with
  | S754_finite false _ _ | S754_infinity false => true
  | _ => false
  end.

Definition nonneg_double (x : double) : bool :=
  match x with
  | S754_zero _ | S754_finite false _ _ | S754_infinity false => true
  | _ => false
  end.

(** A world to evaluate the sampler in: two flows set up with the
    default parameters, 3 packets in the queue of flow 0 and 5 in that
    of flow 1, and 3000 bytes received by flow 1. *)
Definition example_world : World :=
  engine_step (PacketReceived 1 3000)
    (engine_step (QueueLength 1 5)
       (engine_step (QueueLength 0 3)
          (world_at_run SecondsNs
             (fst (main_setup string full_registry (fun _ => true) SecondsNs
                     "Reno,Cubic" 1500))
             d0_1 20 []))).

(** The receive counters hold [uint64_t] values. *)
Definition rx_wf (w : World) : Prop :=
  forall i, is_uint64 (map_at (gRxBytes w) i)
            /\ is_uint64 (map_at (gRxBytesPrev w) i).

(** Every row written so far reports a throughput that is a number and
    not negative. *)
Definition rows_nonneg (w : World) : Prop :=
  forall i c r, ctx w !! i = Some c -> In (Sample r) (written (csv c)) ->
    nonneg_double (r_thrMbps r) = true.

(** ** Further notions: tokens, packet bursts, subnets *)

(** Whether the character [d] occurs in [s]. *)
Fixpoint has_char (d : ascii) (s : string) : bool :=
  match s with
  | EmptyString => false
  | String c rest => Ascii.eqb c d || has_char d rest
  end.

(** The tokens [ts] written as one parameter, separated by [d]. *)
Fixpoint join (d : ascii) (ts : list string) : string :=
  match ts with
  | [] => EmptyString
  | [t] => t
  | t :: ts' => t +:+ String d (join d ts')
  end.

(** A token as [Split] returns them: not empty, and free of the
    delimiter. *)
Definition token_ok (d : ascii) (t : string) : Prop :=
  t <> EmptyString /\ has_char d t = false.

(** [RxTrace] called once for each packet of a burst received by the
    sink of flow [idx], in order. *)
Definition RxTrace_burst (idx : nat) (sizes : list Z) (w : World) : World :=
  fold_left (fun w size => RxTrace idx size w) sizes w.

(** The worlds [w] and [w'] agree on everything but the flow contexts. *)
Definition same_but_ctx (w w' : World) : Prop :=
  gRxBytes w' = gRxBytes w /\ gRxBytesPrev w' = gRxBytesPrev w
  /\ gQdiscs w' = gQdiscs w /\ now w' = now w /\ queue w' = queue w
  /\ stopped w' = stopped w /\ sockets w' = sockets w
  /\ cwndSinks w' = cwndSinks w /\ inflightSinks w' = inflightSinks w
  /\ nPackets w' = nPackets w.

(** Whether the congestion-window hook of flow [c] is attached to the
    socket [sock]. *)
Definition hooked (sock c : nat) (w : World) : bool :=
  existsb (fun sc => Nat.eqb (fst sc) sock && Nat.eqb (snd sc) c) (cwndSinks w).

(** The warnings that resolving the algorithm of flow [j] sends to the
    log. *)
Definition flow_warnings {TypeId : Type} (lookup : string -> option TypeId)
    (algos : list string) (j : nat) : list diag :=
  match algo_for algos j with
  | Returns a => fst (ResolveTcpTypeId lookup a [])
  | _ => []
  end.

(** The socket type that the set-up configures on the sender of flow
    [j]: the handle resolved for the flow's algorithm. *)
Definition flow_type_ok {TypeId : Type} (lookup : string -> option TypeId)
    (algos : list string) (j : nat) (p : nat * TypeId) : Prop :=
  fst p = senderId j
  /\ exists a, algo_for algos j = Returns a
               /\ snd (ResolveTcpTypeId lookup a []) = Returns (snd p).

(** The state of a run in which the sampler, due at [P], has not fired
    yet while the hook calls are all due at [H]: no hook is attached,
    and every flow still has the values the set-up gave it and a sink
    that holds the header only. *)
Definition before_first_row (P H mss : Z) (w : World) : Prop :=
  (exists dt, In (P, CallDoSample dt) (queue w))
  /\ (forall t sid c, In (t, CallHookSenderTraces sid c) (queue w) -> t = H)
  /\ cwndSinks w = [] /\ inflightSinks w = []
  /\ forall i c, ctx w !! i = Some c ->
       is_open (csv c) = true /\ written (csv c) = [Text header]
       /\ lastCwndBytes c = Double.d1500 /\ inflightBytes c = Double.zero
       /\ mssBytes c = Double.of_Z mss.

(** The first row of the sink reports the values of the set-up. *)
Definition first_row_initial (mss : Z) (c : FlowCtx) : Prop :=
  exists r rest,
    written (csv c) = Text header :: Sample r :: rest
    /\ r_cwndPkts r = to_packets Double.d1500 (Double.of_Z mss)
    /\ r_inflPkts r = to_packets Double.zero (Double.of_Z mss).

Definition first_row_inv (P H mss : Z) (w : World) : Prop :=
  before_first_row P H mss w
  \/ forall i c, ctx w !! i = Some c -> first_row_initial mss c.

(** ** Addresses and ports of the flows *)

(** [net1 << "10.1." << (i+1) << ".0"] and [net2 << "10.2." << (i+1) << ".0"],
    the bases of the subnets of flow [i] on the sender and on the
    receiver side; [i] is a [uint32_t]. *)
Definition net1 (i : nat) : string :=
  "10.1." +:+ pretty (wrap32 (Z.of_nat i + 1)) +:+ ".0".
Definition net2 (i : nat) : string :=
  "10.2." +:+ pretty (wrap32 (Z.of_nat i + 1)) +:+ ".0".

(** [ports[i] = 5000 + i], an unsigned sum stored in a [uint16_t]. *)
Definition wrap16 (z : Z) : Z := z mod 2 ^ 16.
Definition port (i : nat) : Z := wrap16 (wrap32 (5000 + Z.of_nat i)).

(** * Properties *)

(** ** Fixed-width arithmetic *)

Lemma wrap32_range z : is_uint32 (wrap32 z).
Proof. unfold is_uint32, wrap32. apply Z.mod_pos_bound. lia. Qed.

Lemma wrap64_range z : is_uint64 (wrap64 z).
Proof. unfold is_uint64, wrap64. apply Z.mod_pos_bound. lia. Qed.

Lemma wrap32_small z : is_uint32 z -> wrap32 z = z.
Proof. unfold is_uint32, wrap32. intros H. apply Z.mod_small. lia. Qed.

Lemma wrap64_small z : is_uint64 z -> wrap64 z = z.
Proof. unfold is_uint64, wrap64. intros H. apply Z.mod_small. lia. Qed.

(** ** The resolver *)

Section ResolverFacts.

Context {TypeId : Type} (lookup : string -> option TypeId).

Lemma ns3NameOf_unrecognized algo :
  recognized algo = false -> ns3NameOf algo = "ns3::TcpNewReno".
Proof.
  unfold recognized, ns3NameOf. intros H.
  destruct (String.eqb algo "Reno"); [reflexivity|].
  destruct (String.eqb algo "Cubic"); [discriminate|].
  destruct (String.eqb algo "BBR"); [discriminate|reflexivity].
Qed.

Lemma ns3NameOf_Reno : ns3NameOf "Reno" = "ns3::TcpNewReno".
Proof. reflexivity. Qed.

(** Which of the three engine names a call looks up first. *)
Lemma ns3NameOf_cases algo :
  (ns3NameOf algo = "ns3::TcpNewReno" /\ algo <> "Cubic" /\ algo <> "BBR")
  \/ (ns3NameOf algo = "ns3::TcpCubic" /\ algo = "Cubic")
  \/ (ns3NameOf algo = "ns3::TcpBbr" /\ algo = "BBR").
Proof.
  unfold ns3NameOf.
  destruct (String.eqb_spec algo "Reno") as [->|HR].
  { left. repeat split; discriminate. }
  destruct (String.eqb_spec algo "Cubic") as [->|HC].
  { right; left. split; reflexivity. }
  destruct (String.eqb_spec algo "BBR") as [->|HB].
  { right; right. split; reflexivity. }
  left. repeat split; assumption.
Qed.

(** A call whose first lookup succeeds returns that handle and logs
    nothing. *)
Lemma Resolve_first_hit algo log tid :
  lookup (ns3NameOf algo) = Some tid ->
  ResolveTcpTypeId lookup algo log = (log, Returns tid).
Proof. intros H. unfold ResolveTcpTypeId. rewrite H. reflexivity. Qed.

(** A call for the default engine name never logs and never retries. *)
Lemma Resolve_default_miss algo log :
  ns3NameOf algo = "ns3::TcpNewReno" ->
  lookup "ns3::TcpNewReno" = None ->
  ResolveTcpTypeId lookup algo log = (log, Fatal (fatal_msg "ns3::TcpNewReno")).
Proof.
  intros Hn H. unfold ResolveTcpTypeId. rewrite Hn, H. reflexivity.
Qed.

(** A call for another engine name that is missing warns and retries. *)
Lemma Resolve_other_miss algo log :
  ns3NameOf algo <> "ns3::TcpNewReno" ->
  lookup (ns3NameOf algo) = None ->
  ResolveTcpTypeId lookup algo log =
    (log ++ [LogWarn (warn_msg (ns3NameOf algo))],
     match lookup "ns3::TcpNewReno" with
     | Some tid => Returns tid
     | None => Fatal (fatal_msg (ns3NameOf algo))
     end).
Proof.
  intros Hn H. unfold ResolveTcpTypeId. rewrite H.
  destruct (String.eqb_spec (ns3NameOf algo) "ns3::TcpNewReno") as [E|_];
    [contradiction|]. simpl.
  destruct (lookup "ns3::TcpNewReno"); reflexivity.
Qed.

(** The way a call ends does not depend on what has been logged before. *)
Lemma Resolve_outcome_log algo log log' :
  snd (ResolveTcpTypeId lookup algo log) = snd (ResolveTcpTypeId lookup algo log').
Proof.
  unfold ResolveTcpTypeId.
  destruct (lookup (ns3NameOf algo)); [reflexivity|].
  destruct (negb _); [|reflexivity].
  destruct (lookup "ns3::TcpNewReno"); reflexivity.
Qed.

Lemma Resolve_not_undefined algo log :
  snd (ResolveTcpTypeId lookup algo log) <> Undefined.
Proof.
  unfold ResolveTcpTypeId.
  destruct (lookup (ns3NameOf algo)); [discriminate|].
  destruct (negb _); [|discriminate].
  destruct (lookup "ns3::TcpNewReno"); discriminate.
Qed.

End ResolverFacts.

(** C2, as amended: an algorithm name outside the recognized set is
    resolved to the default (Reno-equivalent) handle whenever the engine
    has that implementation, and the call then logs nothing at all: the
    log is left as it was.  When the engine cannot resolve the default
    implementation the call aborts with the message "Could not resolve
    TCP TypeId for ns3::TcpNewReno or fallback TcpNewReno". *)
Theorem C2_unrecognized_name_silent_default
    (TypeId : Type) (lookup : string -> option TypeId)
    (algo : string) (log : list diag) :
  recognized algo = false ->
  (forall tid, lookup "ns3::TcpNewReno" = Some tid ->
     ResolveTcpTypeId lookup algo log = (log, Returns tid))
  /\ (lookup "ns3::TcpNewReno" = None ->
      ResolveTcpTypeId lookup algo log =
        (log, Fatal "Could not resolve TCP TypeId for ns3::TcpNewReno or fallback TcpNewReno")).
Proof.
  intros Hu. pose proof (ns3NameOf_unrecognized algo Hu) as Hn. split.
  - intros tid H. apply Resolve_first_hit. rewrite Hn. exact H.
  - intros H. apply (Resolve_default_miss lookup algo log Hn H).
Qed.

Lemma C2_unrecognized_name_silent_default_witness :
  recognized "Foo" = false
  /\ ResolveTcpTypeId full_registry "Foo" [] = ([], Returns "ns3::TcpNewReno")
  /\ ResolveTcpTypeId (registry_without ["ns3::TcpNewReno"]) "Foo" [] =
       ([], Fatal "Could not resolve TCP TypeId for ns3::TcpNewReno or fallback TcpNewReno").
Proof.
  split; [reflexivity|]. split.
  - apply (C2_unrecognized_name_silent_default string full_registry "Foo" []);
      reflexivity.
  - apply (C2_unrecognized_name_silent_default string
             (registry_without ["ns3::TcpNewReno"]) "Foo" []); reflexivity.
Defined.

(** C2, as stated, fails: resolving the unrecognized name "Foo" on an
    engine that has every implementation returns the default handle but
    emits no diagnostic, warning-level or other. *)
Lemma C2_counterexample :
  recognized "Foo" = false
  /\ snd (ResolveTcpTypeId full_registry "Foo" []) = Returns "ns3::TcpNewReno"
  /\ ~ (exists msg, In (LogWarn msg) (fst (ResolveTcpTypeId full_registry "Foo" []))).
Proof.
  split; [reflexivity|]. split; [reflexivity|].
  intros [msg H]. vm_compute in H. exact H.
Qed.

(** C4: a name outside the recognized set {Reno, Cubic, BBR} resolves to
    exactly what the name Reno resolves to (same handle, or the same
    abort when the engine lacks the default), whatever the engine's
    registry holds; and resolving a name a second time, after the first
    call has written to the log, ends the same way with the same
    handle. *)
Theorem C4_fallback_law_and_determinism
    (TypeId : Type) (lookup : string -> option TypeId)
    (algo : string) (log : list diag) :
  (recognized algo = false ->
     ResolveTcpTypeId lookup algo log = ResolveTcpTypeId lookup "Reno" log)
  /\ snd (ResolveTcpTypeId lookup algo (fst (ResolveTcpTypeId lookup algo log)))
     = snd (ResolveTcpTypeId lookup algo log).
Proof.
  split.
  - intros Hu. unfold ResolveTcpTypeId.
    rewrite (ns3NameOf_unrecognized algo Hu), ns3NameOf_Reno. reflexivity.
  - apply Resolve_outcome_log.
Qed.

Lemma C4_fallback_law_and_determinism_witness :
  recognized "Vegas" = false
  /\ ResolveTcpTypeId full_registry "Vegas" [] = ResolveTcpTypeId full_registry "Reno" []
  /\ snd (ResolveTcpTypeId full_registry "Vegas"
            (fst (ResolveTcpTypeId full_registry "Vegas" [])))
     = snd (ResolveTcpTypeId full_registry "Vegas" []).
Proof.
  split; [reflexivity|].
  destruct (C4_fallback_law_and_determinism string full_registry "Vegas" [])
    as [H1 H2].
  split; [apply H1; reflexivity | exact H2].
Defined.

(** C10: when the engine lacks the implementation of a recognized
    non-default name (Cubic or BBR), resolution does not abort at once:
    it logs one warning and looks the default up; it returns the default
    handle when that lookup succeeds and aborts only when it fails too.
    For a name that maps to the default itself (Reno or any unrecognized
    name) a failed lookup aborts directly, with nothing logged. *)
Theorem C10_retry_only_for_non_default
    (TypeId : Type) (lookup : string -> option TypeId)
    (algo : string) (log : list diag) :
  (algo = "Cubic" \/ algo = "BBR" ->
   lookup (ns3NameOf algo) = None ->
     (forall tid, lookup "ns3::TcpNewReno" = Some tid ->
        ResolveTcpTypeId lookup algo log =
          (log ++ [LogWarn (warn_msg (ns3NameOf algo))], Returns tid))
     /\ (lookup "ns3::TcpNewReno" = None ->
         ResolveTcpTypeId lookup algo log =
           (log ++ [LogWarn (warn_msg (ns3NameOf algo))],
            Fatal (fatal_msg (ns3NameOf algo)))))
  /\ (algo <> "Cubic" -> algo <> "BBR" ->
      lookup "ns3::TcpNewReno" = None ->
        ResolveTcpTypeId lookup algo log =
          (log, Fatal (fatal_msg "ns3::TcpNewReno"))).
Proof.
  split.
  - intros Hrec Hmiss.
    assert (Hn : ns3NameOf algo <> "ns3::TcpNewReno")
      by (destruct Hrec as [-> | ->]; discriminate).
    pose proof (Resolve_other_miss lookup algo log Hn Hmiss) as E.
    split.
    + intros tid Hd. rewrite E, Hd. reflexivity.
    + intros Hd. rewrite E, Hd. reflexivity.
  - intros HC HB Hd.
    destruct (ns3NameOf_cases algo) as [[Hn _] | [[_ E] | [_ E]]];
      [|contradiction..].
    apply (Resolve_default_miss lookup algo log Hn Hd).
Qed.

Lemma C10_retry_only_for_non_default_witness :
  ResolveTcpTypeId (registry_without ["ns3::TcpBbr"]) "BBR" [] =
    ([LogWarn "ns3::TcpBbr not available; falling back to ns3::TcpNewReno."],
     Returns "ns3::TcpNewReno")
  /\ ResolveTcpTypeId (registry_without ["ns3::TcpCubic"; "ns3::TcpNewReno"]) "Cubic" [] =
    ([LogWarn "ns3::TcpCubic not available; falling back to ns3::TcpNewReno."],
     Fatal "Could not resolve TCP TypeId for ns3::TcpCubic or fallback TcpNewReno")
  /\ ResolveTcpTypeId (registry_without ["ns3::TcpNewReno"]) "Reno" [] =
    ([], Fatal "Could not resolve TCP TypeId for ns3::TcpNewReno or fallback TcpNewReno").
Proof.
  split; [|split].
  - destruct (C10_retry_only_for_non_default string
                (registry_without ["ns3::TcpBbr"]) "BBR" []) as [H _].
    destruct H as [H _]; [right; reflexivity | reflexivity |].
    apply (H "ns3::TcpNewReno"). reflexivity.
  - destruct (C10_retry_only_for_non_default string
                (registry_without ["ns3::TcpCubic"; "ns3::TcpNewReno"]) "Cubic" [])
      as [H _].
    destruct H as [_ H]; [left; reflexivity | reflexivity |].
    apply H. reflexivity.
  - destruct (C10_retry_only_for_non_default string
                (registry_without ["ns3::TcpNewReno"]) "Reno" []) as [_ H].
    apply H; [discriminate | discriminate | reflexivity].
Defined.

(** ** Splitting the flow list *)

Lemma getline_rest_length c r d :
  (String.length (snd (getline (String c r) d)) <= String.length r)%nat.
Proof.
  revert c. induction r as [|c' r IH]; intros c; simpl.
  - destruct (Ascii.eqb c d); simpl; lia.
  - destruct (Ascii.eqb c d); simpl; [lia|].
    specialize (IH c'). simpl in IH.
    destruct (Ascii.eqb c' d); simpl in *; [lia|].
    destruct (getline r d) as [x rest']. simpl in *. lia.
Qed.

(** The token that [getline] reads is the first field, and the fields
    after it are those of what [getline] leaves, up to empty ones. *)
Lemma getline_fields s d :
  exists tl, fields s d = fst (getline s d) :: tl
             /\ List.filter nonempty tl
                = List.filter nonempty (fields (snd (getline s d)) d).
Proof.
  induction s as [|c s IH]; simpl.
  - exists []. split; reflexivity.
  - destruct (Ascii.eqb c d); simpl.
    + exists (fields s d). split; reflexivity.
    + destruct IH as (tl & E & F). rewrite E.
      destruct (getline s d) as [x rest']. simpl in *.
      exists tl. split; [reflexivity | exact F].
Qed.

Lemma Split_loop_fields d fuel : forall s out,
  (String.length s < fuel)%nat ->
  Split_loop fuel s d out = out ++ List.filter nonempty (fields s d).
Proof.
  induction fuel as [|fuel IH]; intros s out Hlen; [lia|].
  destruct s as [|c r].
  - simpl. rewrite app_nil_r. reflexivity.
  - cbn [Split_loop].
    pose proof (getline_rest_length c r d) as Hr.
    destruct (getline_fields (String c r) d) as (tl & E & F).
    destruct (getline (String c r) d) as [x rest] eqn:G.
    cbn [fst snd] in Hr, E, F. rewrite E. cbn [List.filter].
    rewrite IH by (simpl in Hlen; lia).
    rewrite F. unfold nonempty at 2.
    destruct (empty x); simpl; [reflexivity|].
    rewrite <- app_assoc. reflexivity.
Qed.

(** [Split] keeps exactly the non-empty fields, in order. *)
Lemma Split_fields s d : Split s d = List.filter nonempty (fields s d).
Proof. unfold Split. rewrite Split_loop_fields by lia. reflexivity. Qed.

(** More rounds than [S (length s)] change nothing: the loop of [Split]
    has ended by then. *)
Lemma Split_loop_enough s d fuel :
  (String.length s < fuel)%nat -> Split_loop fuel s d [] = Split s d.
Proof.
  intros H. unfold Split. rewrite !Split_loop_fields by lia. reflexivity.
Qed.

Lemma Split_tokens_nonempty s d x : In x (Split s d) -> x <> EmptyString.
Proof.
  rewrite Split_fields. intros H. apply filter_In in H as [_ H].
  destruct x; [discriminate | intros E; discriminate E].
Qed.

(** ** The algorithm of a flow *)

Lemma algo_for_nonempty algos i :
  algos <> [] -> exists a, algo_for algos i = Returns a /\ In a algos.
Proof.
  intros Hne. unfold algo_for.
  destruct (Z.ltb_spec (Z.of_nat i) (Z.of_nat (length algos))) as [Hlt|Hge].
  - destruct (algos !! i) as [a|] eqn:E.
    + exists a. split; [reflexivity|].
      apply list_elem_of_In. apply list_elem_of_lookup. eauto.
    + apply lookup_ge_None in E. lia.
  - destruct (last algos) as [a|] eqn:E.
    + exists a. split; [reflexivity|].
      apply list_elem_of_In. apply last_Some_elem_of. exact E.
    + apply last_None in E. contradiction.
Qed.

Lemma algo_for_in_range algos i :
  (i < length algos)%nat ->
  exists a, algos !! i = Some a /\ algo_for algos i = Returns a.
Proof.
  intros Hlt. unfold algo_for.
  destruct (Z.ltb_spec (Z.of_nat i) (Z.of_nat (length algos))) as [_|Hge]; [|lia].
  destruct (algos !! i) as [a|] eqn:E.
  - exists a. split; reflexivity.
  - apply lookup_ge_None in E. lia.
Qed.

Lemma flow_count_small algos :
  Z.of_nat (length algos) < 2 ^ 32 ->
  flow_count algos = Z.max (Z.of_nat (length algos)) 1.
Proof.
  intros H. unfold flow_count. rewrite wrap32_small; [reflexivity|].
  unfold is_uint32. lia.
Qed.

Section SetupNoToken.

Context {TypeId : Type} (lookup : string -> option TypeId)
        (open_ok : string -> bool) (Seconds : double -> Z).

Lemma main_setup_no_token flows mss :
  Split flows "," = [] ->
  snd (main_setup TypeId lookup open_ok Seconds flows mss) = Undefined.
Proof. intros E. unfold main_setup. rewrite E. reflexivity. Qed.

End SetupNoToken.

(** C9: [Split] keeps the non-empty fields of the flows parameter and
    drops the empty ones; the flow count is the number of tokens
    (reduced to 32 bits) or 1, whichever is larger, hence
    max(number of tokens, 1) for any list shorter than 2^32.  With at
    least one token every flow's algorithm lookup stays inside the token
    list, and for a flow index below the flow count it is the token at
    that index.  With no token (empty string, only commas) one flow is
    still created, and its assignment takes the last element of an empty
    list: the lookup has no defined result and neither has the set-up. *)
Theorem C9_split_count_and_lookup (flows : string) :
  let algos := Split flows "," in
  algos = List.filter nonempty (fields flows ",")
  /\ flow_count algos = Z.max (Z.of_nat (length algos) mod 2 ^ 32) 1
  /\ (Z.of_nat (length algos) < 2 ^ 32 ->
      flow_count algos = Z.max (Z.of_nat (length algos)) 1)
  /\ (algos <> [] ->
      (forall i, exists a, algo_for algos i = Returns a /\ In a algos)
      /\ (Z.of_nat (length algos) < 2 ^ 32 ->
          forall i, Z.of_nat i < flow_count algos ->
            exists a, algos !! i = Some a /\ algo_for algos i = Returns a))
  /\ (algos = [] ->
      flow_count algos = 1
      /\ algo_for algos 0 = Undefined
      /\ forall (TypeId : Type) (lookup : string -> option TypeId)
                (open_ok : string -> bool) (Seconds : double -> Z) (mss : Z),
           snd (main_setup TypeId lookup open_ok Seconds flows mss) = Undefined).
Proof.
  intros algos. split; [apply Split_fields|].
  split; [reflexivity|].
  split; [apply flow_count_small|].
  split.
  - intros Hne. split; [intros i; apply algo_for_nonempty; exact Hne|].
    intros Hsmall i Hi. apply algo_for_in_range.
    rewrite flow_count_small in Hi by exact Hsmall.
    destruct algos; [contradiction|]. simpl length in *. lia.
  - intros E. rewrite E. split; [reflexivity|]. split; [reflexivity|].
    intros. apply main_setup_no_token. exact E.
Qed.

Lemma C9_split_count_and_lookup_witness :
  Split "Reno,,Cubic," "," = ["Reno"; "Cubic"]
  /\ flow_count (Split "Reno,,Cubic," ",") = 2
  /\ algo_for (Split "Reno,,Cubic," ",") 1 = Returns "Cubic"
  /\ flow_count (Split ",," ",") = 1
  /\ algo_for (Split ",," ",") 0 = Undefined
  /\ snd (main_setup string full_registry (fun _ => true) SecondsNs ",," 1500)
     = Undefined.
Proof.
  pose proof (C9_split_count_and_lookup "Reno,,Cubic,") as (H1 & _ & H3 & H4 & _).
  pose proof (C9_split_count_and_lookup ",,") as (_ & _ & _ & _ & H5).
  split; [rewrite H1; reflexivity|].
  split; [rewrite H3; [reflexivity | vm_compute; reflexivity]|].
  split.
  - destruct H4 as [_ H4]; [discriminate|].
    destruct (H4 ltac:(vm_compute; reflexivity) 1%nat ltac:(vm_compute; reflexivity))
      as (a & Ha & ->).
    vm_compute in Ha. congruence.
  - destruct H5 as (Hc & Hu & Hm); [reflexivity|].
    split; [exact Hc|]. split; [exact Hu|]. apply Hm.
Defined.

(** ** Set-up of the flow contexts *)

Lemma string_length_app (s t : string) :
  String.length (s +:+ t) = (String.length s + String.length t)%nat.
Proof. induction s as [|c s IH]; simpl; [reflexivity | rewrite IH; reflexivity]. Qed.

Lemma app_suffix_inj (s1 s2 t : string) : s1 +:+ t = s2 +:+ t -> s1 = s2.
Proof.
  revert s2. induction s1 as [|c s1 IH]; intros [|c2 s2] H.
  - reflexivity.
  - exfalso. apply (f_equal String.length) in H.
    rewrite !string_length_app in H. simpl in H. lia.
  - exfalso. apply (f_equal String.length) in H.
    rewrite !string_length_app in H. simpl in H. lia.
  - simpl in H. injection H as -> H. f_equal. apply IH. exact H.
Qed.

(** Distinct flows write to distinct files. *)
Lemma csv_name_inj i j : csv_name i = csv_name j -> i = j.
Proof.
  unfold csv_name. intros H.
  apply (String.app_inj "trace_flow") in H.
  apply app_suffix_inj in H.
  apply (inj pretty) in H. exact H.
Qed.

Section SetupFacts.

Context {TypeId : Type} (lookup : string -> option TypeId)
        (open_ok : string -> bool) (Seconds : double -> Z).

Local Abbreviation flow_round := (setup_flow TypeId lookup open_ok Seconds).
Local Abbreviation flow_rounds := (setup_loop TypeId lookup open_ok Seconds).
Local Abbreviation the_setup := (main_setup TypeId lookup open_ok Seconds).

(** A round of the loop that goes through. *)
Lemma setup_flow_returns algos mss i st st' u :
  flow_round algos mss i st = (st', Returns u) ->
  exists a tid,
    algo_for algos i = Returns a
    /\ snd (ResolveTcpTypeId lookup a (s_log st)) = Returns tid
    /\ open_ok (csv_name i) = true
    /\ s_ctx st' = alter (configured a mss i) i (s_ctx st)
    /\ s_socketType st' = s_socketType st ++ [(senderId i, tid)]
    /\ s_scheduled st' = s_scheduled st
                         ++ [(Seconds d0_11, CallHookSenderTraces (senderId i) i)].
Proof.
  unfold setup_flow. intros H.
  destruct (algo_for algos i) as [a| |]; [|discriminate..].
  destruct (ResolveTcpTypeId lookup a (s_log st)) as [log [tid| |]] eqn:R;
    [|discriminate..].
  destruct (open_ok (csv_name i)) eqn:O; [|discriminate].
  injection H as <- _. exists a, tid. cbn [s_ctx s_socketType s_scheduled snd].
  split; [reflexivity|]. split; [rewrite R; reflexivity|].
  split; [reflexivity|]. split; [|split; reflexivity].
  rewrite list_alter_alter_eq. reflexivity.
Qed.

(** A round whose file cannot be opened aborts, whatever came before. *)
Lemma setup_flow_open_fails algos mss i st a tid :
  algo_for algos i = Returns a ->
  snd (ResolveTcpTypeId lookup a (s_log st)) = Returns tid ->
  open_ok (csv_name i) = false ->
  snd (flow_round algos mss i st) = Fatal (open_failed_msg i).
Proof.
  unfold setup_flow. intros -> R O.
  destruct (ResolveTcpTypeId lookup a (s_log st)) as [log r]. simpl in R.
  subst r. rewrite O. reflexivity.
Qed.

(** What a completed loop over the flows [i .. i+k-1] has done. *)
Lemma setup_loop_returns algos mss k : forall i st st',
  flow_rounds k algos mss i st = (st', Returns tt) ->
  length (s_ctx st') = length (s_ctx st)
  /\ (forall j, (j < i \/ i + k <= j)%nat -> s_ctx st' !! j = s_ctx st !! j)
  /\ (forall j c, (i <= j < i + k)%nat -> s_ctx st !! j = Some c ->
        open_ok (csv_name j) = true
        /\ exists a, algo_for algos j = Returns a
                     /\ s_ctx st' !! j = Some (configured a mss j c))
  /\ (forall j, (i <= j < i + k)%nat -> open_ok (csv_name j) = true)
  /\ s_scheduled st' =
       s_scheduled st
       ++ map (fun j => (Seconds d0_11, CallHookSenderTraces (senderId j) j))
              (seq i k).
Proof.
  induction k as [|k IH]; intros i st st' H.
  - injection H as <-. repeat split; try reflexivity; try lia.
    simpl. rewrite app_nil_r. reflexivity.
  - cbn [setup_loop] in H.
    destruct (flow_round algos mss i st) as [st1 [u| |]] eqn:F;
      [|discriminate..].
    apply setup_flow_returns in F as (a & tid & Ha & _ & Ho & Hc & _ & Hs).
    apply IH in H as (Hlen & Hout & Hin & Hopen & Hsched).
    rewrite Hc in Hlen, Hout, Hin. rewrite length_alter in Hlen.
    split; [exact Hlen|]. split; [|split; [|split]].
    + intros j Hj. rewrite Hout by lia. apply list_lookup_alter_ne. lia.
    + intros j c Hj Hjc. destruct (decide (j = i)) as [->|Hne].
      * split; [exact Ho|]. exists a. split; [exact Ha|].
        rewrite Hout by lia. rewrite list_lookup_alter_eq, Hjc. reflexivity.
      * apply Hin; [lia|]. rewrite list_lookup_alter_ne by lia. exact Hjc.
    + intros j Hj. destruct (decide (j = i)) as [->|Hne]; [exact Ho|].
      apply Hopen. lia.
    + rewrite Hsched, Hs. rewrite <- app_assoc. reflexivity.
Qed.

End SetupFacts.

(** ** The event queue *)

Lemma earliest_None q : earliest q = None -> q = [].
Proof.
  destruct q as [|[t e] q]; [reflexivity|]. simpl.
  destruct (earliest q); discriminate.
Qed.

Lemma earliest_spec q t :
  earliest q = Some t ->
  (exists e, In (t, e) q) /\ (forall x, In x q -> t <= fst x).
Proof.
  revert t. induction q as [|[t0 e0] q IH]; intros t H; [discriminate|].
  simpl in H. destruct (earliest q) as [t'|] eqn:E.
  - injection H as <-. destruct (IH t' eq_refl) as [[e He] Hmin].
    split.
    + destruct (Z.min_spec t0 t') as [[_ ->]|[_ ->]].
      * exists e0. left. reflexivity.
      * exists e. right. exact He.
    + intros x [<-|Hx]; simpl; [lia|]. specialize (Hmin x Hx). lia.
  - injection H as <-. apply earliest_None in E. subst q. split.
    + exists e0. left. reflexivity.
    + intros x [<-|[]]. simpl. lia.
Qed.

Lemma take_first_at_spec t q e r :
  take_first_at t q = Some (e, r) ->
  exists q1 q2, q = q1 ++ (t, e) :: q2 /\ r = q1 ++ q2
                /\ forall x, In x q1 -> fst x <> t.
Proof.
  revert r. induction q as [|[t0 e0] q IH]; intros r H; [discriminate|].
  simpl in H. destruct (Z.eqb_spec t0 t) as [->|Hne].
  - injection H as <- <-. exists [], q. repeat split. intros x [].
  - destruct (take_first_at t q) as [[e' r']|]; [|discriminate].
    injection H as <- <-. destruct (IH r' eq_refl) as (q1 & q2 & -> & -> & Hq1).
    exists ((t0, e0) :: q1), q2. repeat split.
    intros x [<-|Hx]; [exact Hne | apply Hq1; exact Hx].
Qed.

Lemma take_first_at_In t q e :
  In (t, e) q -> exists e' r, take_first_at t q = Some (e', r).
Proof.
  induction q as [|[t0 e0] q IH]; intros H; [destruct H|].
  simpl. destruct (Z.eqb_spec t0 t) as [->|Hne]; [eauto|].
  destruct H as [H|H]; [congruence|].
  destruct (IH H) as (e' & r & ->). eauto.
Qed.

(** The event taken next is the first of those with the least time. *)
Lemma next_event_spec q t e r :
  next_event q = Some (t, e, r) ->
  exists q1 q2, q = q1 ++ (t, e) :: q2 /\ r = q1 ++ q2
                /\ (forall x, In x q1 -> t < fst x)
                /\ (forall x, In x q2 -> t <= fst x).
Proof.
  unfold next_event. intros H.
  destruct (earliest q) as [t'|] eqn:E; [|discriminate].
  destruct (take_first_at t' q) as [[e' r']|] eqn:F; [|discriminate].
  injection H as -> -> ->.
  destruct (earliest_spec q t E) as [_ Hmin].
  destruct (take_first_at_spec t q e r F) as (q1 & q2 & -> & -> & Hq1).
  exists q1, q2. repeat split.
  - intros x Hx. specialize (Hq1 x Hx).
    specialize (Hmin x ltac:(apply in_or_app; left; exact Hx)). lia.
  - intros x Hx. apply Hmin. apply in_or_app. right. right. exact Hx.
Qed.

Lemma next_event_nonempty q :
  q <> [] -> exists t e r, next_event q = Some (t, e, r).
Proof.
  intros Hne. unfold next_event.
  destruct (earliest q) as [t|] eqn:E.
  - destruct (earliest_spec q t E) as [[e He] _].
    destruct (take_first_at_In t q e He) as (e' & r & ->). eauto.
  - apply earliest_None in E. contradiction.
Qed.

Lemma next_event_length q t e r :
  next_event q = Some (t, e, r) -> length q = S (length r).
Proof.
  intros H. apply next_event_spec in H as (q1 & q2 & -> & -> & _).
  rewrite !length_app. simpl. lia.
Qed.

(** ** Running the engine *)

Section RunFacts.

Variable Seconds : double -> Z.

(** An invariant that every dispatched event preserves holds when the
    run ends. *)
Lemma run_invariant (P : World -> Prop) :
  (forall w t ev rest,
     P w -> stopped w = false -> next_event (queue w) = Some (t, ev, rest) ->
     P (dispatch Seconds ev (with_now t (with_queue rest w)))) ->
  forall fuel w w', P w -> run Seconds fuel w = Some w' -> P w'.
Proof.
  intros Hstep. induction fuel as [|fuel IH]; intros w w' HP H.
  - simpl in H. destruct (stopped w); [congruence|].
    destruct (next_event (queue w)) as [[[t ev] rest]|]; congruence.
  - simpl in H. destruct (stopped w) eqn:S; [congruence|].
    destruct (next_event (queue w)) as [[[t ev] rest]|] eqn:N; [|congruence].
    apply (IH _ _ (Hstep w t ev rest HP S N) H).
Qed.

End RunFacts.

(** ** One firing of the sampler *)

Lemma sample_row_ext sampleDt rp i c w w' :
  now w' = now w ->
  map_at (gRxBytes w') i = map_at (gRxBytes w) i ->
  map_at (gRxBytesPrev w') i = map_at (gRxBytesPrev w) i ->
  sample_row sampleDt rp i c w' = sample_row sampleDt rp i c w.
Proof. intros H1 H2 H3. unfold sample_row. rewrite H1, H2, H3. reflexivity. Qed.

Lemma map_at_insert (m : gmap nat Z) i j v :
  map_at (<[i := v]> m) j = if decide (i = j) then v else map_at m j.
Proof.
  unfold map_at. rewrite lookup_insert. destruct (decide (i = j)); reflexivity.
Qed.

Lemma sample_flow_ctx sampleDt rp i w :
  ctx (sample_flow sampleDt rp i w) = alter (sampled sampleDt rp w i) i (ctx w).
Proof.
  unfold sample_flow. destruct (ctx w !! i) as [c|] eqn:E; simpl.
  - symmetry. apply list_eq. intros j. destruct (decide (i = j)) as [<-|Hne].
    + rewrite list_lookup_alter_eq, E. simpl.
      rewrite list_lookup_insert_eq by (apply lookup_lt_Some in E; exact E).
      reflexivity.
    + rewrite list_lookup_alter_ne, list_lookup_insert_ne by exact Hne.
      reflexivity.
  - symmetry. apply list_eq. intros j. destruct (decide (i = j)) as [<-|Hne].
    + rewrite list_lookup_alter_eq, E. reflexivity.
    + rewrite list_lookup_alter_ne by exact Hne. reflexivity.
Qed.

Lemma sample_flow_frame sampleDt rp i w :
  let w' := sample_flow sampleDt rp i w in
  now w' = now w /\ queue w' = queue w /\ stopped w' = stopped w
  /\ gQdiscs w' = gQdiscs w /\ nPackets w' = nPackets w
  /\ sockets w' = sockets w /\ cwndSinks w' = cwndSinks w
  /\ inflightSinks w' = inflightSinks w.
Proof.
  unfold sample_flow. destruct (ctx w !! i); simpl; repeat split; reflexivity.
Qed.

Lemma sample_flow_gRxBytes sampleDt rp i w j :
  map_at (gRxBytes (sample_flow sampleDt rp i w)) j = map_at (gRxBytes w) j.
Proof.
  unfold sample_flow. destruct (ctx w !! i); simpl;
    rewrite map_at_insert; destruct (decide (i = j)); subst; reflexivity.
Qed.

Lemma sample_flow_gRxBytesPrev sampleDt rp i w j :
  map_at (gRxBytesPrev (sample_flow sampleDt rp i w)) j =
    if decide (i = j) then map_at (gRxBytes w) i else map_at (gRxBytesPrev w) j.
Proof.
  unfold sample_flow. destruct (ctx w !! i); simpl; apply map_at_insert.
Qed.

Lemma sample_loop_frame sampleDt rp k : forall i w,
  let w' := sample_loop k sampleDt rp i w in
  now w' = now w /\ queue w' = queue w /\ stopped w' = stopped w
  /\ gQdiscs w' = gQdiscs w /\ nPackets w' = nPackets w
  /\ sockets w' = sockets w /\ cwndSinks w' = cwndSinks w
  /\ inflightSinks w' = inflightSinks w.
Proof.
  induction k as [|k IH]; intros i w; simpl.
  - repeat split; reflexivity.
  - destruct (IH (S i) (sample_flow sampleDt rp i w))
      as (H1 & H2 & H3 & H4 & H5 & H6 & H7 & H8).
    destruct (sample_flow_frame sampleDt rp i w)
      as (G1 & G2 & G3 & G4 & G5 & G6 & G7 & G8).
    simpl in *. repeat split; congruence.
Qed.

(** The counters after the loop over the flows [i .. i+k-1]. *)
Lemma sample_loop_counters sampleDt rp k : forall i w j,
  map_at (gRxBytes (sample_loop k sampleDt rp i w)) j = map_at (gRxBytes w) j
  /\ map_at (gRxBytesPrev (sample_loop k sampleDt rp i w)) j =
       if decide (i <= j < i + k)%nat then map_at (gRxBytes w) j
       else map_at (gRxBytesPrev w) j.
Proof.
  induction k as [|k IH]; intros i w j; simpl.
  - split; [reflexivity|]. destruct (decide _); [lia | reflexivity].
  - destruct (IH (S i) (sample_flow sampleDt rp i w) j) as [H1 H2].
    rewrite H1, H2, sample_flow_gRxBytes, sample_flow_gRxBytesPrev.
    split; [reflexivity|].
    repeat destruct (decide _); try reflexivity; try lia; subst; reflexivity.
Qed.

(** The contexts after the loop over the flows [i .. i+k-1]: each of
    them has received the row computed from the world the sampler was
    entered in. *)
Lemma sample_loop_ctx sampleDt rp k : forall i w j,
  ctx (sample_loop k sampleDt rp i w) !! j =
    if decide (i <= j < i + k)%nat
    then sampled sampleDt rp w j <$> ctx w !! j
    else ctx w !! j.
Proof.
  induction k as [|k IH]; intros i w j; simpl.
  - destruct (decide _); [lia | reflexivity].
  - rewrite IH, sample_flow_ctx.
    destruct (sample_flow_frame sampleDt rp i w) as (Hnow & _).
    destruct (decide (i = j)) as [<-|Hne].
    + rewrite list_lookup_alter_eq.
      destruct (decide (S i <= i < S i + k)%nat); [lia|].
      destruct (decide (i <= i < i + S k)%nat); [reflexivity | lia].
    + rewrite list_lookup_alter_ne by exact Hne.
      destruct (decide (S i <= j < S i + k)%nat);
        destruct (decide (i <= j < i + S k)%nat); try lia; try reflexivity.
      destruct (ctx w !! j) as [c|]; [|reflexivity]. simpl. f_equal.
      unfold sampled. f_equal. f_equal. f_equal.
      apply sample_row_ext.
      * exact Hnow.
      * apply sample_flow_gRxBytes.
      * rewrite sample_flow_gRxBytesPrev.
        destruct (decide (i = j)); [contradiction | reflexivity].
Qed.

Section DoSampleFacts.

Variable Seconds : double -> Z.

(** What one firing does to a flow: one row more in its sink, computed
    from the state at the firing; nothing else of the context changes. *)
Lemma DoSample_ctx sampleDt w j :
  ctx (DoSample Seconds sampleDt w) !! j =
    sampled sampleDt (router_packets w) w j <$> ctx w !! j.
Proof.
  unfold DoSample, Schedule. simpl. rewrite sample_loop_ctx.
  destruct (decide _) as [_|Hn]; [reflexivity|].
  destruct (ctx w !! j) eqn:E; [|reflexivity].
  apply lookup_lt_Some in E. lia.
Qed.

Lemma DoSample_length sampleDt w :
  length (ctx (DoSample Seconds sampleDt w)) = length (ctx w).
Proof.
  apply Nat.le_antisymm.
  - destruct (decide (length (ctx (DoSample Seconds sampleDt w)) <= length (ctx w))%nat)
      as [H|H]; [exact H|].
    destruct (lookup_lt_is_Some_2 (ctx (DoSample Seconds sampleDt w)) (length (ctx w)))
      as [c Hc]; [lia|].
    rewrite DoSample_ctx in Hc. rewrite lookup_ge_None_2 in Hc by lia. discriminate.
  - destruct (decide (length (ctx w) <= length (ctx (DoSample Seconds sampleDt w)))%nat)
      as [H|H]; [exact H|].
    destruct (lookup_lt_is_Some_2 (ctx w) (length (ctx (DoSample Seconds sampleDt w))))
      as [c Hc]; [lia|].
    pose proof (DoSample_ctx sampleDt w (length (ctx (DoSample Seconds sampleDt w)))) as E.
    rewrite Hc in E. rewrite lookup_ge_None_2 in E by lia. discriminate.
Qed.

(** The firing re-arms itself one period later, and leaves the rest of
    the engine alone. *)
Lemma DoSample_engine sampleDt w :
  let w' := DoSample Seconds sampleDt w in
  queue w' = queue w ++ [(now w + Seconds sampleDt, CallDoSample sampleDt)]
  /\ now w' = now w /\ stopped w' = stopped w.
Proof.
  unfold DoSample, Schedule. simpl.
  destruct (sample_loop_frame sampleDt (router_packets w) (length (ctx w)) 0 w)
    as (H1 & H2 & H3 & _).
  simpl in *. rewrite H1, H2, H3. repeat split; reflexivity.
Qed.

(** After the firing the previous counter of every flow equals its
    current counter, which the firing does not change. *)
Lemma DoSample_counters sampleDt w j :
  map_at (gRxBytes (DoSample Seconds sampleDt w)) j = map_at (gRxBytes w) j
  /\ ((j < length (ctx w))%nat ->
      map_at (gRxBytesPrev (DoSample Seconds sampleDt w)) j = map_at (gRxBytes w) j).
Proof.
  unfold DoSample, Schedule. simpl.
  destruct (sample_loop_counters sampleDt (router_packets w) (length (ctx w)) 0 w j)
    as [H1 H2].
  split; [exact H1|]. intros Hj. rewrite H2.
  destruct (decide _); [reflexivity | lia].
Qed.

End DoSampleFacts.

(** ** Passive events *)

Lemma fold_left_inv {A B : Type} (f : A -> B -> A) (P : A -> Prop) l : forall a,
  P a -> (forall a b, P a -> P (f a b)) -> P (fold_left f l a).
Proof.
  induction l as [|b l IH]; intros a Ha Hf; simpl; [exact Ha|].
  apply IH; [apply Hf; exact Ha | exact Hf].
Qed.

Lemma map_alter_frame {B : Type} (proj : FlowCtx -> B) f i (l : list FlowCtx) :
  (forall c, proj (f c) = proj c) -> map proj (alter f i l) = map proj l.
Proof.
  intros Hf. revert i. induction l as [|c l IH]; intros [|i]; simpl;
    try reflexivity.
  - rewrite Hf. reflexivity.
  - f_equal. apply IH.
Qed.

Lemma quiet_refl w : quiet w w.
Proof. unfold quiet. repeat split; reflexivity. Qed.

Lemma quiet_trans w1 w2 w3 : quiet w1 w2 -> quiet w2 w3 -> quiet w1 w3.
Proof.
  unfold quiet. intros (A1 & A2 & A3 & A4 & A5) (B1 & B2 & B3 & B4 & B5).
  repeat split; congruence.
Qed.

Lemma CwndTrace_quiet c o n w : quiet w (CwndTrace c o n w).
Proof.
  unfold quiet, CwndTrace. simpl. repeat split; try reflexivity;
    apply map_alter_frame; reflexivity.
Qed.

Lemma InflightTrace_quiet c o n w : quiet w (InflightTrace c o n w).
Proof.
  unfold quiet, InflightTrace. simpl. repeat split; try reflexivity;
    apply map_alter_frame; reflexivity.
Qed.

Lemma InflightTrace_cwnd c o n w :
  map lastCwndBytes (ctx (InflightTrace c o n w)) = map lastCwndBytes (ctx w).
Proof. unfold InflightTrace. simpl. apply map_alter_frame. reflexivity. Qed.

Lemma engine_step_quiet e w : quiet w (engine_step e w).
Proof.
  destruct e as [node sock|sock o n|sock o n|idx size|q n]; simpl;
    try (unfold quiet; simpl; repeat split; reflexivity).
  - apply (fold_left_inv _ (quiet w)); [apply quiet_refl|].
    intros a b Ha. destruct (Nat.eqb _ _); [|exact Ha].
    eapply quiet_trans; [exact Ha | apply CwndTrace_quiet].
  - apply (fold_left_inv _ (quiet w)); [apply quiet_refl|].
    intros a b Ha. destruct (Nat.eqb _ _); [|exact Ha].
    eapply quiet_trans; [exact Ha | apply InflightTrace_quiet].
Qed.

(** Only a change of a congestion window touches [lastCwndBytes]. *)
Lemma engine_step_cwnd e w :
  is_cwnd_change (Engine e) = false ->
  map lastCwndBytes (ctx (engine_step e w)) = map lastCwndBytes (ctx w).
Proof.
  destruct e as [node sock|sock o n|sock o n|idx size|q n]; simpl;
    try reflexivity; [discriminate|]. intros _.
  apply (fold_left_inv _ (fun w' => map lastCwndBytes (ctx w')
                                    = map lastCwndBytes (ctx w)));
    [reflexivity|].
  intros a b Ha. destruct (Nat.eqb _ _); [|exact Ha].
  rewrite InflightTrace_cwnd. exact Ha.
Qed.

Section PassiveFacts.

Variable Seconds : double -> Z.

Lemma passive_quiet ev w :
  passive ev = true -> quiet w (dispatch Seconds ev w).
Proof.
  destruct ev as [e|s c|dt|]; simpl; try discriminate; intros _.
  - apply engine_step_quiet.
  - unfold quiet, HookSenderTraces. simpl. repeat split; reflexivity.
Qed.

Lemma passive_cwnd ev w :
  passive ev = true -> is_cwnd_change ev = false ->
  map lastCwndBytes (ctx (dispatch Seconds ev w)) = map lastCwndBytes (ctx w).
Proof.
  destruct ev as [e|s c|dt|]; simpl; try discriminate; intros _ H.
  - apply engine_step_cwnd. exact H.
  - reflexivity.
Qed.

End PassiveFacts.

(** ** The sampler chain during a run *)

Lemma two_element_split {A : Type} (l1 l2 : list A) (x a b : A) :
  l1 ++ x :: l2 = [a; b] ->
  (l1 = [] /\ x = a /\ l2 = [b]) \/ (l1 = [a] /\ x = b /\ l2 = []).
Proof.
  destruct l1 as [|y [|z l1]]; simpl; intros H.
  - injection H as -> ->. left. repeat split.
  - injection H as -> -> <-. right. repeat split.
  - exfalso. injection H as _ _ H. destruct l1; discriminate.
Qed.

Lemma active_events_app q1 q2 :
  active_events (q1 ++ q2) = active_events q1 ++ active_events q2.
Proof. apply List.filter_app. Qed.

Lemma active_events_In x q : In x (active_events q) -> In x q.
Proof. unfold active_events. intros H. apply filter_In in H. tauto. Qed.

Lemma active_events_passive q :
  Forall (fun te => passive (snd te) = true) q -> active_events q = [].
Proof.
  induction 1 as [|x q Hx _ IH]; [reflexivity|].
  unfold active_events in *. simpl. rewrite Hx. simpl. exact IH.
Qed.

Lemma firing_times_S P k :
  firing_times P (S k) = firing_times P k ++ [Z.of_nat (S k) * P].
Proof. unfold firing_times. rewrite seq_S, map_app. reflexivity. Qed.

(** The time values of a sink are the conversions of the clock readings
    of its rows. *)
Lemma time_column_map GetSeconds c :
  time_column GetSeconds c = map GetSeconds (sample_times c).
Proof.
  unfold time_column, sample_times.
  induction (written (csv c)) as [|[txt|r] ls IH].
  - reflexivity.
  - exact IH.
  - change (time_value GetSeconds r :: omap (line_time_value GetSeconds) ls
            = GetSeconds (r_time r) :: map GetSeconds (omap line_time ls)).
    rewrite IH. reflexivity.
Qed.

Lemma sample_times_put c r :
  is_open (csv c) = true ->
  sample_times (set_csv (put (csv c) (Sample r)) c) = sample_times c ++ [r_time r].
Proof.
  intros Ho. unfold sample_times, put. rewrite Ho. simpl.
  rewrite omap_app. reflexivity.
Qed.

(** Flows with the same sinks have the same rows. *)
Lemma same_csv_lookup (l l' : list FlowCtx) i c' :
  map csv l' = map csv l -> l' !! i = Some c' ->
  exists c, l !! i = Some c /\ csv c' = csv c.
Proof.
  intros E H.
  assert (Hm : map csv l' !! i = Some (csv c'))
    by (rewrite list_lookup_fmap, H; reflexivity).
  rewrite E, list_lookup_fmap in Hm.
  destruct (l !! i) as [c|]; [|discriminate].
  exists c. split; [reflexivity|]. simpl in Hm. congruence.
Qed.

Section SamplerChain.

Variable Seconds : double -> Z.
Variable dt : double.
Variable T : Z.

Local Abbreviation P := (Seconds dt).

(** One event of the run: either a passive event goes by, or the
    sampler fires at [(k+1) P] and re-arms itself, or the stop ends the
    run. *)
Lemma sampler_step k w t ev rest :
  sampler_inv P T dt k w ->
  next_event (queue w) = Some (t, ev, rest) ->
  let w' := dispatch Seconds ev (with_now t (with_queue rest w)) in
  (sampler_inv P T dt k w' /\ (length (queue w') < length (queue w))%nat)
  \/ (sampler_inv P T dt (S k) w' /\ length (queue w') = length (queue w)
      /\ Z.of_nat (S k) * P <= T)
  \/ sampler_done P T k w'.
Proof.
  intros (Hs & Ha & Hrows & Hk) Hn w'.
  pose proof (next_event_length _ _ _ _ Hn) as Hlen.
  apply next_event_spec in Hn as (q1 & q2 & Hq & -> & Hq1 & Hq2).
  rewrite Hq, active_events_app in Ha.
  destruct (passive ev) eqn:Hp.
  - (* a passive event *)
    left. subst w'.
    destruct (passive_quiet Seconds ev (with_now t (with_queue (q1 ++ q2) w)) Hp)
      as (Q1 & Q2 & Q3 & Q4 & Q5).
    simpl in Q1, Q2, Q3, Q4, Q5.
    split; [|rewrite Q1; lia].
    split; [rewrite Q3; exact Hs|].
    split.
    + rewrite Q1, active_events_app.
      change (active_events ((t, ev) :: q2)) with
        (if negb (passive ev) then (t, ev) :: active_events q2
         else active_events q2) in Ha.
      rewrite Hp in Ha. exact Ha.
    + split; [|exact Hk]. intros i c' Hc'.
      destruct (same_csv_lookup _ _ i c' Q4 Hc') as (c & Hc & E).
      unfold sample_times. rewrite E. apply (Hrows i c Hc).
  - (* the sampler or the stop *)
    change (active_events ((t, ev) :: q2)) with
      (if negb (passive ev) then (t, ev) :: active_events q2
       else active_events q2) in Ha.
    rewrite Hp in Ha. simpl in Ha.
    assert (Hfire : ev = CallDoSample dt -> t = Z.of_nat (S k) * P ->
              active_events (q1 ++ q2) = [(T, CallStop)] ->
              fired_ok P T (S k) ->
              sampler_inv P T dt (S k) w' /\ length (queue w') = length (queue w)).
    { intros -> Ht Hact Hok. subst w'. cbn [dispatch].
      set (w1 := with_now t (with_queue (q1 ++ q2) w)).
      assert (W1 : queue w1 = q1 ++ q2) by reflexivity.
      assert (W2 : now w1 = t) by reflexivity.
      assert (W3 : stopped w1 = stopped w) by reflexivity.
      assert (W4 : ctx w1 = ctx w) by reflexivity.
      destruct (DoSample_engine Seconds dt w1) as (D1 & D2 & D3).
      rewrite W1, W2 in D1. rewrite W3 in D3. clearbody w1. split.
      - split; [rewrite D3; exact Hs|]. split; [|split; [|exact Hok]].
        + rewrite D1, active_events_app, Hact. simpl. rewrite Ht.
          do 3 f_equal. lia.
        + intros i c' Hc'. rewrite DoSample_ctx, W4 in Hc'.
          destruct (ctx w !! i) as [c|] eqn:Hc; [|discriminate].
          injection Hc' as <-. destruct (Hrows i c Hc) as [Ho Hti].
          split.
          * unfold sampled, put. rewrite Ho. reflexivity.
          * unfold sampled. rewrite sample_times_put by exact Ho.
            rewrite firing_times_S, Hti. simpl. rewrite W2, Ht. reflexivity.
      - rewrite D1, length_app. simpl. lia. }
    assert (Hstop : ev = CallStop ->
              match k with O => T < P | S _ => T <= Z.of_nat (S k) * P end ->
              sampler_done P T k w').
    { intros -> Hcut. subst w'. cbn [dispatch]. split; [reflexivity|].
      split; [|split; [exact Hk | exact Hcut]].
      intros i c Hc. apply (Hrows i c Hc). }
    rewrite active_events_app in Hfire.
    destruct k as [|k].
    + apply two_element_split in Ha as [(E1 & E & E2) | (E1 & E & E2)].
      * (* the first firing, queued ahead of the stop *)
        injection E as -> ->. right; left.
        assert (HT : P <= T).
        { apply (Hq2 (T, CallStop)). apply active_events_In. rewrite E2.
          left. reflexivity. }
        destruct (Hfire eq_refl ltac:(lia)) as [H1 H2].
        -- rewrite E1, E2. reflexivity.
        -- right; left. split; [reflexivity | exact HT].
        -- split; [exact H1|]. split; [exact H2|]. lia.
      * injection E as -> ->. right; right. apply Hstop; [reflexivity|].
        apply (Hq1 (P, CallDoSample dt)). apply active_events_In.
        rewrite E1. left. reflexivity.
    + apply two_element_split in Ha as [(E1 & E & E2) | (E1 & E & E2)].
      * injection E as -> ->. right; right. apply Hstop; [reflexivity|].
        apply (Hq2 (Z.of_nat (S (S k)) * P, CallDoSample dt)).
        apply active_events_In. rewrite E2. left. reflexivity.
      * (* a later firing, queued behind the stop *)
        injection E as -> ->. right; left.
        assert (HT : Z.of_nat (S (S k)) * P < T).
        { apply (Hq1 (T, CallStop)). apply active_events_In. rewrite E1.
          left. reflexivity. }
        destruct (Hfire eq_refl eq_refl) as [H1 H2].
        -- rewrite E1, E2. reflexivity.
        -- right; right. split; [lia | exact HT].
        -- split; [exact H1|]. split; [exact H2|]. lia.
Qed.

End SamplerChain.

(** ** The whole run *)

Section RunToStop.

Variable Seconds : double -> Z.
Variable dt : double.
Variable T : Z.

Local Abbreviation P := (Seconds dt).

Hypothesis period_positive : 0 < P.

Lemma run_more fuel : forall w w' m,
  run Seconds fuel w = Some w' -> run Seconds (fuel + m) w = Some w'.
Proof.
  induction fuel as [|fuel IH]; intros w w' m H.
  - simpl in H. destruct m; simpl;
      destruct (stopped w); try exact H;
      destruct (next_event (queue w)) as [[[t ev] rest]|]; congruence.
  - simpl in H |- *. destruct (stopped w); [exact H|].
    destruct (next_event (queue w)) as [[[t ev] rest]|]; [|exact H].
    apply IH. exact H.
Qed.

(** The run reaches the stop: the passive events run out and the
    sampler can fire only while [(k+1) P <= T]. *)
Lemma sampler_run n : forall k w,
  sampler_inv P T dt k w ->
  (length (queue w) + Z.to_nat (T / P + 1 - Z.of_nat k) <= n)%nat ->
  exists w' k', run Seconds n w = Some w' /\ sampler_done P T k' w'.
Proof.
  induction n as [|n IH]; intros k w Hinv Hm.
  - exfalso. destruct Hinv as (_ & Ha & _).
    destruct (queue w) as [|x q]; [|simpl in Hm; lia].
    destruct k; discriminate Ha.
  - assert (Hne : queue w <> []).
    { destruct Hinv as (_ & Ha & _). intros E. rewrite E in Ha.
      destruct k; discriminate Ha. }
    destruct (next_event_nonempty _ Hne) as (t & ev & rest & Hn).
    pose proof (sampler_step Seconds dt T k w t ev rest Hinv Hn)
      as Hstep.
    cbn [run]. destruct Hinv as (Hs & Hrest). rewrite Hs, Hn.
    destruct Hstep as [[Hinv' Hlen] | [(Hinv' & Hlen & Hle) | Hdone]].
    + apply (IH k _ Hinv'). lia.
    + apply (IH (S k) _ Hinv').
      assert (Z.of_nat (S k) <= T / P)
        by (apply Z.div_le_lower_bound; [exact period_positive | lia]).
      lia.
    + eexists _, k. split; [|exact Hdone].
      destruct Hdone as (Hst & _). destruct n; simpl; rewrite Hst; reflexivity.
Qed.

Lemma firing_times_In t k :
  In t (firing_times P k) ->
  exists j, (1 <= j <= k)%nat /\ t = Z.of_nat j * P.
Proof.
  unfold firing_times. intros H. apply in_map_iff in H as (j & <- & Hj).
  apply in_seq in Hj. exists j. split; [lia | reflexivity].
Qed.

Lemma firing_times_sorted k : StronglySorted Z.lt (firing_times P k).
Proof.
  induction k as [|k IH]; [constructor|].
  rewrite firing_times_S. induction (firing_times P k) as [|t l IHl] eqn:E.
  - simpl. constructor; constructor.
  - assert (Hall : forall x, In x (t :: l) -> x < Z.of_nat (S k) * P).
    { intros x Hx. rewrite <- E in Hx.
      apply firing_times_In in Hx as (j & Hj & ->). nia. }
    clear E IHl. induction IH as [|a l' Hl' IH' Ha]; simpl.
    + constructor; constructor.
    + constructor.
      * apply IH'. intros x Hx. apply Hall. right. exact Hx.
      * apply Forall_app. split; [exact Ha|].
        constructor; [|constructor]. apply Hall. left. reflexivity.
Qed.

(** No firing is past the stop, and one is at the stop only when the
    period equals the stop time. *)
Lemma firing_times_before_stop k t :
  fired_ok P T k -> In t (firing_times P k) -> t < T \/ (t = T /\ P = T).
Proof.
  intros Hk Ht. apply firing_times_In in Ht as (j & Hj & ->).
  destruct Hk as [-> | [[-> HT] | [Hk HT]]]; [lia| |left; nia].
  assert (j = 1%nat) as -> by lia. lia.
Qed.

(** Every multiple of the period that the stop lets through has fired. *)
Lemma firing_times_complete k j :
  match k with
  | O => T < P
  | S _ => T <= Z.of_nat (S k) * P
  end ->
  1 <= j -> j * P < T \/ (P = T /\ j * P = T) ->
  In (j * P) (firing_times P k).
Proof.
  intros Hcut Hj Ht.
  assert (Hk : j <= Z.of_nat k).
  { destruct k as [|k]; [nia|].
    destruct Ht as [Ht|[E Ht]]; [nia|].
    assert (j = 1) by nia. lia. }
  unfold firing_times. apply in_map_iff. exists (Z.to_nat j).
  split; [rewrite Z2Nat.id by lia; reflexivity|].
  apply in_seq. lia.
Qed.

(** The conditions under which a run ends after [k] firings determine
    [k]. *)
Lemma firings_unique k :
  fired_ok P T k ->
  match k with
  | O => T < P
  | S _ => T <= Z.of_nat (S k) * P
  end ->
  k = firings P T.
Proof.
  intros Hok Hcut. unfold firings.
  destruct (Z.eqb_spec P T) as [E|E].
  - destruct Hok as [-> | [[-> _] | [Hk HT]]]; [lia | reflexivity | nia].
  - destruct Hok as [-> | [[-> HT] | [Hk HT]]].
    + pose proof (Z.div_lt_upper_bound (T - 1) P 1 period_positive ltac:(lia)).
      lia.
    + change (T <= 2 * P) in Hcut.
      rewrite <- (Z.div_unique_pos (T - 1) P 1 (T - 1 - P)); lia.
    + destruct k as [|k]; [lia|].
      rewrite <- (Z.div_unique_pos (T - 1) P (Z.of_nat (S k))
                    (T - 1 - Z.of_nat (S k) * P)); [lia | nia | nia].
Qed.

End RunToStop.

Section MainFacts.

Context {TypeId : Type} (lookup : string -> option TypeId)
        (open_ok : string -> bool) (Seconds : double -> Z).

Local Abbreviation the_setup := (main_setup TypeId lookup open_ok Seconds).

(** What a completed set-up leaves: one context per flow, each with its
    algorithm, the MSS, the untouched defaults of the two observed
    values, and an open sink that holds the header and nothing else. *)
Lemma main_setup_returns flows mss st u :
  the_setup flows mss = (st, Returns u) ->
  let algos := Split flows "," in
  let n := Z.to_nat (flow_count algos) in
  length (s_ctx st) = n
  /\ (forall j, (j < n)%nat ->
        open_ok (csv_name j) = true
        /\ exists a, algo_for algos j = Returns a
             /\ s_ctx st !! j = Some (configured a mss j FlowCtx_default))
  /\ s_scheduled st = map (hook_call Seconds) (seq 0 n).
Proof.
  intros H algos n. unfold main_setup in H.
  fold algos in H. fold n in H. destruct u.
  apply setup_loop_returns in H as (Hlen & _ & Hin & _ & Hs).
  simpl in Hlen, Hin, Hs. rewrite length_replicate in Hlen.
  split; [exact Hlen|]. split; [|exact Hs].
  intros j Hj. apply (Hin j FlowCtx_default); [lia|].
  apply lookup_replicate_2. exact Hj.
Qed.

Lemma hooks_passive n :
  Forall (fun te => passive (snd te) = true) (map (hook_call Seconds) (seq 0 n)).
Proof. apply List.Forall_forall. intros x Hx. apply in_map_iff in Hx as (j & <- & _). reflexivity. Qed.

Lemma traffic_passive (traffic : list (Z * engine_event)) :
  Forall (fun te => passive (snd te) = true)
         (map (fun te => (fst te, Engine (snd te))) traffic).
Proof. apply List.Forall_forall. intros x Hx. apply in_map_iff in Hx as (j & <- & _). reflexivity. Qed.

(** The run is entered with the sampler armed for [Seconds sampleDt],
    ahead of the stop in the queue, and with no row written. *)
Lemma world_at_run_inv flows mss st u sampleDt duration traffic :
  the_setup flows mss = (st, Returns u) ->
  sampler_inv (Seconds sampleDt) (Seconds (Double.of_Z duration)) sampleDt 0
    (world_at_run Seconds st sampleDt duration traffic).
Proof.
  intros H. apply main_setup_returns in H as (Hlen & Hctx & Hs).
  split; [reflexivity|]. split; [|split; [|left; reflexivity]].
  - cbn [queue world_at_run]. rewrite Hs, !active_events_app.
    rewrite (active_events_passive _ (hooks_passive _)).
    rewrite (active_events_passive _ (traffic_passive _)). reflexivity.
  - cbn [ctx world_at_run]. intros i c Hc.
    destruct (Hctx i) as (_ & a & _ & E).
    { apply lookup_lt_Some in Hc. lia. }
    rewrite E in Hc. injection Hc as <-. split; reflexivity.
Qed.

Lemma close_all_lookup w i :
  ctx (close_all w) !! i =
    (fun c => set_csv {| path := path (csv c); is_open := false;
                         written := written (csv c) |} c) <$> ctx w !! i.
Proof. unfold close_all. simpl. apply list_lookup_fmap. Qed.

End MainFacts.

(** C6, as amended: for a period of at least one clock tick
    ([0 < Seconds sampleDt]) and whatever the engine does in between,
    the run reaches the stop, and then every sink holds the rows of the
    firings at the clock times Δt, 2Δt, ..., KΔt and no others: the
    sampler fires first at t = Δt and re-arms itself Δt after each
    firing, so the rows are written at strictly increasing clock times.
    A row is written for a clock time exactly when that time is a
    multiple kΔt (k >= 1) before the stop time, or is the stop time
    itself and Δt equals the stop time: the first firing is queued before
    the stop and runs ahead of it, every later firing is queued behind
    it, so that no row is written past the stop time, and one is written
    for the stop time itself exactly when Δt equals it.  The number K of
    rows is therefore 1 in that case and the number of multiples of Δt
    below the stop time otherwise.  The time value that a row hands to
    the stream is the engine's conversion to seconds of the clock time of
    its firing; the theorem orders the clock times, not the decimal
    renderings of the converted values. *)
Theorem C6_sampler_fires_periodically_until_stop
    (TypeId : Type) (lookup : string -> option TypeId)
    (open_ok : string -> bool) (Seconds : double -> Z)
    (flows : string) (mss duration : Z) (sampleDt : double)
    (traffic : list (Z * engine_event)) (st : Setup TypeId) :
  let P := Seconds sampleDt in
  let T := Seconds (Double.of_Z duration) in
  let K := firings P T in
  0 < P ->
  main_setup TypeId lookup open_ok Seconds flows mss = (st, Returns tt) ->
  exists (fuel : nat) (w : World),
    (forall fuel', (fuel <= fuel')%nat ->
       main TypeId lookup open_ok Seconds flows mss duration sampleDt traffic fuel'
       = (s_log st, Returns (Some w)))
    /\ stopped w = true
    /\ fired_ok P T K
    /\ T <= Z.of_nat (S K) * P
    /\ forall i c, ctx w !! i = Some c ->
         sample_times c = firing_times P K
         /\ StronglySorted Z.lt (sample_times c)
         /\ (forall t, In t (sample_times c) <->
               exists k, 1 <= k /\ t = k * P /\ (t < T \/ (P = T /\ t = T)))
         /\ (P = T -> sample_times c = [T])
         /\ (P <> T -> forall t, In t (sample_times c) -> t < T)
         /\ (forall GetSeconds : Z -> double,
               time_column GetSeconds c = map GetSeconds (firing_times P K)).
Proof.
  intros P T K HP Hsetup.
  pose proof (world_at_run_inv lookup open_ok Seconds flows mss st tt
                sampleDt duration traffic Hsetup) as Hinv.
  set (w0 := world_at_run Seconds st sampleDt duration traffic) in *.
  set (N := (length (queue w0) + Z.to_nat (T / P + 1 - Z.of_nat 0))%nat).
  destruct (sampler_run Seconds sampleDt T HP N 0%nat w0 Hinv (Nat.le_refl _))
    as (w' & K' & Hrun & Hstop & Hrows & Hok & Hcut).
  assert (EK : K' = K) by exact (firings_unique Seconds sampleDt T HP K' Hok Hcut).
  subst K'.
  exists N, (close_all w').
  split; [|split; [exact Hstop|split; [exact Hok|split]]].
  - intros fuel' Hle. unfold main. rewrite Hsetup.
    replace fuel' with (N + (fuel' - N))%nat by lia.
    fold w0. rewrite (run_more Seconds _ w0 w' _ Hrun). reflexivity.
  - destruct K; fold P; lia.
  - intros i c Hc. rewrite close_all_lookup in Hc.
    destruct (ctx w' !! i) as [c'|] eqn:E; [|discriminate].
    injection Hc as <-. destruct (Hrows i c' E) as [_ Ht].
    assert (Hst : sample_times
                    (set_csv {| path := path (csv c'); is_open := false;
                                written := written (csv c') |} c')
                  = firing_times P K).
    { unfold sample_times in Ht |- *. cbn [csv set_csv written]. exact Ht. }
    assert (Hbefore : forall t, In t (firing_times P K) ->
                                t < T \/ (t = T /\ P = T)).
    { intros t. apply (firing_times_before_stop Seconds sampleDt T HP K t Hok). }
    split; [exact Hst|]. rewrite Hst.
    split; [apply firing_times_sorted; exact HP|].
    split; [|split; [|split]].
    + intros t. split.
      * intros Hin. destruct (Hbefore t Hin) as [Hlt|[E1 E2]];
          apply firing_times_In in Hin as (j & Hj & ->);
          exists (Z.of_nat j); (split; [lia|]); (split; [reflexivity|]).
        -- left. exact Hlt.
        -- right. split; [exact E2 | exact E1].
      * intros (k & Hk & -> & Hcase).
        apply (firing_times_complete Seconds sampleDt T HP K k Hcut Hk).
        destruct Hcase as [Hlt|[E1 E2]]; [left; exact Hlt | right; split; assumption].
    + intros EPT. unfold K, firings. rewrite (proj2 (Z.eqb_eq P T) EPT).
      unfold firing_times. simpl. f_equal. lia.
    + intros NE t Hin. destruct (Hbefore t Hin) as [Hlt|[_ E2]];
        [exact Hlt | contradiction].
    + intros GetSeconds. rewrite time_column_map, Hst. reflexivity.
Qed.

Lemma C6_sampler_fires_periodically_until_stop_witness :
  exists (fuel : nat) (w : World),
    main string full_registry (fun _ => true) SecondsNs
         "Reno,Cubic" 1500 20 d0_1 [(150000000, SocketCreated 0 7)] fuel
    = ([], Returns (Some w))
    /\ forall i c, ctx w !! i = Some c ->
         sample_times c = firing_times 100000000 199
         /\ forall t, In t (sample_times c) -> t < 20000000000.
Proof.
  destruct (C6_sampler_fires_periodically_until_stop string full_registry
              (fun _ => true) SecondsNs "Reno,Cubic" 1500 20 d0_1
              [(150000000, SocketCreated 0 7)]
              (fst (main_setup string full_registry (fun _ => true) SecondsNs
                      "Reno,Cubic" 1500)))
    as (fuel & w & Hmain & _ & _ & _ & Hrows).
  - reflexivity.
  - reflexivity.
  - exists fuel, w. split; [apply Hmain; lia|].
    intros i c Hc. destruct (Hrows i c Hc) as (H1 & _ & _ & _ & H3 & _).
    split; [exact H1|]. apply H3. discriminate.
Defined.

(** C6, as stated, fails: with a period equal to the run duration
    (sampleDt = 1.0, duration = 1) the first firing is queued for the
    stop time, ahead of the stop, and writes a row for the stop time. *)
Lemma C6_counterexample :
  exists w c,
    main string full_registry (fun _ => true) SecondsNs "Reno" 1500 1 Double.d1 [] 10
    = ([], Returns (Some w))
    /\ ctx w !! 0%nat = Some c
    /\ sample_times c = [SecondsNs (Double.of_Z 1)]
    /\ ~ (forall t, In t (sample_times c) -> t < SecondsNs (Double.of_Z 1)).
Proof.
  eexists _, _. split; [vm_compute; reflexivity|].
  split; [reflexivity|]. split; [reflexivity|].
  intros H. specialize (H 1000000000 ltac:(left; reflexivity)).
  vm_compute in H. discriminate H.
Qed.

(** ** The output sinks *)

Lemma sink_shape_put i c r :
  sink_shape i c -> sink_shape i (set_csv (put (csv c) (Sample r)) c).
Proof.
  intros [Hp [rows Hr]]. unfold sink_shape, put.
  destruct (is_open (csv c)); cbn [csv set_csv path written].
  - split; [exact Hp|]. exists (rows ++ [r]).
    rewrite Hr, map_app. reflexivity.
  - split; [exact Hp|]. exists rows. exact Hr.
Qed.

Lemma sinks_ok_same_csv n (l l' : list FlowCtx) :
  map csv l' = map csv l -> sinks_ok n l -> sinks_ok n l'.
Proof.
  intros E H i Hi. destruct (H i Hi) as (c & Hc & Hp & Hr).
  destruct (same_csv_lookup l' l i c (eq_sym E) Hc) as (c' & Hc' & E').
  exists c'. split; [exact Hc'|]. unfold sink_shape. rewrite <- E'.
  split; assumption.
Qed.

Section SinkFacts.

Variable Seconds : double -> Z.

(** No event rewrites what a sink holds: a firing of the sampler adds a
    row at its end, every other event leaves it alone. *)
Lemma dispatch_sinks_ok n ev w :
  sinks_ok n (ctx w) -> sinks_ok n (ctx (dispatch Seconds ev w)).
Proof.
  intros H. destruct (passive ev) eqn:Hp.
  - destruct (passive_quiet Seconds ev w Hp) as (_ & _ & _ & Q & _).
    apply (sinks_ok_same_csv n _ _ Q H).
  - destruct ev as [e|s c|dt|]; try discriminate; cbn [dispatch].
    + intros i Hi. destruct (H i Hi) as (c & Hc & Hs).
      exists (sampled dt (router_packets w) w i c).
      rewrite DoSample_ctx, Hc. split; [reflexivity|].
      apply sink_shape_put. exact Hs.
    + exact H.
Qed.

Lemma run_sinks_ok n fuel w w' :
  sinks_ok n (ctx w) -> run Seconds fuel w = Some w' -> sinks_ok n (ctx w').
Proof.
  apply (run_invariant Seconds (fun w => sinks_ok n (ctx w))).
  intros w1 t ev rest H _ _. apply dispatch_sinks_ok. exact H.
Qed.

End SinkFacts.

Section SetupAborts.

Context {TypeId : Type} (lookup : string -> option TypeId)
        (open_ok : string -> bool) (Seconds : double -> Z).

Local Abbreviation flow_round := (setup_flow TypeId lookup open_ok Seconds).
Local Abbreviation flow_rounds := (setup_loop TypeId lookup open_ok Seconds).

(** With the default implementation in the engine, every name
    resolves. *)
Lemma Resolve_returns_with_default tid0 algo log :
  lookup "ns3::TcpNewReno" = Some tid0 ->
  exists tid, snd (ResolveTcpTypeId lookup algo log) = Returns tid.
Proof.
  intros Hd. unfold ResolveTcpTypeId.
  destruct (lookup (ns3NameOf algo)) as [tid|] eqn:E; [eauto|].
  destruct (String.eqb_spec (ns3NameOf algo) "ns3::TcpNewReno") as [En|_].
  - rewrite En in E. congruence.
  - simpl. rewrite Hd. eauto.
Qed.

Lemma setup_flow_goes_through algos mss i st a tid :
  algo_for algos i = Returns a ->
  snd (ResolveTcpTypeId lookup a (s_log st)) = Returns tid ->
  open_ok (csv_name i) = true ->
  exists st', flow_round algos mss i st = (st', Returns tt).
Proof.
  unfold setup_flow. intros -> R O.
  destruct (ResolveTcpTypeId lookup a (s_log st)) as [log r]. simpl in R.
  subst r. rewrite O. eauto.
Qed.

(** The first flow whose file cannot be opened ends the process. *)
Lemma setup_loop_open_fails algos mss tid0 i k : forall i0 st,
  algos <> [] ->
  lookup "ns3::TcpNewReno" = Some tid0 ->
  (i0 <= i < i0 + k)%nat ->
  open_ok (csv_name i) = false ->
  (forall j, (i0 <= j < i)%nat -> open_ok (csv_name j) = true) ->
  snd (flow_rounds k algos mss i0 st) = Fatal (open_failed_msg i).
Proof.
  induction k as [|k IH]; intros i0 st Hne Hd Hi Hfail Hbefore; [lia|].
  cbn [setup_loop].
  destruct (algo_for_nonempty algos i0 Hne) as (a & Ha & _).
  destruct (Resolve_returns_with_default tid0 a (s_log st) Hd) as [tid Hr].
  destruct (decide (i0 = i)) as [->|Hneq].
  - pose proof (setup_flow_open_fails lookup open_ok Seconds algos mss i st a tid
                  Ha Hr Hfail) as F.
    destruct (setup_flow TypeId lookup open_ok Seconds algos mss i st)
      as [st1 r]. simpl in F. subst r. reflexivity.
  - destruct (setup_flow_goes_through algos mss i0 st a tid Ha Hr)
      as [st' ->]; [apply Hbefore; lia|].
    apply IH; try assumption; [lia|]. intros j Hj. apply Hbefore. lia.
Qed.

End SetupAborts.

(** C7: the files of distinct flows have distinct names, so a flow's
    sink is keyed by its index.  A set-up that completes has opened
    exactly one sink per flow, [trace_flow<i>.csv] for flow [i], and
    each holds the header line and nothing else.  A round of the set-up
    that reaches the opening of a file that cannot be opened aborts with
    "Failed to open CSV for flow <i>"; so when the file of some flow
    cannot be opened the set-up does not complete, and it aborts with
    that message at the first such flow whenever the flows before it
    went through.  During the run nothing
    but rows is appended, so at the end the header is still the first
    line of every sink and occurs once, for every flow list, MSS,
    period, duration and engine activity. *)
Theorem C7_one_sink_per_flow_header_first
    (TypeId : Type) (lookup : string -> option TypeId)
    (open_ok : string -> bool) (Seconds : double -> Z)
    (flows : string) (mss : Z) :
  let algos := Split flows "," in
  let n := Z.to_nat (flow_count algos) in
  (forall i j, csv_name i = csv_name j -> i = j)
  /\ (forall st, main_setup TypeId lookup open_ok Seconds flows mss = (st, Returns tt) ->
        length (s_ctx st) = n
        /\ forall i, (i < n)%nat ->
             exists c, s_ctx st !! i = Some c
               /\ csv c = {| path := csv_name i; is_open := true;
                             written := [Text header] |})
  /\ (forall algos' i st a tid,
        algo_for algos' i = Returns a ->
        snd (ResolveTcpTypeId lookup a (s_log st)) = Returns tid ->
        open_ok (csv_name i) = false ->
        snd (setup_flow TypeId lookup open_ok Seconds algos' mss i st)
        = Fatal (open_failed_msg i))
  /\ (forall i, (i < n)%nat -> open_ok (csv_name i) = false ->
        forall st, main_setup TypeId lookup open_ok Seconds flows mss <> (st, Returns tt))
  /\ (forall i tid0, (i < n)%nat -> algos <> [] ->
        lookup "ns3::TcpNewReno" = Some tid0 ->
        open_ok (csv_name i) = false ->
        (forall j, (j < i)%nat -> open_ok (csv_name j) = true) ->
        snd (main_setup TypeId lookup open_ok Seconds flows mss)
        = Fatal (open_failed_msg i))
  /\ (forall st duration sampleDt traffic fuel w,
        main_setup TypeId lookup open_ok Seconds flows mss = (st, Returns tt) ->
        main TypeId lookup open_ok Seconds flows mss duration sampleDt traffic fuel
        = (s_log st, Returns (Some w)) ->
        length (ctx w) = n
        /\ forall i, (i < n)%nat ->
             exists c rows, ctx w !! i = Some c
               /\ path (csv c) = csv_name i
               /\ written (csv c) = Text header :: map Sample rows).
Proof.
  intros algos n. split; [exact csv_name_inj|]. split; [|split; [|split; [|split]]].
  - intros st H. apply main_setup_returns in H as (Hlen & Hctx & _).
    split; [exact Hlen|]. intros i Hi.
    destruct (Hctx i Hi) as (_ & a & _ & E). eexists. split; [exact E|].
    reflexivity.
  - intros algos' i st a tid Ha Hr Hfail.
    apply (setup_flow_open_fails lookup open_ok Seconds algos' mss i st a tid Ha Hr Hfail).
  - intros i Hi Hfail st H. apply main_setup_returns in H as (_ & Hctx & _).
    destruct (Hctx i Hi) as (Ho & _). congruence.
  - intros i tid0 Hi Hne Hd Hfail Hbefore. subst n algos. unfold main_setup.
    apply (setup_loop_open_fails lookup open_ok Seconds _ mss tid0 i);
      try assumption; [lia|].
    intros j Hj. apply Hbefore. lia.
  - intros st duration sampleDt traffic fuel w Hsetup Hmain.
    unfold main in Hmain. rewrite Hsetup in Hmain.
    destruct (run Seconds fuel (world_at_run Seconds st sampleDt duration traffic))
      as [w'|] eqn:Hrun; [|discriminate].
    injection Hmain as <-.
    pose proof (main_setup_returns lookup open_ok Seconds flows mss st tt Hsetup)
      as (Hlen & Hctx & _).
    assert (H0 : sinks_ok n (ctx (world_at_run Seconds st sampleDt duration traffic))).
    { intros i Hi. destruct (Hctx i Hi) as (_ & a & _ & E).
      eexists. split; [exact E|]. split; [reflexivity|].
      exists []. reflexivity. }
    pose proof (run_sinks_ok Seconds n fuel _ w' H0 Hrun) as Hend.
    assert (Hl : length (ctx w') = n).
    { transitivity (length (s_ctx st)); [|exact Hlen].
      apply (run_invariant Seconds
               (fun w => length (ctx w) = length (s_ctx st))) in Hrun;
        [exact Hrun| |reflexivity].
      intros w1 t ev rest Hw _ _.
      destruct (passive ev) eqn:Hp.
      - destruct (passive_quiet Seconds ev (with_now t (with_queue rest w1)) Hp)
          as (_ & _ & _ & Q & _).
        apply (f_equal (@length _)) in Q. rewrite !length_map in Q.
        rewrite Q. exact Hw.
      - destruct ev as [e|s c|dt|]; try discriminate; cbn [dispatch].
        + rewrite DoSample_length. exact Hw.
        + exact Hw. }
    split; [unfold close_all; cbn [ctx with_ctx]; rewrite length_map; exact Hl|].
    intros i Hi. destruct (Hend i Hi) as (c & Hc & Hp & rows & Hr).
    eexists _, rows. rewrite close_all_lookup, Hc. split; [reflexivity|].
    split; [exact Hp | exact Hr].
Qed.

Lemma C7_one_sink_per_flow_header_first_witness :
  snd (main_setup string full_registry
         (fun name => negb (String.eqb name "trace_flow1.csv")) SecondsNs
         "Reno,Cubic" 1500)
  = Fatal "Failed to open CSV for flow 1"
  /\ exists c,
       s_ctx (fst (main_setup string full_registry (fun _ => true) SecondsNs
                     "Reno,Cubic" 1500)) !! 1%nat = Some c
       /\ csv c = {| path := "trace_flow1.csv"; is_open := true;
                     written := [Text header] |}.
Proof.
  split.
  - destruct (C7_one_sink_per_flow_header_first string full_registry
                (fun name => negb (String.eqb name "trace_flow1.csv")) SecondsNs
                "Reno,Cubic" 1500) as (_ & _ & _ & _ & H & _).
    apply (H 1%nat "ns3::TcpNewReno").
    + vm_compute. lia.
    + discriminate.
    + reflexivity.
    + reflexivity.
    + intros j Hj. assert (j = 0%nat) as -> by lia. reflexivity.
  - destruct (C7_one_sink_per_flow_header_first string full_registry
                (fun _ => true) SecondsNs "Reno,Cubic" 1500) as (_ & H & _).
    destruct (H (fst (main_setup string full_registry (fun _ => true) SecondsNs
                        "Reno,Cubic" 1500)) eq_refl) as [_ H2].
    apply (H2 1%nat). vm_compute. lia.
Defined.

(** ** The congestion window before the first observation *)

Lemma lookup_fmap_eq {B : Type} (proj : FlowCtx -> B) (l l' : list FlowCtx) i :
  map proj l' = map proj l -> proj <$> l' !! i = proj <$> l !! i.
Proof. intros E. rewrite <- !list_lookup_fmap. unfold fmap, list_fmap. fold (map proj l'). fold (map proj l). rewrite E. reflexivity. Qed.

Lemma CwndTrace_other c o n w i :
  c <> i -> ctx (CwndTrace c o n w) !! i = ctx w !! i.
Proof. intros H. unfold CwndTrace. simpl. apply list_lookup_alter_ne. exact H. Qed.

Lemma cwnd_fold_other sock o n i l : forall w,
  existsb (fun sc => Nat.eqb (fst sc) sock && Nat.eqb (snd sc) i) l = false ->
  ctx (fold_left (fun w sc => if Nat.eqb (fst sc) sock
                              then CwndTrace (snd sc) o n w else w) l w) !! i
  = ctx w !! i.
Proof.
  induction l as [|sc l IH]; intros w H; simpl; [reflexivity|].
  simpl in H. apply orb_false_iff in H as [H1 H2].
  rewrite IH by exact H2.
  destruct (Nat.eqb (fst sc) sock); [|reflexivity].
  simpl in H1. apply CwndTrace_other.
  intros E. rewrite E, Nat.eqb_refl in H1. discriminate.
Qed.

Section CwndFacts.

Variable Seconds : double -> Z.

(** An event that does not run [CwndTrace] on flow [i] leaves the
    flow's [lastCwndBytes] and [mssBytes] as they are. *)
Lemma dispatch_keeps_cwnd i ev w :
  observes_cwnd i ev w = false ->
  lastCwndBytes <$> ctx (dispatch Seconds ev w) !! i = lastCwndBytes <$> ctx w !! i
  /\ mssBytes <$> ctx (dispatch Seconds ev w) !! i = mssBytes <$> ctx w !! i.
Proof.
  intros H. destruct ev as [e|s c|dt|]; cbn [dispatch].
  - split.
    + destruct (is_cwnd_change (Engine e)) eqn:Hc.
      * destruct e as [| sock o n | | |]; try discriminate. simpl in H |- *.
        rewrite (cwnd_fold_other sock (wrap32 o) (wrap32 n) i _ w H).
        reflexivity.
      * apply lookup_fmap_eq. apply engine_step_cwnd. exact Hc.
    + apply lookup_fmap_eq. apply engine_step_quiet.
  - split; reflexivity.
  - rewrite DoSample_ctx. destruct (ctx w !! i); split; reflexivity.
  - split; reflexivity.
Qed.

(** A firing on an unobserved flow reports 1500 / max(1, mss). *)
Lemma sampled_unobserved mss dt rp w i c :
  unobserved mss c -> unobserved mss (sampled dt rp w i c).
Proof.
  intros (H1 & H2 & H3). unfold unobserved, sampled, put.
  destruct (is_open (csv c)); cbn [lastCwndBytes mssBytes csv set_csv written];
    (split; [exact H1|]; split; [exact H2|]); [|exact H3].
  intros r Hr. apply in_app_or in Hr as [Hr|[Hr|[]]]; [apply H3; exact Hr|].
  injection Hr as <-. unfold sample_row. cbn [r_cwndPkts]. rewrite H1, H2.
  reflexivity.
Qed.

(** A run in which the engine reports no congestion-window change
    leaves every flow unobserved. *)
Lemma run_unobserved mss fuel w w' :
  Forall (fun te => is_cwnd_change (snd te) = false) (queue w) ->
  (forall i c, ctx w !! i = Some c -> unobserved mss c) ->
  run Seconds fuel w = Some w' ->
  forall i c, ctx w' !! i = Some c -> unobserved mss c.
Proof.
  intros Hq Hc Hrun.
  apply (run_invariant Seconds
           (fun w => Forall (fun te => is_cwnd_change (snd te) = false) (queue w)
                     /\ forall i c, ctx w !! i = Some c -> unobserved mss c))
    in Hrun; [apply Hrun | | split; assumption].
  clear. intros w t ev rest [Hq Hc] _ Hn.
  apply next_event_spec in Hn as (q1 & q2 & E & -> & _).
  rewrite E in Hq. apply Forall_app in Hq as [Hq1 Hq2].
  apply Forall_cons in Hq2 as [Hev Hq2]. simpl in Hev.
  assert (Hrest : Forall (fun te => is_cwnd_change (snd te) = false) (q1 ++ q2))
    by (apply Forall_app; split; assumption).
  set (w1 := with_now t (with_queue (q1 ++ q2) w)).
  assert (W1 : queue w1 = q1 ++ q2) by reflexivity.
  assert (W2 : ctx w1 = ctx w) by reflexivity.
  clearbody w1.
  destruct (passive ev) eqn:Hp.
  - destruct (passive_quiet Seconds ev w1 Hp) as (Q1 & _ & _ & Q4 & Q5).
    pose proof (passive_cwnd Seconds ev w1 Hp Hev) as Q6.
    split; [rewrite Q1, W1; exact Hrest|].
    intros i c' Hc'.
    pose proof (lookup_fmap_eq csv _ _ i Q4) as F4.
    pose proof (lookup_fmap_eq mssBytes _ _ i Q5) as F5.
    pose proof (lookup_fmap_eq lastCwndBytes _ _ i Q6) as F6.
    rewrite Hc', W2 in F4, F5, F6.
    destruct (ctx w !! i) as [c|] eqn:Hci; [|discriminate].
    simpl in F4, F5, F6. injection F4 as F4. injection F5 as F5.
    injection F6 as F6. destruct (Hc i c Hci) as (H1 & H2 & H3).
    unfold unobserved. rewrite F4, F5, F6. repeat split; assumption.
  - destruct ev as [e|s c|dt|]; try discriminate; cbn [dispatch].
    + destruct (DoSample_engine Seconds dt w1) as (D1 & _).
      split.
      * rewrite D1, W1. apply Forall_app. split; [exact Hrest|].
        constructor; [reflexivity | constructor].
      * intros i c' Hc'. rewrite DoSample_ctx, W2 in Hc'.
        destruct (ctx w !! i) as [c|] eqn:Hci; [|discriminate].
        injection Hc' as <-. apply sampled_unobserved. apply (Hc i c Hci).
    + split; [cbn [queue with_stopped]; rewrite W1; exact Hrest|].
      cbn [ctx with_stopped]. rewrite W2. exact Hc.
Qed.

End CwndFacts.

(** C1, as amended: when the set-up has completed, the
    [lastCwndBytes] of every flow is the 1500.0 of the member
    initialiser whatever the MSS parameter is, while [mssBytes] is the
    MSS parameter; the two agree when the MSS parameter is 1500.  An
    event that does not run the congestion-window hook on a flow leaves
    the flow's value as it is, and in a run without any
    congestion-window change every flow ends with 1500.0 and every row
    written reports cwnd_pkts = 1500 / max(1, mss). *)
Theorem C1_cwnd_starts_at_1500_bytes
    (TypeId : Type) (lookup : string -> option TypeId)
    (open_ok : string -> bool) (Seconds : double -> Z)
    (flows : string) (mss : Z) (st : Setup TypeId) :
  main_setup TypeId lookup open_ok Seconds flows mss = (st, Returns tt) ->
  (forall i c, s_ctx st !! i = Some c ->
     lastCwndBytes c = Double.d1500 /\ mssBytes c = Double.of_Z mss)
  /\ (mss = 1500 ->
      forall i c, s_ctx st !! i = Some c -> lastCwndBytes c = mssBytes c)
  /\ (forall i ev w, observes_cwnd i ev w = false ->
        lastCwndBytes <$> ctx (dispatch Seconds ev w) !! i
        = lastCwndBytes <$> ctx w !! i)
  /\ (forall duration sampleDt traffic fuel w,
        Forall (fun te => is_cwnd_change (Engine (snd te)) = false) traffic ->
        main TypeId lookup open_ok Seconds flows mss duration sampleDt traffic fuel
        = (s_log st, Returns (Some w)) ->
        forall i c, ctx w !! i = Some c ->
          lastCwndBytes c = Double.d1500
          /\ forall r, In (Sample r) (written (csv c)) ->
               r_cwndPkts r = to_packets Double.d1500 (Double.of_Z mss)).
Proof.
  intros Hsetup.
  pose proof (main_setup_returns lookup open_ok Seconds flows mss st tt Hsetup)
    as (Hlen & Hctx & Hs).
  assert (Hinit : forall i c, s_ctx st !! i = Some c -> unobserved mss c).
  { intros i c Hc. destruct (Hctx i) as (_ & a & _ & E).
    - apply lookup_lt_Some in Hc. lia.
    - rewrite E in Hc. injection Hc as <-.
      split; [reflexivity|]. split; [reflexivity|].
      intros r [Hr|[]]. discriminate Hr. }
  split; [|split; [|split]].
  - intros i c Hc. destruct (Hinit i c Hc) as (H1 & H2 & _). split; assumption.
  - intros -> i c Hc. destruct (Hinit i c Hc) as (H1 & H2 & _).
    rewrite H1, H2. reflexivity.
  - intros i ev w H. apply (dispatch_keeps_cwnd Seconds i ev w H).
  - intros duration sampleDt traffic fuel w Htr Hmain i c Hc.
    unfold main in Hmain. rewrite Hsetup in Hmain.
    destruct (run Seconds fuel (world_at_run Seconds st sampleDt duration traffic))
      as [w'|] eqn:Hrun; [|discriminate].
    injection Hmain as <-. rewrite close_all_lookup in Hc.
    destruct (ctx w' !! i) as [c'|] eqn:E; [|discriminate].
    injection Hc as <-.
    assert (Hu : unobserved mss c').
    { apply (run_unobserved Seconds mss fuel
               (world_at_run Seconds st sampleDt duration traffic) w')
        with (i := i); [|exact Hinit|exact Hrun|exact E].
      cbn [queue world_at_run]. rewrite Hs.
      apply Forall_app. split.
      - apply List.Forall_forall. intros x Hx.
        apply in_map_iff in Hx as (j & <- & _). reflexivity.
      - constructor; [reflexivity|]. constructor; [reflexivity|].
        apply List.Forall_forall. intros x Hx.
        apply in_map_iff in Hx as (te & <- & Hte).
        rewrite List.Forall_forall in Htr. apply (Htr te Hte). }
    destruct Hu as (H1 & _ & H3). split; [exact H1 | exact H3].
Qed.

Lemma C1_cwnd_starts_at_1500_bytes_witness :
  exists st c,
    main_setup string full_registry (fun _ => true) SecondsNs "Reno,BBR" 536
    = (st, Returns tt)
    /\ s_ctx st !! 1%nat = Some c
    /\ lastCwndBytes c = Double.d1500
    /\ mssBytes c = Double.of_Z 536.
Proof.
  eexists _, _. split; [vm_compute; reflexivity|]. split; [reflexivity|].
  destruct (C1_cwnd_starts_at_1500_bytes string full_registry (fun _ => true)
              SecondsNs "Reno,BBR" 536 _ eq_refl) as (H & _).
  apply (H 1%nat). reflexivity.
Defined.

(** C1, as stated, fails: with the MSS parameter at 1000 the set-up
    leaves flow 0 with [lastCwndBytes] = 1500.0 while its [mssBytes] is
    1000.0, before any hook has been attached, let alone fired. *)
Lemma C1_counterexample :
  exists st c,
    main_setup string full_registry (fun _ => true) SecondsNs "Reno" 1000
    = (st, Returns tt)
    /\ s_ctx st !! 0%nat = Some c
    /\ mssBytes c = Double.of_Z 1000
    /\ lastCwndBytes c <> mssBytes c.
Proof.
  eexists _, _. split; [vm_compute; reflexivity|]. split; [reflexivity|].
  split; [reflexivity|]. vm_compute. discriminate.
Qed.

(** ** Binary64 arithmetic *)

Module DoubleFacts.

Import Double.

(** The exponent of the last place of a number of magnitude [x]. *)
Lemma fexp_eq x : fexp prec emax x = Z.max (x - 53) (-1074).
Proof. reflexivity. Qed.

Lemma digits2_pos_log2 p : Zpos (digits2_pos p) = Z.log2 (Zpos p) + 1.
Proof.
  assert (H : forall q, digits2_pos q = Pos.size q)
    by (induction q as [q IH|q IH|]; simpl; congruence).
  destruct p as [p|p|]; simpl; rewrite ?H; lia.
Qed.

Lemma Zdigits2_nonneg m : 0 <= Zdigits2 m.
Proof. destruct m; simpl; lia. Qed.

Lemma Zdigits2_zero m : 0 <= m -> Zdigits2 m = 0 -> m = 0.
Proof. destruct m; simpl; lia. Qed.

Lemma Zdigits2_le m m' : 0 <= m <= m' -> Zdigits2 m <= Zdigits2 m'.
Proof.
  intros [H1 H2]. destruct m as [|p|p]; [apply Zdigits2_nonneg| |lia].
  destruct m' as [|p'|p']; try lia. simpl.
  rewrite !digits2_pos_log2. pose proof (Z.log2_le_mono (Zpos p) (Zpos p') H2).
  lia.
Qed.

Lemma Zdigits2_succ m : 0 <= m -> Zdigits2 (m + 1) <= Zdigits2 m + 1.
Proof.
  intros H. destruct m as [|p|p]; [simpl; lia| |lia].
  change (Zpos p + 1) with (Z.succ (Zpos p)).
  destruct (Z.succ (Zpos p)) as [|q|q] eqn:E; try lia. simpl.
  rewrite !digits2_pos_log2. rewrite <- E.
  pose proof (Z.log2_succ_le (Zpos p)). lia.
Qed.

Lemma Zdigits2_mul_pos (p q : positive) :
  Zpos (digits2_pos p) + Zpos (digits2_pos q) - 1 <= Zpos (digits2_pos (p * q))
  /\ Zpos (digits2_pos (p * q)) <= Zpos (digits2_pos p) + Zpos (digits2_pos q).
Proof.
  rewrite !digits2_pos_log2. rewrite Pos2Z.inj_mul.
  pose proof (Z.log2_mul_below (Zpos p) (Zpos q) ltac:(lia) ltac:(lia)).
  pose proof (Z.log2_mul_above (Zpos p) (Zpos q) ltac:(lia) ltac:(lia)).
  lia.
Qed.

(** One step of the right shift takes one digit off a non-negative
    mantissa. *)
Lemma shr_1_digits r :
  0 <= shr_m r ->
  0 <= shr_m (shr_1 r)
  /\ Zdigits2 (shr_m (shr_1 r)) = Z.max 0 (Zdigits2 (shr_m r) - 1).
Proof.
  destruct r as [m rb sb]. simpl. intros H.
  destruct m as [|[p|p|]|p]; simpl; try lia.
Qed.

Lemma iter_shr_1_digits n : forall r,
  0 <= shr_m r ->
  0 <= shr_m (SpecFloat.iter_pos shr_1 n r)
  /\ Zdigits2 (shr_m (SpecFloat.iter_pos shr_1 n r)) = Z.max 0 (Zdigits2 (shr_m r) - Zpos n).
Proof.
  induction n as [n IH|n IH|]; intros r H; simpl.
  - destruct (shr_1_digits r H) as [H1 E1].
    destruct (IH _ H1) as [H2 E2]. destruct (IH _ H2) as [H3 E3].
    split; [exact H3|]. rewrite E3, E2, E1. lia.
  - destruct (IH _ H) as [H2 E2]. destruct (IH _ H2) as [H3 E3].
    split; [exact H3|]. rewrite E3, E2. lia.
  - apply shr_1_digits. exact H.
Qed.

Lemma shr_record_of_loc_m m l : shr_m (shr_record_of_loc m l) = m.
Proof. destruct l as [|[]]; reflexivity. Qed.

(** The shift to the exponent of the last place, in terms of digits. *)
Lemma shr_fexp_digits m e l :
  0 <= m ->
  let n := Z.max 0 (fexp prec emax (Zdigits2 m + e) - e) in
  0 <= shr_m (fst (shr_fexp prec emax m e l))
  /\ Zdigits2 (shr_m (fst (shr_fexp prec emax m e l))) = Z.max 0 (Zdigits2 m - n)
  /\ snd (shr_fexp prec emax m e l) = e + n.
Proof.
  intros H n. unfold shr_fexp, shr. subst n.
  pose proof (Zdigits2_nonneg m) as Hd.
  destruct (fexp prec emax (Zdigits2 m + e) - e) as [|p|p] eqn:E; simpl fst; simpl snd.
  - rewrite shr_record_of_loc_m. repeat split; try lia.
  - destruct (iter_shr_1_digits p (shr_record_of_loc m l)) as [H1 E1].
    { rewrite shr_record_of_loc_m. exact H. }
    rewrite shr_record_of_loc_m in E1. repeat split; try lia.
  - rewrite shr_record_of_loc_m. repeat split; try lia.
Qed.

Lemma round_nearest_even_bounds m l :
  m <= round_nearest_even m l <= m + 1.
Proof.
  unfold round_nearest_even. destruct l as [|[]]; try lia.
  destruct (Z.even m); lia.
Qed.

(** The result of rounding a non-negative mantissa, by the number of
    digits [d3] and the exponent [e3] that the two shifts leave. *)
Lemma round_aux_spec s mx ex lx :
  0 <= mx ->
  exists d1 e1 d2 d3 e3,
    e1 = ex + Z.max 0 (Z.max (Zdigits2 mx + ex - 53) (-1074) - ex)
    /\ d1 = Z.max 0 (Zdigits2 mx - Z.max 0 (Z.max (Zdigits2 mx + ex - 53) (-1074) - ex))
    /\ d1 <= d2 <= d1 + 1
    /\ e3 = e1 + Z.max 0 (Z.max (d2 + e1 - 53) (-1074) - e1)
    /\ d3 = Z.max 0 (d2 - Z.max 0 (Z.max (d2 + e1 - 53) (-1074) - e1))
    /\ ((d3 = 0 /\ binary_round_aux prec emax s mx ex lx = S754_zero s)
        \/ (0 < d3 /\ e3 <= 971
            /\ exists m, binary_round_aux prec emax s mx ex lx = S754_finite s m e3
                         /\ Zpos (digits2_pos m) = d3)
        \/ (0 < d3 /\ 971 < e3
            /\ binary_round_aux prec emax s mx ex lx = S754_infinity s)).
Proof.
  intros H. unfold binary_round_aux.
  destruct (shr_fexp_digits mx ex lx H) as (H1 & D1 & E1).
  destruct (shr_fexp prec emax mx ex lx) as [r1 e1]. simpl fst in *. simpl snd in *.
  set (m2 := round_nearest_even (shr_m r1) (loc_of_shr_record r1)).
  pose proof (round_nearest_even_bounds (shr_m r1) (loc_of_shr_record r1)) as B.
  fold m2 in B.
  assert (H2 : 0 <= m2) by lia.
  destruct (shr_fexp_digits m2 e1 loc_Exact H2) as (H3 & D3 & E3).
  destruct (shr_fexp prec emax m2 e1 loc_Exact) as [r3 e3].
  simpl fst in *. simpl snd in *.
  rewrite fexp_eq in D1, E1, D3, E3.
  exists (Zdigits2 (shr_m r1)), e1, (Zdigits2 m2), (Zdigits2 (shr_m r3)), e3.
  split; [exact E1|]. split; [exact D1|]. split.
  { split; [apply Zdigits2_le; lia|].
    etransitivity; [apply (Zdigits2_le m2 (shr_m r1 + 1)); lia|].
    apply Zdigits2_succ. exact H1. }
  split; [exact E3|]. split; [exact D3|].
  destruct (shr_m r3) as [|m|m] eqn:M; [|simpl Zdigits2|lia].
  - left. split; reflexivity.
  - change (emax - prec) with 971.
    destruct (Z.leb_spec e3 971) as [Hle|Hgt].
    + right; left. split; [lia|]. split; [exact Hle|]. exists m. split; reflexivity.
    + right; right. split; [lia|]. split; [exact Hgt | reflexivity].
Qed.

(** Rounding a non-negative mantissa gives the sign asked for and never
    a NaN. *)
Lemma round_aux_sign s mx ex lx :
  0 <= mx ->
  binary_round_aux prec emax s mx ex lx = S754_zero s
  \/ (exists m e, binary_round_aux prec emax s mx ex lx = S754_finite s m e)
  \/ binary_round_aux prec emax s mx ex lx = S754_infinity s.
Proof.
  intros H.
  destruct (round_aux_spec s mx ex lx H)
    as (d1 & e1 & d2 & d3 & e3 & _ & _ & _ & _ & _ & [[_ R]|[(_ & _ & m & R & _)|(_ & _ & R)]]).
  - left. exact R.
  - right; left. eauto.
  - right; right. exact R.
Qed.

(** No overflow below [2^1023]. *)
Lemma round_aux_finite s mx ex lx :
  0 <= mx -> ex <= 971 -> Zdigits2 mx + ex <= 1023 ->
  binary_round_aux prec emax s mx ex lx = S754_zero s
  \/ exists m e, binary_round_aux prec emax s mx ex lx = S754_finite s m e
                 /\ e <= 971
                 /\ Zpos (digits2_pos m) + e <= Z.max (Zdigits2 mx + ex) (-1074) + 1.
Proof.
  intros H He Hd.
  pose proof (Zdigits2_nonneg mx) as Hn.
  destruct (round_aux_spec s mx ex lx H)
    as (d1 & e1 & d2 & d3 & e3 & E1 & D1 & D2 & E3 & D3 &
        [[_ R]|[(P3 & L3 & m & R & M)|(P3 & L3 & R)]]).
  - left. exact R.
  - right. exists m, e3. split; [exact R|]. split; [exact L3|]. lia.
  - exfalso. lia.
Qed.

(** No underflow to zero from [2^(-1074)] on. *)
Lemma round_aux_nonzero s mx ex lx :
  0 < mx -> -1073 <= Zdigits2 mx + ex ->
  binary_round_aux prec emax s mx ex lx <> S754_zero s.
Proof.
  intros H Hd.
  assert (Hn : 0 < Zdigits2 mx) by (destruct mx; simpl; lia).
  destruct (round_aux_spec s mx ex lx ltac:(lia))
    as (d1 & e1 & d2 & d3 & e3 & E1 & D1 & D2 & E3 & D3 &
        [[Z3 R]|[(P3 & L3 & m & R & M)|(P3 & L3 & R)]]).
  - exfalso. lia.
  - rewrite R. discriminate.
  - rewrite R. discriminate.
Qed.

Lemma iter_xO_digits mx d :
  Zpos (digits2_pos (Pos.iter xO mx d)) = Zpos (digits2_pos mx) + Zpos d.
Proof.
  induction d as [|d IH] using Pos.peano_ind.
  - simpl. lia.
  - rewrite Pos.iter_succ. simpl digits2_pos. lia.
Qed.

Lemma shl_align_digits mx ex ex' :
  snd (shl_align mx ex ex') <= ex
  /\ Zpos (digits2_pos (fst (shl_align mx ex ex'))) + snd (shl_align mx ex ex')
     = Zpos (digits2_pos mx) + ex.
Proof.
  unfold shl_align. destruct (ex' - ex) as [|d|d] eqn:E; simpl; try lia.
  rewrite iter_xO_digits. lia.
Qed.

Lemma digits_uint64 p : Zpos p < 2 ^ 64 -> Zpos (digits2_pos p) <= 64.
Proof.
  intros H. rewrite digits2_pos_log2.
  pose proof (proj1 (Z.log2_lt_pow2 (Zpos p) 64 ltac:(lia)) H). lia.
Qed.

(** A [uint64_t] converts to a finite [double] that is not negative. *)
Lemma of_Z_uint64 z :
  0 <= z < 2 ^ 64 ->
  of_Z z = zero
  \/ exists m e, of_Z z = S754_finite false m e /\ e <= 971
                 /\ Zpos (digits2_pos m) + e <= 65.
Proof.
  intros [H0 H1]. destruct z as [|p|p]; [left; reflexivity| |lia].
  right. unfold of_Z, binary_normalize, binary_round.
  pose proof (shl_align_digits p 0 (fexp prec emax (Zpos (digits2_pos p) + 0)))
    as [A1 A2].
  destruct (shl_align p 0 (fexp prec emax (Zpos (digits2_pos p) + 0))) as [mz ez].
  simpl fst in *. simpl snd in *.
  pose proof (digits_uint64 p H1) as Hd.
  destruct (round_aux_finite false (Zpos mz) ez loc_Exact) as [R|(m & e & R & L & M)];
    try (simpl Zdigits2; lia).
  - exfalso. apply (round_aux_nonzero false (Zpos mz) ez loc_Exact);
      [lia | simpl Zdigits2; lia | exact R].
  - exists m, e. split; [exact R|]. split; [exact L|]. simpl Zdigits2 in M. lia.
Qed.

(** [delta * 8.0] is finite and not negative. *)
Lemma mul8_finite_nonneg z :
  0 <= z < 2 ^ 64 -> finite_nonneg (mul (of_Z z) d8) = true.
Proof.
  intros H. destruct (of_Z_uint64 z H) as [->|(m & e & -> & L & M)];
    [reflexivity|].
  unfold mul, d8, SFmul. cbn [xorb].
  pose proof (Zdigits2_mul_pos m 4503599627370496) as [_ Hm].
  change (Zpos (digits2_pos 4503599627370496)) with 53 in Hm.
  destruct (round_aux_finite false (Zpos (m * 4503599627370496)) (e + -49) loc_Exact)
    as [R|(m' & e' & R & _)]; try (simpl Zdigits2; lia);
    rewrite R; reflexivity.
Qed.

(** [0 * 8.0] is [+0]. *)
Lemma mul8_zero : mul (of_Z 0) d8 = zero.
Proof. reflexivity. Qed.

(** A valid [double] above zero stays above zero when scaled by [1e6]. *)
Lemma mul1e6_positive x :
  valid x = true -> ltb zero x = true -> positive_double (mul x d1e6) = true.
Proof.
  intros Hv Hp. destruct x as [s|[|]| |[|] m e]; try discriminate Hp.
  - reflexivity.
  - unfold valid, valid_binary, bounded, canonical_mantissa in Hv.
    apply andb_prop in Hv as [Hc _]. apply Z.eqb_eq in Hc.
    rewrite fexp_eq in Hc.
    unfold mul, d1e6, SFmul. cbn [xorb].
    pose proof (Zdigits2_mul_pos m 8589934592000000) as [Hm _].
    change (Zpos (digits2_pos 8589934592000000)) with 53 in Hm.
    pose proof (round_aux_nonzero false (Zpos (m * 8589934592000000)) (e + -33)
                  loc_Exact ltac:(lia) ltac:(simpl Zdigits2; lia)) as Hnz.
    destruct (round_aux_sign false (Zpos (m * 8589934592000000)) (e + -33) loc_Exact)
      as [R|[(m' & e' & R)|R]]; [lia| | |]; try (rewrite R; reflexivity).
    contradiction.
Qed.

(** A finite non-negative number over a positive one is not negative
    and not a NaN. *)
Lemma div_nonneg x y :
  finite_nonneg x = true -> positive_double y = true ->
  nonneg_double (div x y) = true.
Proof.
  intros Hx Hy.
  destruct x as [sx|sx| |[|] mx ex]; try discriminate Hx;
    destruct y as [sy|[|]| |[|] my ey]; try discriminate Hy; try reflexivity.
  unfold div, SFdiv. cbn [xorb].
  destruct (SFdiv_core_binary prec emax (Zpos mx) ex (Zpos my) ey) as [[mz ez] lz] eqn:E.
  assert (Hz : 0 <= mz).
  { unfold SFdiv_core_binary in E.
    set (m' := match _ - _ - _ with Z0 => _ | Zpos _ => _ | Zneg _ => _ end) in E.
    assert (Hm' : 0 <= m').
    { subst m'. destruct (_ - _ - _); try lia. apply Z.shiftl_nonneg. lia. }
    pose proof (Z.div_pos m' (Zpos my) Hm' ltac:(lia)) as Hq.
    unfold Z.div in Hq. destruct (Z.div_eucl m' (Zpos my)) as [q r].
    injection E as <- _ _. exact Hq. }
  destruct (round_aux_sign false mz ez lz Hz) as [R|[(m' & e' & R)|R]];
    rewrite R; reflexivity.
Qed.

(** [+0] over a positive number is [+0]. *)
Lemma div_zero_positive y :
  positive_double y = true -> div zero y = zero.
Proof. destruct y as [sy|[|]| |[|] my ey]; try discriminate; reflexivity. Qed.

Lemma nonneg_leb x : nonneg_double x = true -> leb zero x = true.
Proof. destruct x as [s|[|]| |[|] m e]; try discriminate; reflexivity. Qed.

Lemma nonneg_not_nan x : nonneg_double x = true -> is_nan x = false.
Proof. destruct x as [s|[|]| |[|] m e]; try discriminate; reflexivity. Qed.

(** The divisor of the packet conversions is at least one. *)
Lemma max_d1_ge m : leb d1 (max d1 m) = true.
Proof.
  unfold max, ltb, leb, SFltb, SFleb.
  destruct (SFcompare d1 m) as [[]|] eqn:E; try reflexivity; rewrite E; reflexivity.
Qed.

Lemma ge_d1_positive x : leb d1 x = true -> positive_double x = true.
Proof. destruct x as [s|[|]| |[|] m e]; try discriminate; reflexivity. Qed.

Lemma positive_not_zero x : positive_double x = true -> eqb x zero = false.
Proof. destruct x as [s|[|]| |[|] m e]; try discriminate; reflexivity. Qed.

End DoubleFacts.

(** ** The values of a row *)

Import DoubleFacts.

Lemma router_packets_fold w l : forall a,
  0 <= a < 2 ^ 32 ->
  fold_left (fun routerPkts qd =>
               match qd with
               | Some q => wrap32 (routerPkts + GetNPackets w q)
               | None => routerPkts
               end) l a
  = (a + sum_list (omap (fun qd => match qd with
                                   | Some q => Some (GetNPackets w q)
                                   | None => None
                                   end) l)) mod 2 ^ 32.
Proof.
  induction l as [|[q|] l IH]; intros a Ha; simpl.
  - rewrite Z.add_0_r, Z.mod_small by lia. reflexivity.
  - rewrite IH by apply wrap32_range. unfold wrap32.
    rewrite Z.add_mod_idemp_l by lia. f_equal. rewrite Z.add_assoc. reflexivity.
  - apply IH. exact Ha.
Qed.

Lemma router_packets_sum w :
  router_packets w = sum_list (queue_counts w) mod 2 ^ 32.
Proof.
  unfold router_packets, queue_counts.
  rewrite router_packets_fold by lia. reflexivity.
Qed.

Lemma queue_counts_nonneg w : 0 <= sum_list (queue_counts w).
Proof.
  unfold queue_counts. generalize (gQdiscs w). intros l.
  induction l as [|[q|] l IH].
  - simpl. lia.
  - set (f := fun qd : option nat =>
                match qd with
                | Some q => Some (GetNPackets w q)
                | None => None
                end) in *.
    change (0 <= GetNPackets w q + sum_list (omap f l)).
    pose proof (wrap32_range (default 0 (nPackets w !! q))) as H.
    unfold is_uint32 in H. unfold GetNPackets at 1. lia.
  - exact IH.
Qed.

(** C5: at a firing of the sampler the buffer column is one scalar, the
    sum of the packet counts of all the bottleneck queue discs (in
    32-bit arithmetic, hence the plain sum whenever that is below 2^32),
    and every open sink receives exactly one new row, which carries that
    same aggregate value whatever the flow's own queue holds. *)
Theorem C5_buffer_column_is_aggregate
    (Seconds : double -> Z) (sampleDt : double) (w : World) :
  router_packets w = sum_list (queue_counts w) mod 2 ^ 32
  /\ (sum_list (queue_counts w) < 2 ^ 32 ->
      router_packets w = sum_list (queue_counts w))
  /\ forall i c, ctx w !! i = Some c -> is_open (csv c) = true ->
       exists c' r,
         ctx (DoSample Seconds sampleDt w) !! i = Some c'
         /\ written (csv c') = written (csv c) ++ [Sample r]
         /\ r_routerPkts r = router_packets w.
Proof.
  split; [apply router_packets_sum|]. split.
  - intros H. rewrite router_packets_sum. apply Z.mod_small.
    pose proof (queue_counts_nonneg w). lia.
  - intros i c Hc Ho. rewrite DoSample_ctx, Hc.
    exists (sampled sampleDt (router_packets w) w i c),
           (sample_row sampleDt (router_packets w) i c w).
    split; [reflexivity|]. unfold sampled, put. rewrite Ho.
    split; reflexivity.
Qed.

Lemma C5_buffer_column_is_aggregate_witness :
  queue_counts example_world = [3; 5]
  /\ router_packets example_world = 8
  /\ exists c0 r0 c1 r1,
       ctx (DoSample SecondsNs d0_1 example_world) !! 0%nat = Some c0
       /\ written (csv c0) = [Text header; Sample r0] /\ r_routerPkts r0 = 8
       /\ ctx (DoSample SecondsNs d0_1 example_world) !! 1%nat = Some c1
       /\ written (csv c1) = [Text header; Sample r1] /\ r_routerPkts r1 = 8.
Proof.
  destruct (C5_buffer_column_is_aggregate SecondsNs d0_1 example_world)
    as (_ & Hsum & Hrows).
  split; [vm_compute; reflexivity|].
  assert (E : router_packets example_world = 8)
    by (rewrite Hsum; vm_compute; reflexivity).
  split; [exact E|].
  destruct (Hrows 0%nat _ eq_refl eq_refl) as (c0 & r0 & H0 & W0 & R0).
  destruct (Hrows 1%nat _ eq_refl eq_refl) as (c1 & r1 & H1 & W1 & R1).
  exists c0, r0, c1, r1. rewrite E in R0, R1.
  repeat split; assumption.
Defined.

(** C8: in every row the congestion window and the in-flight size are
    divided by max(1.0, mssBytes).  Whatever [mssBytes] holds, that
    divisor is a number that is at least 1, so never zero and never a
    NaN; for an MSS parameter of 0 it is exactly 1.  The conversion of a
    byte count is therefore always a non-negative number. *)
Theorem C8_packet_conversion_divisor
    (sampleDt : double) (routerPkts : Z) (i : nat) (c : FlowCtx) (w : World) :
  let r := sample_row sampleDt routerPkts i c w in
  let divisor := Double.max Double.d1 (mssBytes c) in
  r_cwndPkts r = Double.div (lastCwndBytes c) divisor
  /\ r_inflPkts r = Double.div (inflightBytes c) divisor
  /\ Double.leb Double.d1 divisor = true
  /\ Double.eqb divisor Double.zero = false
  /\ Double.is_nan divisor = false
  /\ Double.max Double.d1 (Double.of_Z 0) = Double.d1
  /\ forall bytes, is_uint32 bytes ->
       nonneg_double (to_packets (Double.of_Z bytes) (mssBytes c)) = true.
Proof.
  intros r divisor.
  assert (Hge : Double.leb Double.d1 divisor = true) by apply max_d1_ge.
  pose proof (ge_d1_positive divisor Hge) as Hpos.
  split; [reflexivity|]. split; [reflexivity|]. split; [exact Hge|].
  split; [apply positive_not_zero; exact Hpos|].
  split; [destruct divisor as [s|[|]| |[|] m e]; try discriminate Hpos; reflexivity|].
  split; [reflexivity|].
  intros bytes Hb. unfold to_packets, mss_divisor. fold divisor.
  apply div_nonneg; [|exact Hpos].
  destruct (of_Z_uint64 bytes) as [->|(m & e & -> & _)];
    [unfold is_uint32 in Hb; lia | reflexivity | reflexivity].
Qed.

Lemma C8_packet_conversion_divisor_witness :
  nonneg_double (to_packets (Double.of_Z 3000) (Double.of_Z 0)) = true
  /\ to_packets (Double.of_Z 3000) (Double.of_Z 0) = Double.of_Z 3000.
Proof.
  split; [|vm_compute; reflexivity].
  destruct (C8_packet_conversion_divisor d0_1 0 0%nat
              (set_mssBytes (Double.of_Z 0) FlowCtx_default) example_world)
    as (_ & _ & _ & _ & _ & _ & H).
  apply (H 3000). unfold is_uint32. lia.
Defined.

(** ** Throughput *)

Lemma rx_delta_max cur prev : rx_delta cur prev = Z.max 0 (cur - prev).
Proof. unfold rx_delta. destruct (Z.geb_spec cur prev); lia. Qed.

Lemma rx_delta_uint64 cur prev :
  is_uint64 cur -> is_uint64 prev -> is_uint64 (rx_delta cur prev).
Proof. unfold is_uint64. rewrite rx_delta_max. lia. Qed.

(** For a positive period the throughput is a number that is not
    negative, and [+0] when nothing was received. *)
Lemma throughput_nonneg delta sampleDt :
  is_uint64 delta ->
  Double.valid sampleDt = true -> Double.ltb Double.zero sampleDt = true ->
  nonneg_double (throughput_mbps delta sampleDt) = true
  /\ (delta = 0 -> throughput_mbps delta sampleDt = Double.zero).
Proof.
  intros Hd Hv Hp. unfold throughput_mbps.
  pose proof (mul1e6_positive sampleDt Hv Hp) as Hden. split.
  - apply div_nonneg; [apply mul8_finite_nonneg; exact Hd | exact Hden].
  - intros ->. rewrite mul8_zero. apply div_zero_positive. exact Hden.
Qed.

Lemma fold_traces_rx (f : World -> nat * nat -> World) l : forall w,
  (forall a b, gRxBytes (f a b) = gRxBytes a
               /\ gRxBytesPrev (f a b) = gRxBytesPrev a) ->
  gRxBytes (fold_left f l w) = gRxBytes w
  /\ gRxBytesPrev (fold_left f l w) = gRxBytesPrev w.
Proof.
  induction l as [|b l IH]; intros w Hf; simpl; [split; reflexivity|].
  destruct (IH (f w b) Hf) as [E1 E2]. destruct (Hf w b) as [F1 F2].
  split; congruence.
Qed.

(** The counters stay within [uint64_t] under every event. *)
Lemma engine_step_rx_wf e w : rx_wf w -> rx_wf (engine_step e w).
Proof.
  intros H. destruct e as [node sock|sock o n|sock o n|idx size|q n]; simpl;
    try exact H.
  - destruct (fold_traces_rx
                (fun w sc => if Nat.eqb (fst sc) sock
                             then CwndTrace (snd sc) (wrap32 o) (wrap32 n) w
                             else w) (cwndSinks w) w) as [E1 E2].
    { intros a b. destruct (Nat.eqb _ _); split; reflexivity. }
    unfold rx_wf. rewrite E1, E2. exact H.
  - destruct (fold_traces_rx
                (fun w sc => if Nat.eqb (fst sc) sock
                             then InflightTrace (snd sc) (wrap32 o) (wrap32 n) w
                             else w) (inflightSinks w) w) as [E1 E2].
    { intros a b. destruct (Nat.eqb _ _); split; reflexivity. }
    unfold rx_wf. rewrite E1, E2. exact H.
  - intros i. unfold RxTrace. cbn [gRxBytes gRxBytesPrev with_gRxBytes].
    split; [|apply H]. rewrite map_at_insert.
    destruct (decide (idx = i)); [apply wrap64_range | apply H].
Qed.

Section ThroughputFacts.

Variable Seconds : double -> Z.

Lemma DoSample_rx_wf dt w : rx_wf w -> rx_wf (DoSample Seconds dt w).
Proof.
  intros H i. unfold DoSample, Schedule. cbn [gRxBytes gRxBytesPrev with_queue].
  destruct (sample_loop_counters dt (router_packets w) (length (ctx w)) 0 w i)
    as [E1 E2].
  rewrite E1, E2. split; [apply H|].
  destruct (decide _); apply H.
Qed.

Lemma dispatch_rx_wf ev w : rx_wf w -> rx_wf (dispatch Seconds ev w).
Proof.
  intros H. destruct ev as [e|s c|dt|]; cbn [dispatch].
  - apply engine_step_rx_wf. exact H.
  - exact H.
  - apply DoSample_rx_wf. exact H.
  - exact H.
Qed.

(** With a positive period, a firing keeps the throughput of every row
    non-negative. *)
Lemma dispatch_rows_nonneg ev w :
  (forall dt, ev = CallDoSample dt ->
     Double.valid dt = true /\ Double.ltb Double.zero dt = true) ->
  rx_wf w -> rows_nonneg w -> rows_nonneg (dispatch Seconds ev w).
Proof.
  intros Hdt Hwf H. destruct (passive ev) eqn:Hp.
  - destruct (passive_quiet Seconds ev w Hp) as (_ & _ & _ & Q & _).
    intros i c' r Hc' Hr.
    destruct (same_csv_lookup _ _ i c' Q Hc') as (c & Hc & E).
    rewrite E in Hr. apply (H i c r Hc Hr).
  - destruct ev as [e|s c|dt|]; try discriminate; cbn [dispatch]; [|exact H].
    destruct (Hdt dt eq_refl) as [Hv Hpos].
    intros i c' r Hc' Hr. rewrite DoSample_ctx in Hc'.
    destruct (ctx w !! i) as [c|] eqn:Hc; [|discriminate].
    injection Hc' as <-. unfold sampled, put in Hr.
    destruct (is_open (csv c)); cbn [csv set_csv written] in Hr;
      [|apply (H i c r Hc Hr)].
    apply in_app_or in Hr as [Hr|[Hr|[]]]; [apply (H i c r Hc Hr)|].
    injection Hr as <-. cbn [sample_row r_thrMbps].
    destruct (Hwf i) as [Hcur Hprev].
    apply (throughput_nonneg _ dt (rx_delta_uint64 _ _ Hcur Hprev) Hv Hpos).
Qed.

(** In a run whose sampler calls all carry a positive period, every
    row ever written has a non-negative throughput. *)
Lemma run_rows_nonneg fuel w w' :
  Forall (fun te => forall dt, snd te = CallDoSample dt ->
            Double.valid dt = true /\ Double.ltb Double.zero dt = true)
         (queue w) ->
  rx_wf w -> rows_nonneg w ->
  run Seconds fuel w = Some w' -> rows_nonneg w'.
Proof.
  intros Hq Hwf Hrows Hrun.
  apply (run_invariant Seconds
           (fun w => Forall (fun te => forall dt, snd te = CallDoSample dt ->
                               Double.valid dt = true
                               /\ Double.ltb Double.zero dt = true) (queue w)
                     /\ rx_wf w /\ rows_nonneg w))
    in Hrun; [apply Hrun | | split; [exact Hq | split; [exact Hwf | exact Hrows]]].
  clear. intros w t ev rest (Hq & Hwf & Hrows) _ Hn.
  apply next_event_spec in Hn as (q1 & q2 & E & -> & _).
  rewrite E in Hq. apply Forall_app in Hq as [Hq1 Hq2].
  apply Forall_cons in Hq2 as [Hev Hq2]. simpl in Hev.
  assert (Hrest : Forall (fun te => forall dt, snd te = CallDoSample dt ->
                            Double.valid dt = true
                            /\ Double.ltb Double.zero dt = true) (q1 ++ q2))
    by (apply Forall_app; split; assumption).
  set (w1 := with_now t (with_queue (q1 ++ q2) w)).
  assert (W1 : queue w1 = q1 ++ q2) by reflexivity.
  assert (Hwf1 : rx_wf w1) by exact Hwf.
  assert (Hrows1 : rows_nonneg w1) by exact Hrows.
  clearbody w1.
  split; [|split; [apply dispatch_rx_wf; exact Hwf1
                  |apply dispatch_rows_nonneg; assumption]].
  destruct (passive ev) eqn:Hp.
  - destruct (passive_quiet Seconds ev w1 Hp) as (Q1 & _).
    rewrite Q1, W1. exact Hrest.
  - destruct ev as [e|s c|dt|]; try discriminate; cbn [dispatch].
    + destruct (DoSample_engine Seconds dt w1) as (D1 & _).
      rewrite D1, W1. apply Forall_app. split; [exact Hrest|].
      constructor; [|constructor]. simpl. intros dt' Edt.
      injection Edt as <-. apply Hev. reflexivity.
    + cbn [queue with_stopped]. rewrite W1. exact Hrest.
Qed.

End ThroughputFacts.

(** C3, as amended: at a firing, for each flow [i] the sampler takes
    delta = max(0, current[i] - previous[i]), which is 0 when the counter
    is seen to have decreased, leaves previous[i] equal to current[i],
    and writes throughput_mbps = delta * 8 / (Δt * 1e6) in binary64
    arithmetic.  For a positive period Δt the value is a number that is
    at least 0 for every 64-bit delta, and +0 whenever delta is 0; hence
    every throughput value that a run with a positive period has written
    to any sink is at least 0. *)
Theorem C3_throughput_from_counter_delta
    (Seconds : double -> Z) (sampleDt : double) :
  (forall (w : World) (i : nat) (c : FlowCtx),
     ctx w !! i = Some c ->
     let cur := map_at (gRxBytes w) i in
     let prev := map_at (gRxBytesPrev w) i in
     let delta := rx_delta cur prev in
     let w' := DoSample Seconds sampleDt w in
     let r := sample_row sampleDt (router_packets w) i c w in
     delta = Z.max 0 (cur - prev)
     /\ (cur < prev -> delta = 0)
     /\ map_at (gRxBytesPrev w') i = cur
     /\ map_at (gRxBytes w') i = cur
     /\ ctx w' !! i = Some (set_csv (put (csv c) (Sample r)) c)
     /\ r_thrMbps r =
          Double.div (Double.mul (Double.of_Z delta) Double.d8)
                     (Double.mul sampleDt Double.d1e6))
  /\ (Double.valid sampleDt = true ->
      Double.ltb Double.zero sampleDt = true ->
      (forall delta, is_uint64 delta ->
         Double.leb Double.zero (throughput_mbps delta sampleDt) = true
         /\ Double.is_nan (throughput_mbps delta sampleDt) = false
         /\ (delta = 0 -> throughput_mbps delta sampleDt = Double.zero))
      /\ (forall (TypeId : Type) (lookup : string -> option TypeId)
                 (open_ok : string -> bool) (flows : string) (mss duration : Z)
                 (traffic : list (Z * engine_event)) (fuel : nat)
                 (st : Setup TypeId) (w : World),
            main_setup TypeId lookup open_ok Seconds flows mss = (st, Returns tt) ->
            main TypeId lookup open_ok Seconds flows mss duration sampleDt
                 traffic fuel = (s_log st, Returns (Some w)) ->
            forall i c r, ctx w !! i = Some c ->
              In (Sample r) (written (csv c)) ->
              Double.leb Double.zero (r_thrMbps r) = true)).
Proof.
  split.
  - intros w i c Hc cur prev delta w' r.
    destruct (DoSample_counters Seconds sampleDt w i) as [K1 K2].
    split; [apply rx_delta_max|]. split.
    { intros H. subst delta. rewrite rx_delta_max. lia. }
    split; [apply K2; apply lookup_lt_Some in Hc; exact Hc|].
    split; [exact K1|].
    split; [subst w'; rewrite DoSample_ctx, Hc; reflexivity | reflexivity].
  - intros Hv Hp. split.
    + intros delta Hd.
      destruct (throughput_nonneg delta sampleDt Hd Hv Hp) as [H1 H2].
      split; [apply nonneg_leb; exact H1|].
      split; [apply nonneg_not_nan; exact H1 | exact H2].
    + intros TypeId lookup open_ok flows mss duration traffic fuel st w
             Hsetup Hmain i c r Hc Hr.
      unfold main in Hmain. rewrite Hsetup in Hmain.
      destruct (run Seconds fuel (world_at_run Seconds st sampleDt duration traffic))
        as [w1|] eqn:Hrun; [|discriminate].
      injection Hmain as <-. rewrite close_all_lookup in Hc.
      destruct (ctx w1 !! i) as [c1|] eqn:E; [|discriminate].
      injection Hc as <-. cbn [csv set_csv written] in Hr.
      pose proof (main_setup_returns lookup open_ok Seconds flows mss st tt Hsetup)
        as (Hlen & Hctx & Hs).
      apply nonneg_leb.
      apply (run_rows_nonneg Seconds fuel
               (world_at_run Seconds st sampleDt duration traffic) w1)
        with (i := i) (c := c1); try assumption.
      * cbn [queue world_at_run]. rewrite Hs.
        apply Forall_app. split.
        { apply List.Forall_forall. intros x Hx.
          apply in_map_iff in Hx as (j & <- & _). discriminate. }
        constructor.
        { simpl. intros dt Edt. injection Edt as <-. split; assumption. }
        constructor; [discriminate|].
        apply List.Forall_forall. intros x Hx.
        apply in_map_iff in Hx as (te & <- & _). discriminate.
      * intros j. unfold map_at. cbn [gRxBytes gRxBytesPrev world_at_run].
        rewrite lookup_empty. unfold is_uint64. simpl. lia.
      * intros j cj rj Hcj Hrj. cbn [ctx world_at_run] in Hcj.
        destruct (Hctx j) as (_ & a & _ & Ej).
        { apply lookup_lt_Some in Hcj. lia. }
        rewrite Ej in Hcj. injection Hcj as <-.
        destruct Hrj as [Hrj|[]]. discriminate Hrj.
Qed.

Lemma C3_throughput_from_counter_delta_witness :
  rx_delta (map_at (gRxBytes example_world) 1) (map_at (gRxBytesPrev example_world) 1)
  = 3000
  /\ map_at (gRxBytesPrev (DoSample SecondsNs d0_1 example_world)) 1 = 3000
  /\ Double.leb Double.zero (throughput_mbps 3000 d0_1) = true
  /\ throughput_mbps 0 d0_1 = Double.zero.
Proof.
  destruct (C3_throughput_from_counter_delta SecondsNs d0_1) as [Hfire Hpos].
  destruct (ctx example_world !! 1%nat) as [c|] eqn:Hc; [|discriminate Hc].
  destruct (Hfire example_world 1%nat c Hc) as (_ & _ & Hprev & _).
  destruct Hpos as [Hthr _]; [reflexivity | reflexivity |].
  split; [vm_compute; reflexivity|].
  split; [rewrite Hprev; vm_compute; reflexivity|].
  split.
  - apply (Hthr 3000). vm_compute. split; [discriminate | reflexivity].
  - apply (Hthr 0); [vm_compute; split; [discriminate | reflexivity] | reflexivity].
Defined.

(** C3, as stated, fails: with sampleDt = 0 the sampler is queued for
    time 0 and is the first event of the run; nothing has been received,
    so delta is 0, and the row it writes holds 0 * 8 / (0 * 1e6), a NaN,
    which is neither 0 nor at least 0. *)
Lemma C3_counterexample :
  let st := fst (main_setup string full_registry (fun _ => true) SecondsNs
                   "Reno" 1500) in
  let w := world_at_run SecondsNs st Double.zero 20 [] in
  exists rest c r,
    next_event (queue w) = Some (0, CallDoSample Double.zero, rest)
    /\ rx_delta (map_at (gRxBytes w) 0) (map_at (gRxBytesPrev w) 0) = 0
    /\ ctx (dispatch SecondsNs (CallDoSample Double.zero)
              (with_now 0 (with_queue rest w))) !! 0%nat = Some c
    /\ written (csv c) = [Text header; Sample r]
    /\ r_thrMbps r = S754_nan
    /\ Double.leb Double.zero (r_thrMbps r) = false
    /\ Double.eqb (r_thrMbps r) Double.zero = false.
Proof.
  eexists _, _, _. split; [vm_compute; reflexivity|].
  split; [reflexivity|]. split; [vm_compute; reflexivity|].
  split; [reflexivity|]. split; [reflexivity|]. split; reflexivity.
Qed.

(** * Further properties of the program *)

(** ** [Split] *)

Lemma fields_nonempty s d : fields s d <> [].
Proof.
  destruct s as [|c r]; simpl; [discriminate|].
  destruct (Ascii.eqb c d); [discriminate|].
  destruct (fields r d); discriminate.
Qed.

Lemma fields_no_delimiter s d :
  Forall (fun x => has_char d x = false) (fields s d).
Proof.
  induction s as [|c r IH]; simpl.
  - constructor; [reflexivity | constructor].
  - destruct (Ascii.eqb c d) eqn:E.
    + constructor; [reflexivity | exact IH].
    + destruct (fields r d) as [|x xs]; [constructor; [|constructor]|].
      * simpl. rewrite E. reflexivity.
      * apply Forall_cons in IH as [Hx Hxs].
        constructor; [|exact Hxs]. simpl. rewrite E. exact Hx.
Qed.

(** The characters of [s] are those of its fields plus one delimiter
    between consecutive fields. *)
Lemma fields_length s d :
  (fold_right (fun x n => String.length x + n) 0 (fields s d)
   + length (fields s d) = S (String.length s))%nat.
Proof.
  induction s as [|c r IH]; simpl; [reflexivity|].
  destruct (Ascii.eqb c d); simpl; [lia|].
  pose proof (fields_nonempty r d) as Hne.
  destruct (fields r d) as [|x xs]; [contradiction|]. simpl in *. lia.
Qed.

Lemma filter_nonempty_count l :
  (length (List.filter nonempty l)
   <= fold_right (fun x n => String.length x + n) 0 l)%nat.
Proof.
  induction l as [|x l IH]; simpl; [lia|].
  destruct x as [|c x]; simpl; lia.
Qed.

Lemma fields_app s1 s2 d :
  fields (s1 +:+ String d s2) d = fields s1 d ++ fields s2 d.
Proof.
  induction s1 as [|c r IH]; simpl.
  - rewrite Ascii.eqb_refl. reflexivity.
  - destruct (Ascii.eqb c d); [rewrite IH; reflexivity|].
    rewrite IH. pose proof (fields_nonempty r d) as Hne.
    destruct (fields r d) as [|x xs]; [contradiction | reflexivity].
Qed.

Lemma fields_token d t : has_char d t = false -> fields t d = [t].
Proof.
  induction t as [|c r IH]; simpl; [reflexivity|].
  intros H. apply orb_false_iff in H as [Hc Hr]. rewrite Hc, (IH Hr).
  reflexivity.
Qed.

Lemma Split_app s1 s2 d :
  Split (s1 +:+ String d s2) d = Split s1 d ++ Split s2 d.
Proof. rewrite !Split_fields, fields_app. apply List.filter_app. Qed.

Lemma Split_token d t : token_ok d t -> Split t d = [t].
Proof.
  intros [Hne Hd]. rewrite Split_fields, (fields_token d t Hd).
  destruct t; [contradiction | reflexivity].
Qed.

Lemma Split_tokens_ok s d : Forall (token_ok d) (Split s d).
Proof.
  rewrite Split_fields. apply List.Forall_forall. intros t Ht.
  apply filter_In in Ht as [Hin Hne]. split.
  - destruct t; [discriminate | discriminate].
  - pose proof (fields_no_delimiter s d) as H.
    rewrite List.Forall_forall in H. apply H. exact Hin.
Qed.

Lemma Split_leading_delimiter s d : Split (String d s) d = Split s d.
Proof.
  pose proof (Split_app EmptyString s d) as E.
  change (EmptyString +:+ String d s) with (String d s) in E.
  rewrite E. reflexivity.
Qed.

Lemma Split_join d ts : Forall (token_ok d) ts -> Split (join d ts) d = ts.
Proof.
  induction 1 as [|t ts Ht Hts IH]; [reflexivity|].
  destruct ts as [|t' ts].
  - simpl. apply Split_token. exact Ht.
  - change (join d (t :: t' :: ts)) with (t +:+ String d (join d (t' :: ts))).
    rewrite Split_app, IH, (Split_token d t Ht). reflexivity.
Qed.

(** X1: every token that [Split] returns is non-empty and free of the
    delimiter, the tokens are at most as many as the characters of the
    input, and an input without any character other than the delimiter
    gives no token at all. *)
Theorem X1_split_tokens_well_formed (s : string) (d : ascii) :
  Forall (token_ok d) (Split s d)
  /\ (length (Split s d) <= String.length s)%nat
  /\ (Split s d = [] <-> forall t, In t (fields s d) -> t = EmptyString).
Proof.
  split; [apply Split_tokens_ok|split].
  - rewrite Split_fields.
    pose proof (filter_nonempty_count (fields s d)) as H1.
    pose proof (fields_length s d) as H2.
    pose proof (fields_nonempty s d) as H3.
    destruct (fields s d); [contradiction|]. simpl in *. lia.
  - rewrite Split_fields. split.
    + intros E t Ht. destruct t as [|c t]; [reflexivity|]. exfalso.
      assert (Hin : In (String c t) (List.filter nonempty (fields s d)))
        by (apply filter_In; split; [exact Ht | reflexivity]).
      rewrite E in Hin. exact Hin.
    + intros H. induction (fields s d) as [|x l IH]; [reflexivity|].
      simpl. rewrite (H x (or_introl eq_refl)). simpl.
      apply IH. intros t Ht. apply H. right. exact Ht.
Qed.

Lemma X1_split_tokens_well_formed_witness :
  Forall (token_ok ",") (Split ",Reno,,Cubic," ",")
  /\ Split ",,," "," = [].
Proof.
  destruct (X1_split_tokens_well_formed ",Reno,,Cubic," ",") as (H & _ & _).
  destruct (X1_split_tokens_well_formed ",,," ",") as (_ & _ & E).
  split; [exact H|]. apply E. intros t Ht. vm_compute in Ht.
  repeat (destruct Ht as [<-|Ht]; [reflexivity|]). destruct Ht.
Defined.

(** X2: splitting distributes over a delimiter: the tokens of
    [s1 d s2] are those of [s1] followed by those of [s2]; a delimiter
    in front, at the end, or doubled therefore changes nothing. *)
Theorem X2_split_distributes_over_delimiter (s1 s2 : string) (d : ascii) :
  Split (s1 +:+ String d s2) d = Split s1 d ++ Split s2 d
  /\ Split (String d s2) d = Split s2 d
  /\ Split (s1 +:+ String d EmptyString) d = Split s1 d
  /\ Split (s1 +:+ String d (String d s2)) d = Split (s1 +:+ String d s2) d.
Proof.
  split; [apply Split_app|]. split; [|split].
  - apply Split_leading_delimiter.
  - rewrite Split_app. apply app_nil_r.
  - rewrite !Split_app, Split_leading_delimiter. reflexivity.
Qed.

(** X3: round trip: well-formed tokens joined by the delimiter split
    back into the same tokens; hence joining the tokens of any input and
    splitting again changes nothing. *)
Theorem X3_split_join_round_trip (d : ascii) :
  (forall ts, Forall (token_ok d) ts -> Split (join d ts) d = ts)
  /\ (forall s, Split (join d (Split s d)) d = Split s d).
Proof.
  split; [apply Split_join|].
  intros s. apply Split_join. apply Split_tokens_ok.
Qed.

Lemma X3_split_join_round_trip_witness :
  Split (join "," ["Reno"; "BBR"; "Cubic"]) "," = ["Reno"; "BBR"; "Cubic"].
Proof.
  apply (proj1 (X3_split_join_round_trip ",")).
  repeat constructor; discriminate.
Defined.

(** ** [ResolveTcpTypeId] *)

Section ResolverOutcomes.

Context {TypeId : Type} (lookup : string -> option TypeId).

(** The call appends to the log it is given. *)
Lemma Resolve_log_app algo log :
  fst (ResolveTcpTypeId lookup algo log)
  = log ++ fst (ResolveTcpTypeId lookup algo []).
Proof.
  unfold ResolveTcpTypeId.
  destruct (lookup (ns3NameOf algo)); simpl; [rewrite app_nil_r; reflexivity|].
  destruct (negb _); simpl.
  - destruct (lookup "ns3::TcpNewReno"); reflexivity.
  - rewrite app_nil_r. reflexivity.
Qed.

Lemma Resolve_outcome_from_empty algo log :
  snd (ResolveTcpTypeId lookup algo log) = snd (ResolveTcpTypeId lookup algo []).
Proof. apply Resolve_outcome_log. Qed.

(** A call that aborts has seen both lookups fail. *)
Lemma Resolve_fatal_inv algo log msg :
  snd (ResolveTcpTypeId lookup algo log) = Fatal msg ->
  lookup (ns3NameOf algo) = None
  /\ lookup "ns3::TcpNewReno" = None
  /\ msg = fatal_msg (ns3NameOf algo).
Proof.
  unfold ResolveTcpTypeId.
  destruct (lookup (ns3NameOf algo)) as [t|] eqn:E; simpl; [discriminate|].
  destruct (String.eqb_spec (ns3NameOf algo) "ns3::TcpNewReno") as [En|Hn]; simpl.
  - intros H. injection H as <-. rewrite <- En at 1. repeat split; assumption.
  - destruct (lookup "ns3::TcpNewReno") as [t|]; simpl; [discriminate|].
    intros H. injection H as <-. repeat split.
Qed.

End ResolverOutcomes.

(** X4: what a call of the resolver can do.  It keeps the log it finds
    and adds at most the one warning about the missing type.  A handle
    it returns is the engine's handle of the type chosen for the name,
    or, when that type is missing, the engine's handle of the default
    type: never anything else.  It returns whenever the engine has the
    default type, whatever the name; and when it aborts, both lookups
    have failed and the message names the type looked up first. *)
Theorem X4_resolver_outcomes
    (TypeId : Type) (lookup : string -> option TypeId)
    (algo : string) (log : list diag) :
  (exists extra,
     fst (ResolveTcpTypeId lookup algo log) = log ++ extra
     /\ (extra = [] \/ extra = [LogWarn (warn_msg (ns3NameOf algo))]))
  /\ (forall tid, snd (ResolveTcpTypeId lookup algo log) = Returns tid ->
        lookup (ns3NameOf algo) = Some tid
        \/ (lookup (ns3NameOf algo) = None
            /\ lookup "ns3::TcpNewReno" = Some tid))
  /\ (forall tid0, lookup "ns3::TcpNewReno" = Some tid0 ->
        exists tid, snd (ResolveTcpTypeId lookup algo log) = Returns tid)
  /\ (forall msg, snd (ResolveTcpTypeId lookup algo log) = Fatal msg ->
        lookup (ns3NameOf algo) = None
        /\ lookup "ns3::TcpNewReno" = None
        /\ msg = fatal_msg (ns3NameOf algo)).
Proof.
  split; [|split; [|split]].
  - unfold ResolveTcpTypeId.
    destruct (lookup (ns3NameOf algo)); simpl.
    { exists []. rewrite app_nil_r. split; [reflexivity | left; reflexivity]. }
    destruct (negb _); simpl.
    + exists [LogWarn (warn_msg (ns3NameOf algo))].
      destruct (lookup "ns3::TcpNewReno"); (split; [reflexivity | right; reflexivity]).
    + exists []. rewrite app_nil_r. split; [reflexivity | left; reflexivity].
  - intros tid. unfold ResolveTcpTypeId.
    destruct (lookup (ns3NameOf algo)) as [t|] eqn:E; simpl.
    { intros H. injection H as ->. left. reflexivity. }
    destruct (negb _); simpl; [|discriminate].
    destruct (lookup "ns3::TcpNewReno") as [t|]; simpl; [|discriminate].
    intros H. injection H as ->. right. split; reflexivity.
  - intros tid0 Hd. apply (Resolve_returns_with_default lookup tid0 algo log Hd).
  - intros msg. apply Resolve_fatal_inv.
Qed.

Lemma X4_resolver_outcomes_witness :
  (exists tid, snd (ResolveTcpTypeId (registry_without ["ns3::TcpCubic"; "ns3::TcpBbr"])
                      "Cubic" []) = Returns tid)
  /\ registry_without ["ns3::TcpNewReno"] "ns3::TcpNewReno" = None.
Proof.
  split; [|reflexivity].
  destruct (X4_resolver_outcomes string
              (registry_without ["ns3::TcpCubic"; "ns3::TcpBbr"]) "Cubic" [])
    as (_ & _ & H & _).
  apply (H "ns3::TcpNewReno"). reflexivity.
Defined.

(** ** The receive counter *)

Lemma RxTrace_burst_spec idx sizes : forall w,
  is_uint64 (map_at (gRxBytes w) idx) ->
  let w' := RxTrace_burst idx sizes w in
  map_at (gRxBytes w') idx = (map_at (gRxBytes w) idx + sum_list sizes) mod 2 ^ 64
  /\ (forall j, j <> idx -> map_at (gRxBytes w') j = map_at (gRxBytes w) j)
  /\ gRxBytesPrev w' = gRxBytesPrev w
  /\ ctx w' = ctx w /\ queue w' = queue w /\ now w' = now w.
Proof.
  induction sizes as [|s sizes IH]; intros w Hw; simpl.
  - rewrite Z.add_0_r, Z.mod_small by (unfold is_uint64 in Hw; lia).
    repeat split; reflexivity.
  - destruct (IH (RxTrace idx s w)) as (H1 & H2 & H3 & H4 & H5 & H6).
    { unfold RxTrace. cbn [gRxBytes with_gRxBytes].
      rewrite map_at_insert. destruct (decide (idx = idx)); [|contradiction].
      apply wrap64_range. }
    unfold RxTrace_burst in *. rewrite H1, H3, H4, H5, H6.
    unfold RxTrace at 1. cbn [gRxBytes with_gRxBytes].
    rewrite map_at_insert. destruct (decide (idx = idx)); [|contradiction].
    split; [|split; [|repeat split; reflexivity]].
    + unfold wrap64. rewrite Z.add_mod_idemp_l by lia. f_equal. lia.
    + intros j Hj. rewrite (H2 j Hj). unfold RxTrace.
      cbn [gRxBytes with_gRxBytes]. rewrite map_at_insert.
      destruct (decide (idx = j)); [congruence | reflexivity].
Qed.

(** X5: the receive callback accumulates.  After a burst of packets for
    flow [idx] the flow's counter is the old counter plus the sizes of
    the packets, in 64-bit arithmetic; it is the plain sum, and so has
    not decreased, as long as that stays below 2^64.  The counters of
    the other flows, the previous-sample counters, the contexts and the
    event queue are not touched. *)
Theorem X5_rx_counter_accumulates (idx : nat) (sizes : list Z) (w : World) :
  is_uint64 (map_at (gRxBytes w) idx) ->
  let w' := RxTrace_burst idx sizes w in
  map_at (gRxBytes w') idx = (map_at (gRxBytes w) idx + sum_list sizes) mod 2 ^ 64
  /\ (0 <= sum_list sizes ->
      map_at (gRxBytes w) idx + sum_list sizes < 2 ^ 64 ->
      map_at (gRxBytes w') idx = map_at (gRxBytes w) idx + sum_list sizes
      /\ map_at (gRxBytes w) idx <= map_at (gRxBytes w') idx)
  /\ (forall j, j <> idx -> map_at (gRxBytes w') j = map_at (gRxBytes w) j)
  /\ gRxBytesPrev w' = gRxBytesPrev w
  /\ ctx w' = ctx w /\ queue w' = queue w.
Proof.
  intros Hw w'.
  destruct (RxTrace_burst_spec idx sizes w Hw) as (H1 & H2 & H3 & H4 & H5 & _).
  fold w' in H1, H2, H3, H4, H5.
  split; [exact H1|]. split; [|repeat split; assumption].
  intros Hs Hlt. rewrite H1. unfold is_uint64 in Hw.
  rewrite Z.mod_small by lia. lia.
Qed.

Lemma X5_rx_counter_accumulates_witness :
  map_at (gRxBytes (RxTrace_burst 1 [1448; 1448; 536] example_world)) 1 = 6432
  /\ map_at (gRxBytes (RxTrace_burst 1 [1448; 1448; 536] example_world)) 0
     = map_at (gRxBytes example_world) 0.
Proof.
  destruct (X5_rx_counter_accumulates 1%nat [1448; 1448; 536] example_world)
    as (_ & H & H0 & _).
  - vm_compute. split; [discriminate | reflexivity].
  - destruct H as [H _]; [vm_compute; discriminate | vm_compute; reflexivity|].
    split; [rewrite H; vm_compute; reflexivity|].
    apply (H0 0%nat). discriminate.
Defined.

(** ** The trace callbacks *)

Lemma with_ctx_eq v v' w : v = v' -> with_ctx v w = with_ctx v' w.
Proof. intros ->. reflexivity. Qed.

Lemma with_ctx_twice v v' w : with_ctx v (with_ctx v' w) = with_ctx v w.
Proof. reflexivity. Qed.

Lemma alter_ext_eq {A : Type} (f g : A -> A) i (l : list A) :
  (forall x, f x = g x) -> alter f i l = alter g i l.
Proof.
  intros H. revert i. induction l as [|x l IH]; intros [|i]; simpl;
    try reflexivity.
  - rewrite H. reflexivity.
  - f_equal. apply IH.
Qed.

(** X6: the two observers overwrite and are independent.  A later
    congestion-window observation replaces an earlier one whatever the
    old-value arguments were; a congestion-window observation and an
    in-flight observation give the same state in either order, also for
    the same flow; and an observation changes nothing but the observed
    field of its own flow: not the sink, the MSS or the algorithm of any
    flow, nor the counters, the queue or the clock. *)
Theorem X6_observers_overwrite_and_commute
    (c c' : nat) (o1 n1 o2 n2 o3 : Z) (w : World) :
  CwndTrace c o2 n2 (CwndTrace c o1 n1 w) = CwndTrace c o3 n2 w
  /\ InflightTrace c o2 n2 (InflightTrace c o1 n1 w) = InflightTrace c o3 n2 w
  /\ CwndTrace c o1 n1 (InflightTrace c' o2 n2 w)
     = InflightTrace c' o2 n2 (CwndTrace c o1 n1 w)
  /\ same_but_ctx w (CwndTrace c o1 n1 w)
  /\ same_but_ctx w (InflightTrace c o1 n1 w)
  /\ (forall j x, ctx w !! j = Some x ->
        exists y, ctx (CwndTrace c o1 n1 w) !! j = Some y
          /\ lastCwndBytes y = (if decide (c = j) then Double.of_Z n1
                                else lastCwndBytes x)
          /\ inflightBytes y = inflightBytes x /\ mssBytes y = mssBytes x
          /\ algo y = algo x /\ csv y = csv x)
  /\ (forall j x, ctx w !! j = Some x ->
        exists y, ctx (InflightTrace c o1 n1 w) !! j = Some y
          /\ inflightBytes y = (if decide (c = j) then Double.of_Z n1
                                else inflightBytes x)
          /\ lastCwndBytes y = lastCwndBytes x /\ mssBytes y = mssBytes x
          /\ algo y = algo x /\ csv y = csv x).
Proof.
  split; [|split; [|split; [|split; [|split; [|split]]]]].
  - unfold CwndTrace. cbn [ctx with_ctx]. rewrite with_ctx_twice.
    apply with_ctx_eq.
    rewrite list_alter_alter_eq. apply alter_ext_eq. reflexivity.
  - unfold InflightTrace. cbn [ctx with_ctx]. rewrite with_ctx_twice.
    apply with_ctx_eq.
    rewrite list_alter_alter_eq. apply alter_ext_eq. reflexivity.
  - unfold CwndTrace, InflightTrace. cbn [ctx with_ctx]. rewrite !with_ctx_twice.
    apply with_ctx_eq.
    destruct (decide (c = c')) as [<-|Hne].
    + rewrite !list_alter_alter_eq. apply alter_ext_eq. reflexivity.
    + apply list_alter_alter_ne. exact Hne.
  - unfold same_but_ctx. repeat split; reflexivity.
  - unfold same_but_ctx. repeat split; reflexivity.
  - intros j x Hx. unfold CwndTrace. cbn [ctx with_ctx].
    rewrite list_lookup_alter. destruct (decide (c = j)) as [->|Hne].
    + rewrite Hx. eexists. split; [reflexivity|]. repeat split; reflexivity.
    + exists x. split; [exact Hx|]. repeat split; reflexivity.
  - intros j x Hx. unfold InflightTrace. cbn [ctx with_ctx].
    rewrite list_lookup_alter. destruct (decide (c = j)) as [->|Hne].
    + rewrite Hx. eexists. split; [reflexivity|]. repeat split; reflexivity.
    + exists x. split; [exact Hx|]. repeat split; reflexivity.
Qed.

Lemma X6_observers_overwrite_and_commute_witness :
  lastCwndBytes <$> ctx (CwndTrace 1 3000 4500 (CwndTrace 1 1500 3000 example_world)) !! 1%nat
  = Some (Double.of_Z 4500)
  /\ lastCwndBytes <$> ctx (CwndTrace 1 3000 4500 example_world) !! 0%nat
     = Some Double.d1500.
Proof.
  destruct (X6_observers_overwrite_and_commute 1 0 1500 3000 3000 4500 0 example_world)
    as (E & _ & _ & _ & _ & _).
  destruct (X6_observers_overwrite_and_commute 1 0 3000 4500 0 0 0 example_world)
    as (_ & _ & _ & _ & _ & H & _).
  split.
  - rewrite E. destruct (ctx example_world !! 1%nat) as [x|] eqn:Hx; [|discriminate Hx].
    destruct (H 1%nat x Hx) as (y & Hy & Hl & _).
    unfold CwndTrace in Hy |- *. rewrite Hy. simpl. rewrite Hl. reflexivity.
  - destruct (ctx example_world !! 0%nat) as [x|] eqn:Hx; [|discriminate Hx].
    destruct (H 0%nat x Hx) as (y & Hy & Hl & _).
    rewrite Hy. simpl. rewrite Hl. simpl.
    vm_compute in Hx. injection Hx as <-. reflexivity.
Defined.

(** ** Attaching the hooks *)

Lemma CwndTrace_same c o n w :
  is_Some (ctx w !! c) ->
  lastCwndBytes <$> ctx (CwndTrace c o n w) !! c = Some (Double.of_Z n).
Proof.
  intros [x Hx]. unfold CwndTrace. cbn [ctx with_ctx].
  rewrite list_lookup_alter_eq, Hx. reflexivity.
Qed.

Lemma CwndTrace_is_Some c' c o n w :
  is_Some (ctx w !! c) -> is_Some (ctx (CwndTrace c' o n w) !! c).
Proof.
  intros [x Hx]. unfold CwndTrace. cbn [ctx with_ctx].
  rewrite list_lookup_alter. destruct (decide (c' = c)) as [->|_].
  - rewrite Hx. simpl. eauto.
  - rewrite Hx. eauto.
Qed.

Lemma cwnd_fold_sets sock o n c l : forall w,
  lastCwndBytes <$> ctx w !! c = Some (Double.of_Z n)
  \/ (is_Some (ctx w !! c)
      /\ existsb (fun sc => Nat.eqb (fst sc) sock && Nat.eqb (snd sc) c) l = true) ->
  lastCwndBytes <$>
    ctx (fold_left (fun w sc => if Nat.eqb (fst sc) sock
                                then CwndTrace (snd sc) o n w else w) l w) !! c
  = Some (Double.of_Z n).
Proof.
  induction l as [|sc l IH]; intros w H; simpl.
  - destruct H as [H|[_ H]]; [exact H | discriminate H].
  - apply IH. destruct H as [H|[Hs H]].
    + left. destruct (Nat.eqb (fst sc) sock); [|exact H].
      destruct (decide (snd sc = c)) as [->|Hne].
      * apply CwndTrace_same. destruct (ctx w !! c); [eauto | discriminate H].
      * rewrite CwndTrace_other by exact Hne. exact H.
    + simpl in H. apply orb_true_iff in H as [H|H].
      * apply andb_true_iff in H as [Es Ec]. apply Nat.eqb_eq in Ec.
        rewrite Es, Ec. left. apply CwndTrace_same. exact Hs.
      * right. split; [|exact H].
        destruct (Nat.eqb (fst sc) sock); [|exact Hs].
        apply CwndTrace_is_Some. exact Hs.
Qed.

Lemma sockets_of_In sid s w :
  In (sid, s) (sockets w) -> In s (sockets_of sid w).
Proof.
  unfold sockets_of. induction (sockets w) as [|[n' s'] l IH]; intros H;
    [destruct H|].
  destruct H as [H|H].
  - injection H as -> ->. simpl. rewrite Nat.eqb_refl. left. reflexivity.
  - simpl. destruct (Nat.eqb n' sid); simpl; [right|]; apply IH; exact H.
Qed.

Lemma sockets_of_In_inv sid s w :
  In s (sockets_of sid w) -> In (sid, s) (sockets w).
Proof.
  unfold sockets_of. induction (sockets w) as [|[n' s'] l IH]; intros H;
    [destruct H|].
  simpl in H. destruct (Nat.eqb_spec n' sid) as [->|Hne]; simpl in H.
  - destruct H as [->|H]; [left; reflexivity | right; apply IH; exact H].
  - right. apply IH. exact H.
Qed.

Lemma hooked_after_hook sid c s w :
  hooked s c (HookSenderTraces sid c w)
  = hooked s c w || existsb (Nat.eqb s) (sockets_of sid w).
Proof.
  unfold hooked, HookSenderTraces. cbn [cwndSinks with_cwndSinks with_inflightSinks].
  rewrite existsb_app. f_equal.
  induction (sockets_of sid w) as [|s' l IH]; [reflexivity|].
  simpl. rewrite IH, Nat.eqb_refl, andb_true_r, (Nat.eqb_sym s' s). reflexivity.
Qed.

(** X7: the hook reaches the sockets that exist when it is attached and
    no others.  Once [HookSenderTraces] has run for a sender and a flow,
    a congestion-window change of a socket that the sender had at that
    moment sets the flow's [lastCwndBytes] to the new window; a socket
    that appears on the sender only afterwards is not connected, and a
    change of its window leaves the flow's value as it was. *)
Theorem X7_hook_binds_existing_sockets_only
    (sid c s : nat) (o n : Z) (w : World) :
  let w1 := HookSenderTraces sid c w in
  (In (sid, s) (sockets w) -> is_Some (ctx w !! c) ->
     hooked s c w1 = true
     /\ lastCwndBytes <$> ctx (engine_step (CongestionWindow s o n) w1) !! c
        = Some (Double.of_Z (wrap32 n)))
  /\ (~ In (sid, s) (sockets w) -> hooked s c w = false ->
      let w2 := engine_step (SocketCreated sid s) w1 in
      hooked s c w2 = false
      /\ lastCwndBytes <$> ctx (engine_step (CongestionWindow s o n) w2) !! c
         = lastCwndBytes <$> ctx w !! c).
Proof.
  intros w1. split.
  - intros Hin Hc.
    assert (Hh : hooked s c w1 = true).
    { unfold w1. rewrite hooked_after_hook. apply orb_true_iff. right.
      apply existsb_exists. exists s. split; [|apply Nat.eqb_refl].
      apply sockets_of_In. exact Hin. }
    split; [exact Hh|]. cbn [engine_step].
    apply cwnd_fold_sets. right. split; [exact Hc | exact Hh].
  - intros Hnin Hh w2.
    assert (Hh2 : hooked s c w2 = false).
    { unfold w2. cbn [engine_step]. unfold hooked. cbn [cwndSinks with_sockets].
      fold (hooked s c w1). unfold w1. rewrite hooked_after_hook, Hh. simpl.
      destruct (existsb (Nat.eqb s) (sockets_of sid w)) eqn:E; [|reflexivity].
      exfalso. apply existsb_exists in E as (s' & Hs' & Es).
      apply Nat.eqb_eq in Es. subst s'. apply Hnin.
      apply sockets_of_In_inv. exact Hs'. }
    split; [exact Hh2|].
    cbn [engine_step].
    rewrite (cwnd_fold_other s (wrap32 o) (wrap32 n) c (cwndSinks w2) w2 Hh2).
    reflexivity.
Qed.

Lemma X7_hook_binds_existing_sockets_only_witness :
  let w := engine_step (SocketCreated 1 7) example_world in
  lastCwndBytes <$>
    ctx (engine_step (CongestionWindow 7 1500 4500) (HookSenderTraces 1 1 w)) !! 1%nat
  = Some (Double.of_Z 4500)
  /\ lastCwndBytes <$>
       ctx (engine_step (CongestionWindow 9 1500 4500)
              (engine_step (SocketCreated 1 9) (HookSenderTraces 1 1 w))) !! 1%nat
     = Some Double.d1500.
Proof.
  intros w.
  destruct (X7_hook_binds_existing_sockets_only 1 1 7 1500 4500 w) as [H _].
  destruct (X7_hook_binds_existing_sockets_only 1 1 9 1500 4500 w) as [_ H'].
  split.
  - destruct H as [_ H]; [left; reflexivity | vm_compute; eauto|]. exact H.
  - destruct H' as [_ H'].
    + vm_compute. intros [E|[]]. discriminate E.
    + reflexivity.
    + rewrite H'. vm_compute. reflexivity.
Defined.

(** ** Successive firings of the sampler *)

Section SamplerComposition.

Variable Seconds : double -> Z.

Lemma DoSample_delta_zero dt w j :
  (j < length (ctx w))%nat ->
  rx_delta (map_at (gRxBytes (DoSample Seconds dt w)) j)
           (map_at (gRxBytesPrev (DoSample Seconds dt w)) j) = 0.
Proof.
  intros Hj. destruct (DoSample_counters Seconds dt w j) as [E1 E2].
  rewrite E1, (E2 Hj), rx_delta_max. lia.
Qed.

End SamplerComposition.

(** X8: a firing reports exactly what arrived since the firing before
    it.  When the sampler has fired and a burst of packets then arrives
    for one flow (without the counter passing 2^64), the delta of that
    flow at the next firing is the size of the burst and the row written
    for it carries delta * 8 / (sampleDt * 1e6); the delta of every other flow
    is 0.  In particular a firing that follows another with no packet in
    between reports 0 for every flow. *)
Theorem X8_sampler_reports_bytes_since_last_firing
    (Seconds : double -> Z) (dt dt2 : double) (idx : nat) (sizes : list Z)
    (w : World) :
  let w1 := DoSample Seconds dt w in
  let w2 := RxTrace_burst idx sizes w1 in
  (idx < length (ctx w))%nat ->
  is_uint64 (map_at (gRxBytes w) idx) ->
  0 <= sum_list sizes ->
  map_at (gRxBytes w) idx + sum_list sizes < 2 ^ 64 ->
  rx_delta (map_at (gRxBytes w2) idx) (map_at (gRxBytesPrev w2) idx)
  = sum_list sizes
  /\ (forall j, j <> idx -> (j < length (ctx w))%nat ->
        rx_delta (map_at (gRxBytes w2) j) (map_at (gRxBytesPrev w2) j) = 0)
  /\ (forall j c, ctx w2 !! j = Some c ->
        exists r,
          ctx (DoSample Seconds dt2 w2) !! j
          = Some (set_csv (put (csv c) (Sample r)) c)
          /\ r_thrMbps r =
               throughput_mbps (if decide (j = idx) then sum_list sizes else 0) dt2).
Proof.
  intros w1 w2 Hidx Hu Hs Hlt.
  destruct (DoSample_counters Seconds dt w idx) as [C1 C2].
  specialize (C2 Hidx). fold w1 in C1, C2.
  assert (Hu1 : is_uint64 (map_at (gRxBytes w1) idx)) by (rewrite C1; exact Hu).
  destruct (RxTrace_burst_spec idx sizes w1 Hu1) as (B1 & B2 & B3 & B4 & _).
  fold w2 in B1, B2, B3, B4.
  assert (D1 : rx_delta (map_at (gRxBytes w2) idx) (map_at (gRxBytesPrev w2) idx)
               = sum_list sizes).
  { rewrite B1, B3, C1, C2. unfold is_uint64 in Hu.
    rewrite Z.mod_small by lia. rewrite rx_delta_max. lia. }
  assert (D2 : forall j, j <> idx -> (j < length (ctx w))%nat ->
               rx_delta (map_at (gRxBytes w2) j) (map_at (gRxBytesPrev w2) j) = 0).
  { intros j Hj Hlen. rewrite (B2 j Hj), B3.
    apply DoSample_delta_zero. exact Hlen. }
  split; [exact D1|]. split; [exact D2|].
  intros j c Hc. eexists. rewrite DoSample_ctx, Hc. split; [reflexivity|].
  cbn [sample_row r_thrMbps]. destruct (decide (j = idx)) as [->|Hne].
  - rewrite D1. reflexivity.
  - rewrite D2; [reflexivity | exact Hne|].
    apply lookup_lt_Some in Hc. rewrite B4 in Hc. unfold w1 in Hc.
    rewrite DoSample_length in Hc. exact Hc.
Qed.

Lemma X8_sampler_reports_bytes_since_last_firing_witness :
  let w2 := RxTrace_burst 0 [1448; 1448] (DoSample SecondsNs d0_1 example_world) in
  rx_delta (map_at (gRxBytes w2) 0) (map_at (gRxBytesPrev w2) 0) = 2896
  /\ rx_delta (map_at (gRxBytes w2) 1) (map_at (gRxBytesPrev w2) 1) = 0.
Proof.
  intros w2.
  destruct (X8_sampler_reports_bytes_since_last_firing SecondsNs d0_1 d0_1 0
              [1448; 1448] example_world) as (H1 & H2 & _).
  - vm_compute. lia.
  - vm_compute. split; [discriminate | reflexivity].
  - vm_compute. discriminate.
  - vm_compute. reflexivity.
  - split; [exact H1|]. apply H2; [discriminate | vm_compute; lia].
Defined.

(** X9: the sampler only reads what it reports.  A firing leaves the
    algorithm, the MSS, the last congestion window and the in-flight
    size of every flow as they are, keeps every sink attached to its
    file and in its open or closed state, writes one row to an open sink
    and nothing to a sink that is not open, keeps the number of flows,
    and does not alter the current receive counters, the queue-disc
    handles, the hooks or the clock; the only change in the event queue
    is its own next call, queued last. *)
Theorem X9_sampler_reads_only
    (Seconds : double -> Z) (dt : double) (w : World) :
  let w' := DoSample Seconds dt w in
  length (ctx w') = length (ctx w)
  /\ (forall i c, ctx w !! i = Some c ->
        exists c', ctx w' !! i = Some c'
          /\ algo c' = algo c /\ mssBytes c' = mssBytes c
          /\ lastCwndBytes c' = lastCwndBytes c
          /\ inflightBytes c' = inflightBytes c
          /\ path (csv c') = path (csv c)
          /\ is_open (csv c') = is_open (csv c)
          /\ (is_open (csv c) = false -> written (csv c') = written (csv c))
          /\ (is_open (csv c) = true ->
              exists r, written (csv c') = written (csv c) ++ [Sample r]))
  /\ (forall j, map_at (gRxBytes w') j = map_at (gRxBytes w) j)
  /\ gQdiscs w' = gQdiscs w /\ nPackets w' = nPackets w
  /\ sockets w' = sockets w /\ cwndSinks w' = cwndSinks w
  /\ inflightSinks w' = inflightSinks w
  /\ now w' = now w /\ stopped w' = stopped w
  /\ queue w' = queue w ++ [(now w + Seconds dt, CallDoSample dt)].
Proof.
  intros w'. split; [apply DoSample_length|]. split; [|split].
  - intros i c Hc. exists (sampled dt (router_packets w) w i c).
    split; [unfold w'; rewrite DoSample_ctx, Hc; reflexivity|].
    unfold sampled, put.
    destruct (is_open (csv c)) eqn:Ho; cbn [algo mssBytes lastCwndBytes
      inflightBytes csv set_csv path is_open written];
      repeat split; try reflexivity; try assumption; try discriminate.
    intros _. eexists. reflexivity.
  - intros j. apply (DoSample_counters Seconds dt w j).
  - unfold w', DoSample, Schedule.
    cbn [gQdiscs nPackets sockets cwndSinks inflightSinks now stopped queue with_queue].
    destruct (sample_loop_frame dt (router_packets w) (length (ctx w)) 0 w)
      as (F1 & F2 & F3 & F4 & F5 & F6 & F7 & F8).
    cbn zeta in F1, F2, F3, F4, F5, F6, F7, F8.
    rewrite F1, F2, F3, F4, F5, F6, F7, F8. repeat split; reflexivity.
Qed.

Lemma X9_sampler_reads_only_witness :
  exists c' r,
    ctx (DoSample SecondsNs d0_1 example_world) !! 1%nat = Some c'
    /\ lastCwndBytes c' = Double.d1500
    /\ written (csv c') = [Text header; Sample r].
Proof.
  destruct (X9_sampler_reads_only SecondsNs d0_1 example_world) as (_ & H & _).
  assert (Hd : lastCwndBytes <$> ctx example_world !! 1%nat = Some Double.d1500)
    by reflexivity.
  assert (Ho : is_open <$> (csv <$> ctx example_world !! 1%nat) = Some true)
    by reflexivity.
  assert (Hw : written <$> (csv <$> ctx example_world !! 1%nat)
               = Some [Text header]) by reflexivity.
  destruct (ctx example_world !! 1%nat) as [c|] eqn:Hc; [|discriminate Hd].
  simpl in Hd, Ho, Hw. injection Hd as Hd. injection Ho as Ho. injection Hw as Hw.
  destruct (H 1%nat c Hc) as (c' & Hc' & _ & _ & Hl & _ & _ & _ & _ & Hr).
  destruct (Hr Ho) as [r Er].
  exists c', r. split; [exact Hc'|]. split; [congruence|].
  rewrite Er, Hw. reflexivity.
Defined.

(** ** What the set-up configures *)

Section SetupConfig.

Context {TypeId : Type} (lookup : string -> option TypeId)
        (open_ok : string -> bool) (Seconds : double -> Z).

Lemma setup_flow_returns_log algos mss i st st' u :
  setup_flow TypeId lookup open_ok Seconds algos mss i st = (st', Returns u) ->
  s_log st' = s_log st ++ flow_warnings lookup algos i
  /\ exists p, s_socketType st' = s_socketType st ++ [p]
               /\ flow_type_ok lookup algos i p.
Proof.
  unfold setup_flow, flow_warnings, flow_type_ok. intros H.
  destruct (algo_for algos i) as [a| |]; [|discriminate..].
  pose proof (Resolve_log_app lookup a (s_log st)) as L.
  pose proof (Resolve_outcome_from_empty lookup a (s_log st)) as O.
  destruct (ResolveTcpTypeId lookup a (s_log st)) as [log [tid| |]];
    [|discriminate..].
  destruct (open_ok (csv_name i)); [|discriminate].
  injection H as <- _. cbn [s_log s_socketType fst snd] in *.
  split; [exact L|]. exists (senderId i, tid). split; [reflexivity|].
  split; [reflexivity|]. exists a. split; [reflexivity|].
  symmetry. exact O.
Qed.

Lemma setup_loop_returns_config algos mss k : forall i st st',
  setup_loop TypeId lookup open_ok Seconds k algos mss i st = (st', Returns tt) ->
  s_log st' = s_log st ++ concat (map (flow_warnings lookup algos) (seq i k))
  /\ exists types, s_socketType st' = s_socketType st ++ types
                   /\ Forall2 (flow_type_ok lookup algos) (seq i k) types.
Proof.
  induction k as [|k IH]; intros i st st' H.
  - injection H as <-. simpl. rewrite app_nil_r. split; [reflexivity|].
    exists []. rewrite app_nil_r. split; [reflexivity | constructor].
  - cbn [setup_loop] in H.
    destruct (setup_flow TypeId lookup open_ok Seconds algos mss i st)
      as [st1 [u| |]] eqn:F; [|discriminate..].
    apply setup_flow_returns_log in F as (L1 & p & T1 & Hp).
    apply IH in H as (L2 & types & T2 & Hts).
    split.
    + rewrite L2, L1. simpl. rewrite <- app_assoc. reflexivity.
    + exists (p :: types). split.
      * rewrite T2, T1, <- app_assoc. reflexivity.
      * constructor; assumption.
Qed.

(** A round whose algorithm cannot be resolved aborts with the
    resolver's message, and does not get to the flow's file. *)
Lemma setup_flow_resolve_fails algos mss i st a msg :
  algo_for algos i = Returns a ->
  snd (ResolveTcpTypeId lookup a []) = Fatal msg ->
  exists st', setup_flow TypeId lookup open_ok Seconds algos mss i st
              = (st', Fatal msg)
              /\ map csv (s_ctx st') = map csv (s_ctx st)
              /\ s_socketType st' = s_socketType st
              /\ s_scheduled st' = s_scheduled st.
Proof.
  unfold setup_flow. intros -> R.
  rewrite <- (Resolve_outcome_from_empty lookup a (s_log st)) in R.
  destruct (ResolveTcpTypeId lookup a (s_log st)) as [log r]. simpl in R.
  subst r. eexists. split; [reflexivity|]. cbn [s_ctx s_socketType s_scheduled].
  split; [|split; reflexivity]. apply map_alter_frame. reflexivity.
Qed.

Lemma setup_loop_resolve_fails algos mss a msg i k : forall i0 st,
  (i0 <= i < i0 + k)%nat ->
  algo_for algos i = Returns a ->
  snd (ResolveTcpTypeId lookup a []) = Fatal msg ->
  (forall j, (i0 <= j < i)%nat ->
     open_ok (csv_name j) = true
     /\ exists a' tid, algo_for algos j = Returns a'
          /\ snd (ResolveTcpTypeId lookup a' []) = Returns tid) ->
  exists st', setup_loop TypeId lookup open_ok Seconds k algos mss i0 st
              = (st', Fatal msg)
    /\ (forall j, (i <= j)%nat -> csv <$> s_ctx st' !! j = csv <$> s_ctx st !! j)
    /\ length (s_socketType st') = (length (s_socketType st) + (i - i0))%nat
    /\ length (s_scheduled st') = (length (s_scheduled st) + (i - i0))%nat.
Proof.
  induction k as [|k IH]; intros i0 st Hi Ha Hr Hbefore; [lia|].
  cbn [setup_loop]. destruct (decide (i0 = i)) as [->|Hneq].
  - destruct (setup_flow_resolve_fails algos mss i st a msg Ha Hr)
      as (st' & -> & Hc & Ht & Hs).
    exists st'. split; [reflexivity|]. split; [|split].
    + intros j _. apply lookup_fmap_eq. exact Hc.
    + rewrite Ht. lia.
    + rewrite Hs. lia.
  - destruct (Hbefore i0 ltac:(lia)) as (Ho & a' & tid & Ha' & Hr').
    rewrite <- (Resolve_outcome_from_empty lookup a' (s_log st)) in Hr'.
    destruct (setup_flow_goes_through lookup open_ok Seconds algos mss i0 st a' tid
                Ha' Hr' Ho) as [st1 F].
    rewrite F.
    apply setup_flow_returns in F as (a2 & tid2 & _ & _ & _ & Hc & Ht & Hs).
    destruct (IH (S i0) st1 ltac:(lia) Ha Hr) as (st' & E & Hcsv & Hlt & Hls).
    { intros j Hj. apply Hbefore. lia. }
    exists st'. split; [exact E|]. split; [|split].
    + intros j Hj. rewrite (Hcsv j Hj), Hc.
      rewrite list_lookup_alter_ne by lia. reflexivity.
    + rewrite Hlt, Ht, length_app. simpl. lia.
    + rewrite Hls, Hs, length_app. simpl. lia.
Qed.

End SetupConfig.

(** X10: what a completed set-up has configured.  For a flow list of
    fewer than 2^32 tokens, flow [i] runs the algorithm named by token
    [i].  The sender of each flow has been given the socket type resolved
    for the flow's algorithm, one entry per flow in flow order; the log
    holds the warnings of the flows in flow order and nothing else; and
    exactly one hook call per flow is queued, for [Seconds(0.11)], in
    flow order. *)
Theorem X10_setup_configures_each_flow
    (TypeId : Type) (lookup : string -> option TypeId)
    (open_ok : string -> bool) (Seconds : double -> Z)
    (flows : string) (mss : Z) (st : Setup TypeId) :
  let algos := Split flows "," in
  let n := Z.to_nat (flow_count algos) in
  main_setup TypeId lookup open_ok Seconds flows mss = (st, Returns tt) ->
  (Z.of_nat (length algos) < 2 ^ 32 ->
   n = length algos
   /\ forall i a, algos !! i = Some a ->
        exists c, s_ctx st !! i = Some c /\ algo c = a)
  /\ Forall2 (flow_type_ok lookup algos) (seq 0 n) (s_socketType st)
  /\ s_log st = concat (map (flow_warnings lookup algos) (seq 0 n))
  /\ s_scheduled st
     = map (fun j => (Seconds d0_11, CallHookSenderTraces j j)) (seq 0 n).
Proof.
  intros algos n Hsetup.
  pose proof (main_setup_returns lookup open_ok Seconds flows mss st tt Hsetup)
    as (Hlen & Hctx & Hs).
  fold algos in Hlen, Hctx, Hs. fold n in Hlen, Hctx, Hs.
  unfold main_setup in Hsetup. fold algos in Hsetup. fold n in Hsetup.
  apply setup_loop_returns_config in Hsetup as (Hlog & types & Ht & Hts).
  simpl in Hlog, Ht. split; [|split; [|split]].
  - intros Hsmall.
    assert (Hne : algos <> []).
    { intros E. rewrite E in Hctx. destruct (Hctx 0%nat) as (_ & a & Ha & _).
      - subst n. rewrite E. vm_compute. lia.
      - discriminate Ha. }
    assert (Hn : n = length algos).
    { subst n. rewrite flow_count_small by exact Hsmall.
      destruct algos; [contradiction|]. simpl length. lia. }
    split; [exact Hn|]. intros i a Hia.
    pose proof (lookup_lt_Some _ _ _ Hia) as Hi.
    destruct (Hctx i ltac:(lia)) as (_ & a' & Ha' & E).
    destruct (algo_for_in_range algos i Hi) as (a'' & Hia' & Ha'').
    eexists. split; [exact E|]. cbn [algo configured set_csv set_mssBytes set_algo].
    congruence.
  - rewrite Ht. exact Hts.
  - exact Hlog.
  - exact Hs.
Qed.

Lemma X10_setup_configures_each_flow_witness :
  let st := fst (main_setup string (registry_without ["ns3::TcpBbr"])
                   (fun _ => true) SecondsNs "Cubic,BBR" 1500) in
  s_socketType st = [(0%nat, "ns3::TcpCubic"); (1%nat, "ns3::TcpNewReno")]
  /\ s_log st = [LogWarn "ns3::TcpBbr not available; falling back to ns3::TcpNewReno."]
  /\ (algo <$> s_ctx st !! 1%nat) = Some "BBR".
Proof.
  intros st.
  destruct (X10_setup_configures_each_flow string (registry_without ["ns3::TcpBbr"])
              (fun _ => true) SecondsNs "Cubic,BBR" 1500 st eq_refl)
    as (H1 & _ & H3 & _).
  split; [reflexivity|]. split; [rewrite H3; reflexivity|].
  destruct H1 as [_ H1]; [vm_compute; reflexivity|].
  destruct (H1 1%nat "BBR" eq_refl) as (c & Hc & Ha).
  rewrite Hc. simpl. rewrite Ha. reflexivity.
Defined.

(** X11: the set-up stops at the first flow whose algorithm cannot be
    resolved.  When the flows before flow [i] resolve and open their
    files, and resolving the algorithm of flow [i] aborts, then the
    set-up aborts with the resolver's message, whether or not the file of
    flow [i] could be opened: no sink has been opened for flow [i] or any
    later flow, and exactly the [i] senders before it have received a
    socket type and a hook call. *)
Theorem X11_setup_stops_at_unresolvable_flow
    (TypeId : Type) (lookup : string -> option TypeId)
    (open_ok : string -> bool) (Seconds : double -> Z)
    (flows : string) (mss : Z) (i : nat) (a msg : string) :
  let algos := Split flows "," in
  let n := Z.to_nat (flow_count algos) in
  (i < n)%nat ->
  algo_for algos i = Returns a ->
  snd (ResolveTcpTypeId lookup a []) = Fatal msg ->
  (forall j, (j < i)%nat ->
     open_ok (csv_name j) = true
     /\ exists a' tid, algo_for algos j = Returns a'
          /\ snd (ResolveTcpTypeId lookup a' []) = Returns tid) ->
  exists st,
    main_setup TypeId lookup open_ok Seconds flows mss = (st, Fatal msg)
    /\ msg = fatal_msg (ns3NameOf a)
    /\ (forall j c, (i <= j)%nat -> s_ctx st !! j = Some c -> csv c = closed_stream)
    /\ length (s_socketType st) = i
    /\ length (s_scheduled st) = i.
Proof.
  intros algos n Hi Ha Hr Hbefore. unfold main_setup. fold algos. fold n.
  destruct (setup_loop_resolve_fails lookup open_ok Seconds algos mss a msg i n
              0%nat (setup_init TypeId n)) as (st & E & Hcsv & Hlt & Hls);
    try assumption; [lia | intros j Hj; apply Hbefore; lia |].
  exists st. split; [exact E|]. split; [|split; [|split]].
  - destruct (Resolve_fatal_inv lookup a [] msg Hr) as (_ & _ & ->).
    reflexivity.
  - intros j c Hj Hc. specialize (Hcsv j Hj). rewrite Hc in Hcsv.
    cbn [s_ctx setup_init] in Hcsv.
    destruct (replicate n FlowCtx_default !! j) as [c0|] eqn:E0; [|discriminate].
    apply lookup_replicate in E0 as [-> _]. simpl in Hcsv. congruence.
  - rewrite Hlt. simpl. lia.
  - rewrite Hls. simpl. lia.
Qed.

Lemma X11_setup_stops_at_unresolvable_flow_witness :
  exists st,
    main_setup string (registry_without ["ns3::TcpCubic"; "ns3::TcpNewReno"])
               (fun _ => true) SecondsNs "BBR,Cubic,Reno" 1500
    = (st, Fatal "Could not resolve TCP TypeId for ns3::TcpCubic or fallback TcpNewReno")
    /\ length (s_socketType st) = 1%nat.
Proof.
  destruct (X11_setup_stops_at_unresolvable_flow string
              (registry_without ["ns3::TcpCubic"; "ns3::TcpNewReno"])
              (fun _ => true) SecondsNs "BBR,Cubic,Reno" 1500 1 "Cubic"
              "Could not resolve TCP TypeId for ns3::TcpCubic or fallback TcpNewReno")
    as (st & E & _ & _ & Hl & _).
  - vm_compute. lia.
  - reflexivity.
  - reflexivity.
  - intros j Hj. assert (j = 0%nat) as -> by lia.
    split; [reflexivity|]. exists "BBR", "ns3::TcpBbr". split; reflexivity.
  - exists st. split; [exact E | exact Hl].
Defined.

(** ** The first row and the hooks *)

Lemma In_app_remove {A : Type} (x y : A) (l1 l2 : list A) :
  In x (l1 ++ y :: l2) -> x <> y -> In x (l1 ++ l2).
Proof.
  intros H Hne. apply in_app_or in H as [H|[H|H]].
  - apply in_or_app. left. exact H.
  - congruence.
  - apply in_or_app. right. exact H.
Qed.

Lemma In_app_keep {A : Type} (x y : A) (l1 l2 : list A) :
  In x (l1 ++ l2) -> In x (l1 ++ y :: l2).
Proof.
  intros H. apply in_app_or in H as [H|H]; apply in_or_app;
    [left | right; right]; exact H.
Qed.

(** With no hook attached the engine's events leave the contexts and
    the hooks alone. *)
Lemma engine_step_unhooked e w :
  cwndSinks w = [] -> inflightSinks w = [] ->
  ctx (engine_step e w) = ctx w
  /\ cwndSinks (engine_step e w) = [] /\ inflightSinks (engine_step e w) = []
  /\ queue (engine_step e w) = queue w.
Proof.
  intros H1 H2. destruct e as [node sock|sock o n|sock o n|idx size|q n];
    cbn [engine_step]; try rewrite H1; try rewrite H2; simpl;
    repeat split; assumption || reflexivity.
Qed.

(** Every event keeps what a sink holds and may add to its end. *)
Lemma dispatch_written_grows Seconds ev w i c' :
  ctx (dispatch Seconds ev w) !! i = Some c' ->
  exists c more, ctx w !! i = Some c /\ written (csv c') = written (csv c) ++ more.
Proof.
  intros H. destruct (passive ev) eqn:Hp.
  - destruct (passive_quiet Seconds ev w Hp) as (_ & _ & _ & Q & _).
    destruct (same_csv_lookup _ _ i c' Q H) as (c & Hc & E).
    exists c, []. rewrite E, app_nil_r. split; [exact Hc | reflexivity].
  - destruct ev as [e|s c0|dt|]; try discriminate; cbn [dispatch] in H.
    + rewrite DoSample_ctx in H.
      destruct (ctx w !! i) as [c|] eqn:Hc; [|discriminate].
      injection H as <-. unfold sampled, put.
      destruct (is_open (csv c)); cbn [csv set_csv written].
      * exists c, [Sample (sample_row dt (router_packets w) i c w)].
        split; reflexivity.
      * exists c, []. rewrite app_nil_r. split; reflexivity.
    + exists c', []. rewrite app_nil_r. split; [exact H | reflexivity].
Qed.

Section FirstRow.

Variable Seconds : double -> Z.
Variables P H mss : Z.
Hypothesis sample_first : P < H.

Lemma first_row_step w t ev rest :
  first_row_inv P H mss w ->
  next_event (queue w) = Some (t, ev, rest) ->
  first_row_inv P H mss (dispatch Seconds ev (with_now t (with_queue rest w))).
Proof.
  intros Hinv Hn.
  set (w1 := with_now t (with_queue rest w)).
  assert (W1 : queue w1 = rest) by reflexivity.
  assert (W2 : ctx w1 = ctx w) by reflexivity.
  assert (W3 : cwndSinks w1 = cwndSinks w) by reflexivity.
  assert (W4 : inflightSinks w1 = inflightSinks w) by reflexivity.
  clearbody w1.
  destruct Hinv as [(A1 & A2 & A3 & A4 & A5) | Hrows].
  - apply next_event_spec in Hn as (q1 & q2 & Eq & -> & Hq1 & Hq2).
    destruct A1 as [dt A1]. rewrite Eq in A1, A2.
    assert (Ht : t <= P).
    { apply in_app_or in A1 as [A1|[A1|A1]].
      - specialize (Hq1 _ A1). simpl in Hq1. lia.
      - injection A1 as ->. lia.
      - specialize (Hq2 _ A1). simpl in Hq2. lia. }
    assert (A2' : forall t' sid c, In (t', CallHookSenderTraces sid c) (q1 ++ q2) ->
                  t' = H).
    { intros t' sid c Hin. apply (A2 t' sid c). apply In_app_keep. exact Hin. }
    destruct ev as [e|sid c|dt'|]; cbn [dispatch].
    + left.
      destruct (engine_step_unhooked e w1) as (E1 & E2 & E3 & E4);
        [congruence | congruence |].
      split; [|split; [|split; [exact E2|split; [exact E3|]]]].
      * exists dt. rewrite E4, W1. apply (In_app_remove _ _ _ _ A1). discriminate.
      * rewrite E4, W1. exact A2'.
      * rewrite E1, W2. exact A5.
    + exfalso. specialize (A2 t sid c ltac:(apply in_or_app; right; left; reflexivity)).
      lia.
    + right. intros i c' Hc'. rewrite DoSample_ctx, W2 in Hc'.
      destruct (ctx w !! i) as [c|] eqn:Hc; [|discriminate].
      injection Hc' as <-. destruct (A5 i c Hc) as (Ho & Hw & Hl & Hi & Hm).
      exists (sample_row dt' (router_packets w1) i c w1), [].
      unfold sampled, put. rewrite Ho. cbn [csv set_csv written].
      split; [rewrite Hw; reflexivity|].
      cbn [sample_row r_cwndPkts r_inflPkts]. rewrite Hl, Hi, Hm.
      split; reflexivity.
    + left. unfold before_first_row.
      change (queue (with_stopped true w1)) with (queue w1).
      change (ctx (with_stopped true w1)) with (ctx w1).
      change (cwndSinks (with_stopped true w1)) with (cwndSinks w1).
      change (inflightSinks (with_stopped true w1)) with (inflightSinks w1).
      rewrite W1, W2, W3, W4.
      split; [|split; [exact A2'|split; [exact A3|split; [exact A4|exact A5]]]].
      exists dt. apply (In_app_remove _ _ _ _ A1). discriminate.
  - right. intros i c' Hc'.
    destruct (dispatch_written_grows Seconds ev w1 i c' Hc') as (c & more & Hc & E).
    rewrite W2 in Hc. destruct (Hrows i c Hc) as (r & rest' & Hw & R1 & R2).
    exists r, (rest' ++ more). rewrite E, Hw. split; [reflexivity|].
    split; assumption.
Qed.

Lemma first_row_run fuel w w' :
  first_row_inv P H mss w -> run Seconds fuel w = Some w' ->
  first_row_inv P H mss w'.
Proof.
  apply (run_invariant Seconds (first_row_inv P H mss)).
  intros w1 t ev rest Hinv _ Hn. apply first_row_step; assumption.
Qed.

End FirstRow.

(** X12: when the sampling period is shorter than the 0.11 s after which
    [main] attaches the hooks (as the default period 0.1 is), the sampler
    fires before any hook is attached.  Whatever the engine reports in
    the meantime, the first row of every sink then carries the values of
    the set-up: cwnd_pkts = 1500 / max(1, mss) and inflight_pkts =
    0 / max(1, mss). *)
Theorem X12_first_row_precedes_hooks
    (TypeId : Type) (lookup : string -> option TypeId)
    (open_ok : string -> bool) (Seconds : double -> Z)
    (flows : string) (mss duration : Z) (sampleDt : double)
    (traffic : list (Z * engine_event)) (fuel : nat)
    (st : Setup TypeId) (w : World) :
  Seconds sampleDt < Seconds d0_11 ->
  main_setup TypeId lookup open_ok Seconds flows mss = (st, Returns tt) ->
  main TypeId lookup open_ok Seconds flows mss duration sampleDt traffic fuel
  = (s_log st, Returns (Some w)) ->
  forall i c r,
    ctx w !! i = Some c ->
    written (csv c) !! 1%nat = Some (Sample r) ->
    r_cwndPkts r = to_packets Double.d1500 (Double.of_Z mss)
    /\ r_inflPkts r = to_packets Double.zero (Double.of_Z mss).
Proof.
  intros Hlt Hsetup Hmain i c r Hc Hr.
  unfold main in Hmain. rewrite Hsetup in Hmain.
  destruct (run Seconds fuel (world_at_run Seconds st sampleDt duration traffic))
    as [w1|] eqn:Hrun; [|discriminate].
  injection Hmain as <-. rewrite close_all_lookup in Hc.
  destruct (ctx w1 !! i) as [c1|] eqn:E; [|discriminate].
  injection Hc as <-. cbn [csv set_csv written] in Hr.
  pose proof (main_setup_returns lookup open_ok Seconds flows mss st tt Hsetup)
    as (Hlen & Hctx & Hs).
  assert (H0 : first_row_inv (Seconds sampleDt) (Seconds d0_11) mss
                 (world_at_run Seconds st sampleDt duration traffic)).
  { left. unfold before_first_row, world_at_run.
    cbn [queue ctx cwndSinks inflightSinks].
    split; [|split; [|split; [reflexivity|split; [reflexivity|]]]].
    - exists sampleDt. apply in_or_app. right. left. reflexivity.
    - intros t sid c0 Hin. rewrite Hs in Hin.
      apply in_app_or in Hin as [Hin|[Hin|[Hin|Hin]]]; try discriminate Hin.
      + apply in_map_iff in Hin as (j & Ej & _). injection Ej as <- _ _.
        reflexivity.
      + apply in_map_iff in Hin as (te & Ej & _). discriminate Ej.
    - intros j cj Hcj. destruct (Hctx j) as (_ & a & _ & Ej).
      { apply lookup_lt_Some in Hcj. lia. }
      rewrite Ej in Hcj. injection Hcj as <-. repeat split; reflexivity. }
  pose proof (first_row_run Seconds _ _ mss Hlt fuel _ w1 H0 Hrun) as Hend.
  destruct Hend as [(_ & _ & _ & _ & A5) | Hrows].
  - destruct (A5 i c1 E) as (_ & Hw & _). rewrite Hw in Hr. discriminate Hr.
  - destruct (Hrows i c1 E) as (r0 & rest & Hw & R1 & R2).
    rewrite Hw in Hr. simpl in Hr. injection Hr as <-. split; assumption.
Qed.

Lemma X12_first_row_precedes_hooks_witness :
  exists w c r,
    main string full_registry (fun _ => true) SecondsNs "Reno" 1000 1 d0_1
         [(50000000, SocketCreated 0 7); (60000000, CongestionWindow 7 0 14480)] 40
    = ([], Returns (Some w))
    /\ ctx w !! 0%nat = Some c
    /\ written (csv c) !! 1%nat = Some (Sample r)
    /\ r_cwndPkts r = to_packets Double.d1500 (Double.of_Z 1000).
Proof.
  eexists _, _, _. split; [vm_compute; reflexivity|].
  split; [reflexivity|]. split; [reflexivity|].
  eapply (X12_first_row_precedes_hooks string full_registry (fun _ => true)
            SecondsNs "Reno" 1000 1 d0_1
            [(50000000, SocketCreated 0 7); (60000000, CongestionWindow 7 0 14480)]
            40 _ _ ltac:(vm_compute; reflexivity) eq_refl
            ltac:(vm_compute; reflexivity) 0%nat _ _ eq_refl eq_refl).
Defined.

(** ** Conversions of integers to [double] *)

Module DoubleExact.
Import Double.
Import DoubleFacts.

Lemma iter_xO_value mx d : Zpos (Pos.iter xO mx d) = Zpos mx * 2 ^ Zpos d.
Proof.
  induction d as [|d IH] using Pos.peano_ind.
  - simpl. lia.
  - rewrite Pos.iter_succ, Pos2Z.inj_xO, IH, Pos2Z.inj_succ, Z.pow_succ_r by lia. lia.
Qed.

Lemma digits_below p n : 0 <= n -> Zpos p < 2 ^ n -> Zpos (digits2_pos p) <= n.
Proof.
  intros Hn H. rewrite digits2_pos_log2.
  destruct (Z.eq_dec n 0) as [->|Hz]; [simpl in H; lia|].
  pose proof (proj1 (Z.log2_lt_pow2 (Zpos p) n ltac:(lia)) H). lia.
Qed.

(** An integer below [2^53] converts without rounding: the mantissa is
    the integer shifted to 53 digits. *)
Lemma of_Z_canonical p :
  Zpos p < 2 ^ 53 ->
  exists m, of_Z (Zpos p) = S754_finite false m (Zpos (digits2_pos p) - 53)
            /\ Zpos m = Zpos p * 2 ^ (53 - Zpos (digits2_pos p)).
Proof.
  intros H. pose proof (digits_below p 53 ltac:(lia) H) as Hd.
  unfold of_Z, binary_normalize, binary_round. rewrite fexp_eq.
  unfold shl_align.
  replace (Z.max (Zpos (digits2_pos p) + 0 - 53) (-1074) - 0)
    with (Zpos (digits2_pos p) - 53) by lia.
  replace (Z.max (Zpos (digits2_pos p) + 0 - 53) (-1074))
    with (Zpos (digits2_pos p) - 53) by lia.
  assert (R : forall m e, Zpos (digits2_pos m) = 53 -> -52 <= e <= 0 ->
              binary_round_aux prec emax false (Zpos m) e loc_Exact
              = S754_finite false m e).
  { intros m e Hm He. unfold binary_round_aux.
    assert (S : forall l, shr_fexp prec emax (Zpos m) e l
                          = (shr_record_of_loc (Zpos m) l, e)).
    { intros l. unfold shr_fexp. simpl Zdigits2. rewrite Hm, fexp_eq.
      replace (Z.max (53 + e - 53) (-1074) - e) with 0 by lia. reflexivity. }
    rewrite S.
    cbv beta iota zeta delta [shr_record_of_loc loc_of_shr_record
                              round_nearest_even shr_m shr_r shr_s].
    rewrite S.
    cbv beta iota zeta delta [shr_record_of_loc shr_m].
    change (emax - prec) with 971.
    destruct (Z.leb_spec e 971); [reflexivity | lia]. }
  destruct (Zpos (digits2_pos p) - 53) as [|k|k] eqn:E; [|lia|].
  - exists p. split.
    + rewrite (R p 0); [reflexivity | lia | lia].
    + replace (53 - Zpos (digits2_pos p)) with 0 by lia. simpl. lia.
  - exists (Pos.iter xO p k). split.
    + apply R; [rewrite iter_xO_digits; lia | lia].
    + rewrite iter_xO_value. f_equal. f_equal. lia.
Qed.

Lemma of_Z_ltb a b :
  0 <= a < 2 ^ 53 -> 0 <= b < 2 ^ 53 ->
  ltb (of_Z a) (of_Z b) = (a <? b).
Proof.
  intros Ha Hb. unfold ltb, SFltb.
  destruct a as [|p|p]; [| |lia]; destruct b as [|q|q]; try lia.
  - reflexivity.
  - destruct (of_Z_canonical q ltac:(lia)) as (m & -> & _). reflexivity.
  - destruct (of_Z_canonical p ltac:(lia)) as (m & -> & _). reflexivity.
  - destruct (of_Z_canonical p ltac:(lia)) as (m1 & -> & M1).
    destruct (of_Z_canonical q ltac:(lia)) as (m2 & -> & M2).
    cbn [SFcompare].
    pose proof (digits2_pos_log2 p) as Dp. pose proof (digits2_pos_log2 q) as Dq.
    pose proof (digits_below p 53 ltac:(lia) ltac:(lia)) as Bp.
    pose proof (digits_below q 53 ltac:(lia) ltac:(lia)) as Bq.
    change (PosDef.Pos.compare_cont Eq m1 m2) with (Pos.compare m1 m2).
    destruct (Z.ltb_spec (Zpos p) (Zpos q)) as [Hlt|Hge].
    + pose proof (Z.log2_le_mono (Zpos p) (Zpos q) ltac:(lia)) as Hl.
      destruct (Z.compare_spec (Zpos (digits2_pos p) - 53) (Zpos (digits2_pos q) - 53))
        as [He|He|He]; [|reflexivity|lia].
      assert (Hm : (m1 < m2)%positive).
      { change (Zpos m1 < Zpos m2). rewrite M1, M2.
        replace (Zpos (digits2_pos q)) with (Zpos (digits2_pos p)) by lia.
        apply Z.mul_lt_mono_pos_r; [apply Z.pow_pos_nonneg; lia | exact Hlt]. }
      apply Pos.compare_lt_iff in Hm. rewrite Hm. reflexivity.
    + pose proof (Z.log2_le_mono (Zpos q) (Zpos p) ltac:(lia)) as Hl.
      destruct (Z.compare_spec (Zpos (digits2_pos p) - 53) (Zpos (digits2_pos q) - 53))
        as [He|He|He]; [|lia|reflexivity].
      assert (Hm : (m2 <= m1)%positive).
      { change (Zpos m2 <= Zpos m1). rewrite M1, M2.
        replace (Zpos (digits2_pos q)) with (Zpos (digits2_pos p)) by lia.
        apply Z.mul_le_mono_nonneg_r; [apply Z.pow_nonneg; lia | exact Hge]. }
      apply Pos.compare_ge_iff in Hm.
      destruct (Pos.compare m1 m2); try reflexivity. exfalso. apply Hm. reflexivity.
Qed.

Lemma of_Z_inj a b :
  0 <= a < 2 ^ 53 -> 0 <= b < 2 ^ 53 -> of_Z a = of_Z b -> a = b.
Proof.
  intros Ha Hb E.
  pose proof (of_Z_ltb a b Ha Hb) as H1. pose proof (of_Z_ltb b a Hb Ha) as H2.
  pose proof (of_Z_ltb b b Hb Hb) as H3.
  rewrite E in H1. rewrite <- E in H2 at 1. rewrite E in H2. 
  rewrite H3 in H1. rewrite H3 in H2.
  rewrite Z.ltb_irrefl in H1, H2. symmetry in H1, H2.
  apply Z.ltb_ge in H1, H2. lia.
Qed.

End DoubleExact.

(** X13: the conversions of the 32-bit values of the program to [double]
    lose nothing.  Two different window (or in-flight) sizes handed to
    the trace callbacks leave different values in the context, the
    order of the integers is the order of the doubles, and for the
    [mssBytes] that [main] stores the divisor std::max(1.0, mssBytes)
    is exactly the conversion of max(1, mss). *)
Theorem X13_integer_conversions_exact (c : nat) (o n n' mss : Z) (w : World) :
  is_uint32 n -> is_uint32 n' -> is_uint32 mss -> (c < length (ctx w))%nat ->
  (ctx (CwndTrace c o n w) = ctx (CwndTrace c o n' w) -> n = n')
  /\ (ctx (InflightTrace c o n w) = ctx (InflightTrace c o n' w) -> n = n')
  /\ Double.ltb (Double.of_Z n) (Double.of_Z n') = (n <? n')
  /\ mss_divisor (Double.of_Z mss) = Double.of_Z (Z.max 1 mss).
Proof.
  unfold is_uint32. intros Hn Hn' Hm Hc.
  destruct (lookup_lt_is_Some_2 (ctx w) c Hc) as [x Hx].
  assert (B : 2 ^ 32 < 2 ^ 53) by (vm_compute; reflexivity).
  split; [|split; [|split]].
  - intros E. apply (f_equal (fun l => lastCwndBytes <$> l !! c)) in E.
    unfold CwndTrace in E. cbn [ctx with_ctx] in E.
    rewrite !list_lookup_alter, Hx in E.
    destruct (decide (c = c)) as [_|Hne]; [|congruence]. simpl in E. injection E as E.
    apply DoubleExact.of_Z_inj in E; [exact E | lia | lia].
  - intros E. apply (f_equal (fun l => inflightBytes <$> l !! c)) in E.
    unfold InflightTrace in E. cbn [ctx with_ctx] in E.
    rewrite !list_lookup_alter, Hx in E.
    destruct (decide (c = c)) as [_|Hne]; [|congruence]. simpl in E. injection E as E.
    apply DoubleExact.of_Z_inj in E; [exact E | lia | lia].
  - apply DoubleExact.of_Z_ltb; lia.
  - unfold mss_divisor, Double.max.
    change Double.d1 with (Double.of_Z 1).
    rewrite DoubleExact.of_Z_ltb by lia.
    destruct (Z.ltb_spec 1 mss) as [H|H].
    + rewrite Z.max_r by lia. reflexivity.
    + rewrite Z.max_l by lia. reflexivity.
Qed.

Lemma X13_integer_conversions_exact_witness :
  mss_divisor (Double.of_Z 1448) = Double.of_Z 1448
  /\ Double.ltb (Double.of_Z 14480) (Double.of_Z 15928) = true.
Proof.
  destruct (X13_integer_conversions_exact 0 0 14480 15928 1448 example_world)
    as (_ & _ & L & D); try (vm_compute; split; [discriminate | reflexivity]).
  - vm_compute. lia.
  - split; [exact D | exact L].
Defined.

(** ** Addresses and ports of the flows *)

Lemma same_residue (a x y m : Z) :
  0 < m -> ((a + x) mod m = (a + y) mod m <-> x mod m = y mod m).
Proof.
  intros Hm. split; intros H.
  - pose proof (Z.div_mod (a + x) m ltac:(lia)) as E1.
    pose proof (Z.div_mod (a + y) m ltac:(lia)) as E2.
    rewrite H in E1.
    replace x with (y + ((a + x) / m - (a + y) / m) * m) by lia.
    apply Z.mod_add. lia.
  - pose proof (Z.div_mod x m ltac:(lia)) as E1.
    pose proof (Z.div_mod y m ltac:(lia)) as E2.
    rewrite H in E1.
    replace (a + x) with (a + y + (x / m - y / m) * m) by lia.
    apply Z.mod_add. lia.
Qed.

Lemma port_eq i : port i = (5000 + Z.of_nat i) mod 2 ^ 16.
Proof.
  unfold port, wrap16, wrap32.
  apply Z.mod_mod_divide. exists (2 ^ 16). reflexivity.
Qed.

Lemma net_number_inj n i j :
  (i < n)%nat -> (j < n)%nat -> Z.of_nat n < 2 ^ 32 ->
  wrap32 (Z.of_nat i + 1) = wrap32 (Z.of_nat j + 1) -> i = j.
Proof.
  intros Hi Hj Hn H.
  rewrite !wrap32_small in H by (unfold is_uint32; lia). lia.
Qed.

(** X14: the flows of a run have their own subnets: the base addresses
    "10.1.(i+1).0" and "10.2.(i+1).0" that [main] builds differ from flow
    to flow and from one side to the other.  The port 5000 + i is kept
    in 16 bits: it is 5000 + i up to flow 60535, and two flows share a
    port exactly when their indices differ by a multiple of 65536. *)
Theorem X14_flows_have_their_own_subnets (algos : list string) (i j : nat) :
  (i < Z.to_nat (flow_count algos))%nat ->
  (j < Z.to_nat (flow_count algos))%nat ->
  (net1 i = net1 j -> i = j)
  /\ (net2 i = net2 j -> i = j)
  /\ net1 i <> net2 j
  /\ (Z.of_nat i <= 60535 -> port i = 5000 + Z.of_nat i)
  /\ (port i = port j <-> Z.of_nat i mod 65536 = Z.of_nat j mod 65536).
Proof.
  intros Hi Hj.
  assert (Hn : Z.of_nat (Z.to_nat (flow_count algos)) < 2 ^ 32).
  { unfold flow_count.
    pose proof (wrap32_range (Z.of_nat (length algos))) as R.
    unfold is_uint32 in R. lia. }
  split; [|split; [|split; [|split]]].
  - unfold net1. intros H.
    apply (String.app_inj "10.1.") in H. apply app_suffix_inj in H.
    apply (inj pretty) in H. exact (net_number_inj _ i j Hi Hj Hn H).
  - unfold net2. intros H.
    apply (String.app_inj "10.2.") in H. apply app_suffix_inj in H.
    apply (inj pretty) in H. exact (net_number_inj _ i j Hi Hj Hn H).
  - unfold net1, net2. intros H. simpl in H. discriminate H.
  - intros H. rewrite port_eq. apply Z.mod_small. lia.
  - rewrite !port_eq. apply same_residue. lia.
Qed.

Lemma X14_flows_have_their_own_subnets_witness :
  net1 0 = "10.1.1.0" /\ net2 1 = "10.2.2.0" /\ net1 0 <> net2 1
  /\ port 1 = 5001.
Proof.
  destruct (X14_flows_have_their_own_subnets ["Reno"; "Cubic"] 1 1)
    as (_ & _ & _ & P & _); [vm_compute; lia | vm_compute; lia |].
  destruct (X14_flows_have_their_own_subnets ["Reno"; "Cubic"] 0 1)
    as (_ & _ & N & _); [vm_compute; lia | vm_compute; lia |].
  split; [reflexivity|]. split; [reflexivity|]. split; [exact N|].
  rewrite P; [reflexivity | simpl; lia].
Defined.
